(** * invoice-app: the extraction pipeline, embedded and verified

    A shallow embedding of the deterministic core of the invoice
    extraction pipeline:

    - [app/core/models.py]            the records exchanged between stages;
    - [app/core/validators.py]        item arithmetic and VAT cross-checks;
    - [app/services/agents/decision_agent.py]   scoring and arbitration;
    - [app/services/agents/extraction_agent.py] the extraction backends;
    - [app/services/ocr/providers.py] the OCR provider chain;
    - [app/services/agents/ocr_agent.py]        the OCR quality gate.

    Modelling conventions.

    - Python [float] values are idealised as exact rationals ([Q]);
      [round(x, 2)] is rounding to two decimals, ties to even.  Python's
      truthiness of a number ([0] and [0.0] are falsy) is kept.
    - [dict] results with varying keys are insertion-ordered association
      lists from keys to Python values.
    - External engines (OCR engines, language-model backends) are oracles
      returning [option]: [None] is a raised exception.  Every call to an
      oracle is recorded in a trace, so that "is never invoked" is a
      statement about the trace.
    - OCR text is a sequence of Unicode code points; the classification of
      code points ([str.isdigit], [str.isalnum], [str.isspace]) belongs to
      the interpreter and is a parameter of the development. *)

From Stdlib Require Import ZArith QArith Qround Qabs Qminmax Qpower Lqa Lia.
From Stdlib Require Import List String DecimalString Bool Permutation Sorted.
Import ListNotations.

Local Open Scope Q_scope.
Local Open Scope string_scope.

(* ===================================================================== *)
(** * Part I: the model                                                   *)
(* ===================================================================== *)

(** ** Python values and built-ins *)

Module Py.

(** Comparisons on numbers, as booleans. *)
Definition Qltb (x y : Q) : bool := negb (Qle_bool y x).
Definition Qgeb (x y : Q) : bool := Qle_bool y x.
Definition Qgtb (x y : Q) : bool := Qltb y x.

(** [bool(x)] for a number: everything but zero. *)
Definition truthyQ (x : Q) : bool := negb (Qeq_bool x 0).

(** [bool(x)] for an [Optional[float]]. *)
Definition truthy_opt (o : option Q) : bool :=
  match o with
  | None => false
  | Some x => truthyQ x
  end.

(** [all(xs)] on already evaluated truth values. *)
Definition all (bs : list bool) : bool := forallb (fun b => b) bs.

(** Nearest integer, ties to even. *)
Definition round_half_even (x : Q) : Z :=
  let f := Qfloor x in
  match Qcompare (x - inject_Z f) (1 # 2) with
  | Lt => f
  | Gt => (f + 1)%Z
  | Eq => if Z.even f then f else (f + 1)%Z
  end.

(** [round(x, 2)]. *)
Definition round2 (x : Q) : Q :=
  Qred (inject_Z (round_half_even (x * 100)) / 100).

(** [sum(xs)]: starts from [0] and adds from the left. *)
Definition sum (xs : list Q) : Q := fold_left Qplus xs 0.

(** [min(a, b)]: the first argument unless the second is smaller. *)
Definition min (a b : Q) : Q := if Qltb b a then b else a.

(** Values stored in result dictionaries. *)
Inductive value : Type :=
| VNone
| VBool (b : bool)
| VInt (n : Z)
| VFloat (x : Q)
| VStr (s : string).

Definition of_opt_str (o : option string) : value :=
  match o with
  | None => VNone
  | Some s => VStr s
  end.

(** [bool(v)]. *)
Definition truthy (v : value) : bool :=
  match v with
  | VNone => false
  | VBool b => b
  | VInt n => negb (n =? 0)%Z
  | VFloat x => truthyQ x
  | VStr s => negb (s =? "")%string
  end.

(** A [dict] with string keys, in insertion order. *)
Definition dict (V : Type) : Type := list (string * V).

(** [d.get(k)] *)
Fixpoint get {V : Type} (k : string) (d : dict V) : option V :=
  match d with
  | [] => None
  | (k', v) :: d' => if (k =? k')%string then Some v else get k d'
  end.

(** [d.get(k, default)] *)
Definition get_default {V : Type} (k : string) (default : V) (d : dict V) : V :=
  match get k d with
  | Some v => v
  | None => default
  end.

(** [k in d] *)
Definition contains {V : Type} (k : string) (d : dict V) : bool :=
  match get k d with
  | Some _ => true
  | None => false
  end.

(** [d[k] = v]: overwrite in place, or append a new key. *)
Fixpoint set {V : Type} (k : string) (v : V) (d : dict V) : dict V :=
  match d with
  | [] => [(k, v)]
  | (k', v') :: d' =>
      if (k =? k')%string then (k, v) :: d' else (k', v') :: set k v d'
  end.

(** [d.update(other)] *)
Definition update {V : Type} (d other : dict V) : dict V :=
  fold_left (fun acc kv => set (fst kv) (snd kv) acc) other d.

(** [o is not None] *)
Definition present {A : Type} (o : option A) : bool :=
  match o with
  | Some _ => true
  | None => false
  end.

(** [sum(1 for b in bs if b)] *)
Definition count_true (bs : list bool) : nat :=
  List.length (filter (fun b => b) bs).

(** An [int] used as a number. *)
Definition of_nat (n : nat) : Q := inject_Z (Z.of_nat n).

(** [f"{x:.2f}"] *)
Definition format_2f (x : Q) : string :=
  let hundredths := Z.to_N (round_half_even (Qabs x * 100)) in
  let units := NilZero.string_of_uint (N.to_uint (hundredths / 100)) in
  let cents := NilZero.string_of_uint (N.to_uint (hundredths mod 100)) in
  (if Qltb x 0 then "-" else "")
  ++ units ++ "." ++ (if (hundredths mod 100 <? 10)%N then "0" else "") ++ cents.

(** [enumerate(xs)] *)
Fixpoint enumerate_from {A : Type} (i : nat) (xs : list A) : list (nat * A) :=
  match xs with
  | [] => []
  | x :: xs' => (i, x) :: enumerate_from (S i) xs'
  end.
Definition enumerate {A : Type} (xs : list A) : list (nat * A) :=
  enumerate_from 0 xs.

(** [max(best :: xs, key=key)]: the candidate is replaced only by an
    element of strictly greater key, so the first maximal element wins. *)
Fixpoint max_by_from {A : Type} (key : A -> Q) (best : A) (xs : list A) : A :=
  match xs with
  | [] => best
  | x :: xs' => max_by_from key (if Qgtb (key x) (key best) then x else best) xs'
  end.

(** [xs.sort(key=key, reverse=True)]: descending and stable (elements
    with equal keys keep their original order). *)
Fixpoint insert_desc {A : Type} (key : A -> Q) (x : A) (l : list A) : list A :=
  match l with
  | [] => [x]
  | y :: l' =>
      if Qle_bool (key y) (key x) then x :: l else y :: insert_desc key x l'
  end.
Definition sort_desc {A : Type} (key : A -> Q) (l : list A) : list A :=
  fold_right (insert_desc key) [] l.

End Py.

(** ** [app/core/models.py] *)

Module Models.

Record InvoiceItem : Type := {
  product_name : option string;
  quantity : option Q;
  unit_price : option Q;
  total_price : option Q;
  description : option string
}.

Record InvoiceGeneral : Type := {
  invoice_number : option string;
  date : option string;
  supplier_name : option string;
  total_amount : option Q;
  currency : option string
}.

Record InvoiceExtraction : Type := {
  general_fields : InvoiceGeneral;
  items : list InvoiceItem
}.

(** [InvoiceGeneral()]: every field at its default. *)
Definition InvoiceGeneral_default : InvoiceGeneral :=
  {| invoice_number := None; date := None; supplier_name := None;
     total_amount := None; currency := None |}.

End Models.

(** ** [app/core/validators.py] *)

Module Validators.
Import Py Models.

Definition verdict : Type := dict value.

Definition validate_item_calculation (item : InvoiceItem) (index : Z) : verdict :=
  if negb (all [truthy_opt (quantity item); truthy_opt (unit_price item);
                truthy_opt (total_price item)])
  then
    [ ("item_index", VInt index);
      ("product", of_opt_str (product_name item));
      ("valid", VBool true);
      ("skipped", VBool true);
      ("reason", VStr "Missing required fields for calculation") ]
  else
    match quantity item, unit_price item, total_price item with
    | Some q, Some u, Some t =>
        let expected := round2 (q * u) in
        let actual := round2 t in
        let is_valid := Qltb (Qabs (expected - actual)) (1 # 100) in
        [ ("item_index", VInt index);
          ("product", of_opt_str (product_name item));
          ("expected", VFloat expected);
          ("actual", VFloat actual);
          ("valid", VBool is_valid) ]
    | _, _, _ => [] (* not reached: the guard above rejects [None] *)
    end.

(** The values of [item.total_price for item in items if item.total_price
    is not None]. *)
Fixpoint present_total_prices (its : list InvoiceItem) : list Q :=
  match its with
  | [] => []
  | i :: its' =>
      match total_price i with
      | Some t => t :: present_total_prices its'
      | None => present_total_prices its'
      end
  end.

Definition default_tax_rate : Q := 18 # 100.

Definition validate_tax (data : InvoiceExtraction) (tax_rate : Q) : verdict :=
  let items_total := sum (present_total_prices (items data)) in
  if Qle_bool items_total 0 || negb (truthy_opt (total_amount (general_fields data)))
  then
    [ ("valid", VBool true);
      ("skipped", VBool true);
      ("reason", VStr "Insufficient data for tax validation") ]
  else
    match total_amount (general_fields data) with
    | None => [] (* not reached: the guard above rejects [None] *)
    | Some actual_total =>
        let expected_with_tax := round2 (items_total * (1 + tax_rate)) in
        let tax_diff := Qabs (expected_with_tax - actual_total) in
        let no_tax_diff := Qabs (items_total - actual_total) in
        if Qltb tax_diff 1 then
          [ ("items_subtotal", VFloat items_total);
            ("expected_with_tax", VFloat expected_with_tax);
            ("actual_total", VFloat actual_total);
            ("tax_rate", VFloat tax_rate);
            ("vat_applied", VBool true);
            ("valid", VBool true) ]
        else if Qltb no_tax_diff 1 then
          [ ("items_subtotal", VFloat items_total);
            ("actual_total", VFloat actual_total);
            ("vat_applied", VBool false);
            ("valid", VBool true) ]
        else
          [ ("items_subtotal", VFloat items_total);
            ("expected_with_tax", VFloat expected_with_tax);
            ("actual_total", VFloat actual_total);
            ("tax_rate", VFloat tax_rate);
            ("valid", VBool false);
            ("error", VStr "Total does not match items subtotal with or without tax") ]
    end.

(** The report of [validate_invoice]: a dictionary with three fixed keys. *)
Record report : Type := {
  item_calculations : list verdict;
  tax_validation : verdict;
  all_valid : bool
}.

Definition validate_invoice (data : InvoiceExtraction) : report :=
  let item_validations :=
    map (fun ix => validate_item_calculation (snd ix) (Z.of_nat (fst ix)))
        (enumerate (items data)) in
  let tax_validation := validate_tax data default_tax_rate in
  let all_valid :=
    all (map (fun v => truthy (get_default "valid" (VBool true) v)) item_validations)
    && truthy (get_default "valid" (VBool true) tax_validation) in
  {| item_calculations := item_validations;
     tax_validation := tax_validation;
     all_valid := all_valid |}.

End Validators.

(** ** Calls to external engines: traces and exceptions *)

Module Eff.

Inductive exn : Type :=
| RuntimeError (msg : string)
| IndexError
| ValueError
| EngineError.        (* whatever an external engine or backend raises *)

Inductive outcome (A : Type) : Type :=
| Returned (a : A)
| Raised (e : exn).
Arguments Returned {A} a.
Arguments Raised {A} e.

(** A computation that has run: what it produced, and the calls to
    external engines it made, oldest first. *)
Definition M (Ev A : Type) : Type := (outcome A * list Ev)%type.

Definition ret {Ev A : Type} (a : A) : M Ev A := (Returned a, []).

Definition raise {Ev A : Type} (e : exn) : M Ev A := (Raised e, []).

Definition bind {Ev A B : Type} (c : M Ev A) (k : A -> M Ev B) : M Ev B :=
  match c with
  | (Returned a, t) => let (o, t') := k a in (o, (t ++ t')%list)
  | (Raised e, t) => (Raised e, t)
  end.

(** One call to an external engine: the call is logged, and the engine
    answers or raises. *)
Definition call {Ev A : Type} (ev : Ev) (answer : option A) : M Ev A :=
  match answer with
  | Some a => (Returned a, [ev])
  | None => (Raised EngineError, [ev])
  end.

(** [try: c  except Exception: h] *)
Definition catch {Ev A : Type} (c : M Ev A) (h : exn -> M Ev A) : M Ev A :=
  match c with
  | (Returned a, t) => (Returned a, t)
  | (Raised e, t) => let (o, t') := h e in (o, (t ++ t')%list)
  end.

(** [try: x = c  except Exception: (log)]: the failure is absorbed. *)
Definition attempt {Ev A : Type} (c : M Ev A) : M Ev (option A) :=
  match c with
  | (Returned a, t) => (Returned (Some a), t)
  | (Raised _, t) => (Returned None, t)
  end.

Definition value_of {Ev A : Type} (c : M Ev A) : outcome A := fst c.
Definition trace_of {Ev A : Type} (c : M Ev A) : list Ev := snd c.

Declare Scope eff_scope.
Delimit Scope eff_scope with eff.
Notation "x <- c ;; k" := (bind c (fun x => k))
  (at level 61, c at next level, right associativity) : eff_scope.

End Eff.

(** ** Text *)

Module Text.

(** A [str]: a sequence of Unicode code points. *)
Definition str : Type := list N.

(** The interpreter's classification of code points. *)
Class Unicode : Type := {
  isdigit : N -> bool;
  isalnum : N -> bool;
  isspace : N -> bool
}.

Section WithUnicode.
Context {U : Unicode}.

Fixpoint lstrip (s : str) : str :=
  match s with
  | [] => []
  | c :: s' => if isspace c then lstrip s' else s
  end.

Definition rstrip (s : str) : str := rev (lstrip (rev s)).

(** [s.strip()] *)
Definition strip (s : str) : str := rstrip (lstrip s).

(** [bool(s)] *)
Definition nonempty (s : str) : bool :=
  match s with
  | [] => false
  | _ :: _ => true
  end.
End WithUnicode.

(** [s[:n]] *)
Definition prefix (n : nat) (s : str) : str := firstn n s.
Arguments prefix : simpl never.

(** A string literal as code points. *)
Definition of_string (s : string) : str :=
  map Ascii.N_of_ascii (list_ascii_of_string s).

(** The classification restricted to ASCII (code points from 128 on are
    left unclassified); enough to run the model on ASCII text. *)
Definition ascii_isdigit (c : N) : bool := ((48 <=? c) && (c <=? 57))%N.
Definition ascii_isalpha (c : N) : bool :=
  (((65 <=? c) && (c <=? 90)) || ((97 <=? c) && (c <=? 122)))%N.
Definition ascii_isspace (c : N) : bool :=
  (((9 <=? c) && (c <=? 13)) || ((28 <=? c) && (c <=? 32)))%N.

Definition ascii_unicode : Unicode :=
  {| isdigit := ascii_isdigit;
     isalnum := fun c => ascii_isdigit c || ascii_isalpha c;
     isspace := ascii_isspace |}.

End Text.

(** ** [app/services/ocr/providers.py] *)

Module Providers.
Import Py Eff Text.
Local Open Scope eff_scope.

(** [OCRResult] of [app/core/models.py].  The model constrains
    [confidence] to [0, 1] when a result is built; the results handled here
    are built by the providers, behind the oracles. *)
Record OCRResult : Type := {
  text : str;
  confidence : Q;
  language : string;
  retry_count : Z;
  provider : string
}.

(** An OCR provider: its name, and what its [extract] does on a given
    image and language (the engine call and the assembling of the engine's
    output into an [OCRResult]); [None] when it raises. *)
Record OCRProvider : Type := {
  name : string;
  extract : string -> string -> option OCRResult
}.

(** The engines behind the two providers of the repository. *)
Record engines : Type := {
  paddleocr : string -> string -> option OCRResult;
  easyocr : string -> string -> option OCRResult
}.

Definition PaddleOCRProvider (e : engines) : OCRProvider :=
  {| name := "paddleocr"; extract := paddleocr e |}.

Definition EasyOCRProvider (e : engines) : OCRProvider :=
  {| name := "easyocr"; extract := easyocr e |}.

(** A logged provider call. *)
Record invocation : Type := {
  invoked : string;
  on_image : string;
  on_lang : string
}.

Module OCRProviderChain.

Record t : Type := {
  providers : list OCRProvider;
  min_confidence : Q
}.

(** [__init__] *)
Definition init (e : engines) (min_confidence : Q) : t :=
  {| providers := [PaddleOCRProvider e; EasyOCRProvider e];
     min_confidence := min_confidence |}.

Definition default_min_confidence : Q := 5 # 10.

(** [max(results, key=lambda r: r.confidence)] after the loop, or the
    aggregate failure. *)
Definition best_or_fail (results : list OCRResult) : M invocation OCRResult :=
  match results with
  | [] => raise (RuntimeError "All OCR providers failed")
  | r :: rs => ret (max_by_from confidence r rs)
  end.

(** The [for provider in self.providers] loop of [extract], from the
    providers still to try and the results collected so far. *)
Fixpoint extract_from (min_conf : Q) (image_path lang : string)
    (todo : list OCRProvider) (results : list OCRResult)
    : M invocation OCRResult :=
  match todo with
  | [] => best_or_fail results
  | p :: todo' =>
      r <- attempt (call {| invoked := name p; on_image := image_path;
                            on_lang := lang |}
                         (extract p image_path lang)) ;;
      match r with
      | Some result =>
          let results := (results ++ [result])%list in
          if Qgeb (confidence result) min_conf
          then ret result
          else extract_from min_conf image_path lang todo' results
      | None => extract_from min_conf image_path lang todo' results
      end
  end.

Definition extract (self : t) (image_path lang : string) : M invocation OCRResult :=
  extract_from (min_confidence self) image_path lang (providers self) [].

End OCRProviderChain.

End Providers.

(** ** [app/prompts/ocr_prompts.py] and [app/services/agents/ocr_agent.py] *)

Module OCRAgent.
Import Py Eff Text Providers.
Local Open Scope eff_scope.

Inductive quality_rating : Type := good | poor.

(** [OCRQualityAssessment] of [app/core/models.py].  The model constrains
    [confidence] to [0, 1]; the gate builds assessments with confidence 0,
    0.3, or the confidence of the [OCRResult] it was given. *)
Record OCRQualityAssessment : Type := {
  quality : quality_rating;
  confidence : Q;
  issues : list string;
  should_retry : bool;
  suggested_params : option (dict Q)
}.

Definition OCR_RETRY_PARAMS : dict (dict Q) :=
  [ ("empty_text", [("det_db_thresh", 2 # 10); ("det_db_box_thresh", 3 # 10)]);
    ("text_too_short", [("det_db_thresh", 2 # 10)]);
    ("no_numbers", [("det_db_thresh", 25 # 100)]);
    ("excessive_special_chars",
       [("det_db_thresh", 35 # 100); ("det_db_unclip_ratio", 2)]);
    ("low_confidence", [("det_db_thresh", 3 # 10)]) ].

Definition _get_retry_params (issues : list string) : dict Q :=
  let params :=
    fold_left
      (fun params issue =>
         match get issue OCR_RETRY_PARAMS with
         | Some adjustments => update params adjustments
         | None => params
         end)
      issues [] in
  match params with
  | [] => [("det_db_thresh", 3 # 10)]
  | _ :: _ => params
  end.

(** [bool(d)] for an [Optional[dict]]. *)
Definition truthy_params (o : option (dict Q)) : bool :=
  match o with
  | None | Some [] => false
  | Some (_ :: _) => true
  end.

Section WithUnicode.
Context {U : Unicode}.

(** The model backend behind [self._agent.run_sync]: from the bounded
    prefix of the text placed in the prompt to its structured output;
    [None] when the call raises. *)
Variable backend : str -> option OCRQualityAssessment.

(** The heuristic checks of [assess_quality], in source order. *)
Definition quick_issues (text : str) : list string :=
  let too_short :=
    if (List.length text <? 50)%nat then ["text_too_short"] else [] in
  let no_numbers :=
    if negb (existsb isdigit text) then ["no_numbers"] else [] in
  let special_ratio :=
    inject_Z (Z.of_nat (List.length (filter (fun c => negb (isalnum c) && negb (isspace c)) text)))
    / inject_Z (Z.of_nat (List.length text)) in
  let special :=
    if Qgtb special_ratio (3 # 10) then ["excessive_special_chars"] else [] in
  (too_short ++ no_numbers ++ special)%list.

Definition assess_quality (ocr_result : OCRResult) : M str OCRQualityAssessment :=
  if negb (nonempty (strip (text ocr_result))) then
    ret {| quality := poor;
           confidence := 0;
           issues := ["empty_text"];
           should_retry := true;
           suggested_params := Some [("det_db_thresh", 2 # 10)] |}
  else
    let text := text ocr_result in
    let quick_issues := quick_issues text in
    if (2 <=? List.length quick_issues)%nat then
      ret {| quality := poor;
             confidence := 3 # 10;
             issues := quick_issues;
             should_retry := true;
             suggested_params := Some (_get_retry_params quick_issues) |}
    else
      catch
        (assessment <- call (prefix 2000 text) (backend (prefix 2000 text)) ;;
         if should_retry assessment && negb (truthy_params (suggested_params assessment))
         then ret {| quality := quality assessment;
                     confidence := confidence assessment;
                     issues := issues assessment;
                     should_retry := should_retry assessment;
                     suggested_params :=
                       Some (_get_retry_params (issues assessment)) |}
         else ret assessment)
        (fun _ =>
           ret {| quality :=
                    if Qgtb (Providers.confidence ocr_result) (7 # 10)
                    then good else poor;
                  confidence := Providers.confidence ocr_result;
                  issues := ["assessment_failed"];
                  should_retry := Qltb (Providers.confidence ocr_result) (5 # 10);
                  suggested_params := None |}).

End WithUnicode.

End OCRAgent.

(** ** [app/core/config.py] *)

Module Config.

(** The settings read by the extraction stage. *)
Record Settings : Type := {
  openai_model : string;
  ollama_model : string;
  parallel_llm_enabled : bool
}.

Definition default_settings : Settings :=
  {| openai_model := "gpt-4o-mini";
     ollama_model := "llama3.2";
     parallel_llm_enabled := true |}.

End Config.

(** ** [app/services/agents/extraction_agent.py] *)

Module Extraction.
Import Py Eff Text Models Config.

(** What [Agent(model_string, ...)] gives for a provider and a model: the
    backend behind [run_sync] (from the OCR text placed in the prompt to
    the structured output, [None] when the call raises), or [None] when
    the construction itself raises. *)
Definition agent_factory : Type :=
  string -> string -> option (str -> option InvoiceExtraction).

Module ExtractionAgent.

Record t : Type := {
  provider : string;
  model : string;
  _agent : str -> option InvoiceExtraction
}.

(** [ExtractionAgent(provider=..., model=...)] *)
Definition init (factory : agent_factory) (provider model : string) : option t :=
  match factory provider model with
  | Some backend =>
      Some {| provider := provider; model := model; _agent := backend |}
  | None => None
  end.

Definition source_name (self : t) : string :=
  provider self ++ ":" ++ model self.

Definition extract {U : Unicode} (self : t) (ocr_text : str)
    : option InvoiceExtraction :=
  if negb (nonempty (strip ocr_text))
  then Some {| general_fields := InvoiceGeneral_default; items := [] |}
  else _agent self ocr_text.

End ExtractionAgent.

Definition create_parallel_extractors {Ev : Type} (settings : Settings)
    (factory : agent_factory) : M Ev (list ExtractionAgent.t) :=
  match ExtractionAgent.init factory "openai" (openai_model settings) with
  | None => raise EngineError
  | Some openai =>
      if parallel_llm_enabled settings then
        match ExtractionAgent.init factory "ollama" (ollama_model settings) with
        | Some ollama => ret [openai; ollama]
        | None => ret [openai]
        end
      else ret [openai]
  end.

End Extraction.

(** ** [app/services/agents/decision_agent.py] *)

Module Decision.
Import Py Eff Text Models Validators Config Extraction.
Local Open Scope eff_scope.

(** [AgentDecision] of [app/core/models.py].  The model constrains
    [confidence] to [0, 1]; the arbiter builds decisions with confidence
    0.8 or a score, and scores lie in [0, 1] ([ScoreFacts.score_range],
    [ArbiterFacts.built_confidence]). *)
Record AgentDecision : Type := {
  selected_source : string;
  confidence : Q;
  reasoning : string;
  result : InvoiceExtraction
}.

(** The arguments substituted into [DECISION_USER_PROMPT]. *)
Record judge_prompt : Type := {
  source_a : string;
  result_a : InvoiceExtraction;
  source_b : string;
  result_b : InvoiceExtraction;
  ocr_text : str
}.

(** The order in which [as_completed] hands back the submitted futures:
    some rearrangement of them. *)
Record completion_order : Type := {
  order : forall A : Type, list A -> list A;
  order_perm : forall (A : Type) (l : list A), Permutation (order A l) l
}.

Definition in_submission_order : completion_order :=
  {| order := fun _ l => l;
     order_perm := fun _ l => Permutation_refl l |}.

Definition in_reverse_order : completion_order :=
  {| order := fun _ l => rev l;
     order_perm := fun _ l => Permutation_sym (Permutation_rev l) |}.

Definition candidate : Type := (string * InvoiceExtraction)%type.
Definition scored : Type := (string * InvoiceExtraction * Q)%type.

(** [lambda x: x[2]] *)
Definition score_of (x : scored) : Q := snd x.

Definition _calculate_score (extraction : InvoiceExtraction) : Q :=
  let score := 0 in
  (* Field completeness (30%) *)
  let general := general_fields extraction in
  let general_fields :=
    [ present (invoice_number general);
      present (date general);
      present (supplier_name general);
      present (total_amount general);
      present (currency general) ] in
  let completeness := of_nat (count_true general_fields) / 5 in
  let score := score + completeness * (3 # 10) in
  (* Items present (20%) *)
  let score :=
    match items extraction with
    | [] => score
    | _ :: _ =>
        let score := score + (2 # 10) in
        let item_completeness :=
          of_nat
            (list_sum
               (map (fun i => count_true [ present (product_name i);
                                           present (quantity i);
                                           present (unit_price i);
                                           present (total_price i) ])
                    (items extraction)))
          / of_nat (List.length (items extraction) * 4) in
        score + item_completeness * (1 # 10)
    end in
  (* Validation score (40%) *)
  let validations := validate_invoice extraction in
  let score :=
    if all_valid validations then score + (4 # 10)
    else
      let item_calcs := item_calculations validations in
      let score :=
        match item_calcs with
        | [] => score
        | _ :: _ =>
            let valid_items :=
              count_true (map (fun c => truthy (get_default "valid" VNone c))
                              item_calcs) in
            score + (of_nat valid_items / of_nat (List.length item_calcs)) * (2 # 10)
        end in
      if truthy (get_default "valid" VNone (tax_validation validations))
      then score + (2 # 10)
      else score in
  min score 1.

(** [[(s, e, self._calculate_score(e)) for s, e in results]], sorted by
    score, highest first. *)
Definition scored_results (results : list candidate) : list scored :=
  sort_desc score_of
    (map (fun r => (fst r, snd r, _calculate_score (snd r))) results).

Definition _select_best_heuristic {Ev : Type} (results : list candidate)
    : M Ev AgentDecision :=
  match scored_results results with
  | [] => raise IndexError
  | (best_source, best_extraction, best_score) :: rest =>
      let reasoning := "Selected based on quality score: " ++ format_2f best_score in
      let reasoning :=
        match rest with
        | (second_source, _, second_score) :: _ =>
            reasoning ++ " (vs " ++ second_source ++ ": "
                      ++ format_2f second_score ++ ")"
        | [] => reasoning
        end in
      ret {| selected_source := best_source;
             confidence := best_score;
             reasoning := reasoning;
             result := best_extraction |}
  end.

Section WithBackends.
Context {U : Unicode}.

(** The judge behind [self._comparison_agent.run_sync]: its structured
    output for a prompt, [None] when the call raises. *)
Variable judge : judge_prompt -> option AgentDecision.

Definition _run_parallel_extractions (completed : completion_order)
    (ocr_text : str) (extractors : list ExtractionAgent.t)
    : M judge_prompt (list candidate) :=
  match extractors with
  | [] => raise ValueError      (* a pool of zero workers *)
  | _ :: _ =>
      ret (flat_map
             (fun extractor =>
                match ExtractionAgent.extract extractor ocr_text with
                | Some extraction =>
                    [(ExtractionAgent.source_name extractor, extraction)]
                | None => []
                end)
             (order completed _ extractors))
  end.

Definition _select_best_llm (results : list candidate) (ocr_text : str)
    : M judge_prompt AgentDecision :=
  match results with
  | [] => raise IndexError
  | [(source, extraction)] =>
      ret {| selected_source := source;
             confidence := 8 # 10;
             reasoning := "Only one result available";
             result := extraction |}
  | (source_a, result_a) :: (source_b, result_b) :: _ =>
      let prompt :=
        {| source_a := source_a; result_a := result_a;
           source_b := source_b; result_b := result_b;
           ocr_text := prefix 1500 ocr_text |} in
      catch (call prompt (judge prompt))
            (fun _ => _select_best_heuristic results)
  end.

Definition decide (settings : Settings) (factory : agent_factory)
    (completed : completion_order) (ocr_text : str)
    : M judge_prompt AgentDecision :=
  extractors <- create_parallel_extractors settings factory ;;
  match extractors with
  | [extractor] =>
      match ExtractionAgent.extract extractor ocr_text with
      | None => raise EngineError
      | Some extraction =>
          ret {| selected_source := ExtractionAgent.source_name extractor;
                 confidence := _calculate_score extraction;
                 reasoning := "Single extractor mode";
                 result := extraction |}
      end
  | _ =>
      results <- _run_parallel_extractions completed ocr_text extractors ;;
      match results with
      | [] => raise (RuntimeError "All extraction attempts failed")
      | [(source, extraction)] =>
          ret {| selected_source := source;
                 confidence := _calculate_score extraction;
                 reasoning := "Only one extraction succeeded";
                 result := extraction |}
      | _ :: _ :: _ =>
          match scored_results results with
          | (_, best_score) :: (_, second_score) :: _ =>
              if Qltb (Qabs (best_score - second_score)) (15 # 100)
              then _select_best_llm results ocr_text
              else _select_best_heuristic results
          | _ => raise IndexError
          end
      end
  end.

End WithBackends.

End Decision.

(* ===================================================================== *)
(** * Part II: vocabulary of the specification, and sample data           *)
(* ===================================================================== *)

Module Vocabulary.
Import Py Models Validators.


(** A numeric field that is absent, or present and equal to zero. *)
Definition missing_or_zero (o : option Q) : Prop :=
  match o with
  | None => True
  | Some x => x == 0
  end.

(** A verdict that says [valid] and [skipped]. *)
Definition valid_and_skipped (v : verdict) : Prop :=
  get "valid" v = Some (VBool true) /\ get "skipped" v = Some (VBool true).


(** The subtotal of a candidate: the sum of the line totals present. *)
Definition subtotal (data : InvoiceExtraction) : Q :=
  sum (present_total_prices (items data)).



End Vocabulary.

(** The scoring rule of the arbiter, in the words of the specification. *)

Module Scoring.
Import Py Models Validators.

(** A verdict that says [valid]. *)
Definition says_valid (v : verdict) : bool :=
  match get "valid" v with
  | Some (VBool true) => true
  | _ => false
  end.

(** What a nullable field counts for: one when it is not null. *)
Definition slot {A : Type} (o : option A) : nat :=
  match o with
  | Some _ => 1
  | None => 0
  end.

(** The number of header fields, out of five, that are not null. *)
Definition header_fields_present (g : InvoiceGeneral) : nat :=
  slot (invoice_number g) + slot (date g)
  + slot (supplier_name g) + slot (total_amount g)
  + slot (currency g).

(** The number of slots of a line, out of four, that are not null. *)
Definition item_slots_present (i : InvoiceItem) : nat :=
  slot (product_name i) + slot (quantity i)
  + slot (unit_price i) + slot (total_price i).

Definition header_fraction (e : InvoiceExtraction) : Q :=
  of_nat (header_fields_present (general_fields e)) / 5.

Definition item_slot_fraction (e : InvoiceExtraction) : Q :=
  of_nat (list_sum (map item_slots_present (items e)))
  / of_nat (4 * List.length (items e)).

(** The number of lines whose verdict is valid. *)
Definition valid_item_count (e : InvoiceExtraction) : nat :=
  List.length (filter says_valid (item_calculations (validate_invoice e))).

Definition valid_item_fraction (e : InvoiceExtraction) : Q :=
  of_nat (valid_item_count e) / of_nat (List.length (items e)).

Definition completeness_part (e : InvoiceExtraction) : Q :=
  (3 # 10) * header_fraction e.

Definition items_part (e : InvoiceExtraction) : Q :=
  match items e with
  | [] => 0
  | _ :: _ => (2 # 10) + (1 # 10) * item_slot_fraction e
  end.

Definition validation_part (e : InvoiceExtraction) : Q :=
  if all_valid (validate_invoice e) then 4 # 10
  else (2 # 10) * valid_item_fraction e
       + (if says_valid (tax_validation (validate_invoice e)) then 2 # 10 else 0).


End Scoring.

Module Samples.
Import Py Models.

Definition line (q u t : option Q) : InvoiceItem :=
  {| product_name := Some "Test Product"; quantity := q; unit_price := u;
     total_price := t; description := None |}.

Definition header (total : option Q) : InvoiceGeneral :=
  {| invoice_number := None; date := None; supplier_name := None;
     total_amount := total; currency := None |}.

Definition invoice (total : option Q) (its : list InvoiceItem) : InvoiceExtraction :=
  {| general_fields := header total; items := its |}.

(** quantity 2, unit price 10, total 20 / 25 *)
Definition line_consistent : InvoiceItem := line (Some 2) (Some 10) (Some 20).
Definition line_inconsistent : InvoiceItem := line (Some 2) (Some 10) (Some 25).
(** quantity 0, unit price 10, total 5: all present, one of them zero *)
Definition line_zero_quantity : InvoiceItem := line (Some 0) (Some 10) (Some 5).

(** Items adding up to 100, against header totals 118, 100, 150 and 0. *)
Definition invoice_with_vat : InvoiceExtraction := invoice (Some 118) [line None None (Some 100)].
Definition invoice_without_vat : InvoiceExtraction := invoice (Some 100) [line None None (Some 100)].
Definition invoice_mismatch : InvoiceExtraction := invoice (Some 150) [line None None (Some 100)].
Definition invoice_zero_total : InvoiceExtraction := invoice (Some 0) [line None None (Some 100)].

End Samples.

(** The provider chain: what a run is expected to log and to keep. *)

Module ChainVocabulary.
Import Py Eff Text Providers.

(** The log entry of a call to provider [p]. *)
Definition invocation_of (image_path lang : string) (p : OCRProvider) : invocation :=
  {| invoked := name p; on_image := image_path; on_lang := lang |}.

(** The results of the providers of [ps] that succeed, in order. *)
Definition successes (image_path lang : string) (ps : list OCRProvider) : list OCRResult :=
  flat_map (fun p => match extract p image_path lang with
                     | Some r => [r]
                     | None => []
                     end) ps.

(** Provider [p] does not stop the chain: it fails, or succeeds below the
    threshold. *)
Definition passes_on (min_conf : Q) (image_path lang : string) (p : OCRProvider) : Prop :=
  forall r, extract p image_path lang = Some r -> confidence r < min_conf.

(** [r] is one of [rs] and no result of [rs] has a higher confidence. *)
Definition best_of (rs : list OCRResult) (r : OCRResult) : Prop :=
  In r rs /\ forall r', In r' rs -> confidence r' <= confidence r.

Definition all_providers_failed : exn := RuntimeError "All OCR providers failed".

End ChainVocabulary.

Module ChainSamples.
Import Py Eff Text Providers.

Definition scan (conf : Q) (by_provider : string) : OCRResult :=
  {| text := of_string "FATURA 2024 TOPLAM 118,00 TL"; confidence := conf;
     language := "en"; retry_count := 0; provider := by_provider |}.

(** The first engine is confident (0.9). *)
Definition engines_confident : engines :=
  {| paddleocr := fun _ _ => Some (scan (9 # 10) "paddleocr");
     easyocr := fun _ _ => Some (scan (95 # 100) "easyocr") |}.

(** The first engine fails, the second answers with confidence 0.4. *)
Definition engines_degraded : engines :=
  {| paddleocr := fun _ _ => None;
     easyocr := fun _ _ => Some (scan (4 # 10) "easyocr") |}.

(** Both engines answer below the threshold, the first one higher. *)
Definition engines_unsure : engines :=
  {| paddleocr := fun _ _ => Some (scan (45 # 100) "paddleocr");
     easyocr := fun _ _ => Some (scan (4 # 10) "easyocr") |}.

(** Both engines fail. *)
Definition engines_down : engines :=
  {| paddleocr := fun _ _ => None; easyocr := fun _ _ => None |}.

Definition chain (e : engines) : OCRProviderChain.t :=
  OCRProviderChain.init e OCRProviderChain.default_min_confidence.

End ChainSamples.

(** The quality gate: the heuristic issues in the words of the
    specification. *)

Module GateVocabulary.
Import Py Eff Text Providers OCRAgent.

Section WithUnicode.
Context {U : Unicode}.

(** The text is empty once stripped. *)
Definition blank (text : str) : Prop := strip text = [].

Definition too_short (text : str) : Prop := (List.length text < 50)%nat.


(** A character that is neither alphanumeric nor a space. *)
Definition special (c : N) : bool := negb (isalnum c || isspace c).

Definition special_ratio (text : str) : Q :=
  of_nat (List.length (filter special text)) / of_nat (List.length text).


(** The text gets through the heuristic pre-filter: it is not blank and
    fewer than two issues are found. *)
Definition passes_prefilter (text : str) : Prop :=
  ~ blank text /\ (List.length (quick_issues text) < 2)%nat.

End WithUnicode.



End GateVocabulary.

Module GateSamples.
Import Py Eff Text Providers OCRAgent.

Definition ocr (s : string) (conf : Q) : OCRResult :=
  {| text := of_string s; Providers.confidence := conf; language := "en";
     retry_count := 0; provider := "paddleocr" |}.

(** Ten characters, no digit, five of them special. *)
Definition garbled : OCRResult := ocr "abc!@#de$%" (6 # 10).


(** A readable invoice line of more than fifty characters. *)
Definition readable (conf : Q) : OCRResult :=
  ocr "FATURA NO 2024-001 TARIH 31.01.2024 TOPLAM 118,00 TL KDV 18" conf.

(** A model backend that is down, and one that must not be reached. *)
Definition backend_down : str -> option OCRQualityAssessment := fun _ => None.

Definition backend_says_good : str -> option OCRQualityAssessment :=
  fun _ => Some {| quality := good; confidence := 95 # 100; issues := [];
                   should_retry := false; suggested_params := None |}.

End GateSamples.

(** Arbitration: candidates, leaders and selections. *)

Module ArbiterVocabulary.
Import Py Eff Text Models Config Extraction Decision.

(** A candidate with its score. *)
Definition with_score (c : candidate) : scored :=
  (fst c, snd c, _calculate_score (snd c)).

(** A scored candidate without its score. *)
Definition unscored (x : scored) : candidate := fst x.

(** Scores from the highest to the lowest. *)
Definition descending (l : list scored) : Prop :=
  StronglySorted (fun x y => score_of y <= score_of x) l.



(** Decision [d] is the score-based selection of [x]. *)
Definition selects (d : AgentDecision) (x : scored) : Prop :=
  selected_source d = fst (fst x) /\ result d = snd (fst x)
  /\ confidence d = score_of x.

Section WithUnicode.
Context {U : Unicode}.

(** What one backend contributes to the results. *)
Definition contribution (ocr_text : str) (extractor : ExtractionAgent.t) : list candidate :=
  match ExtractionAgent.extract extractor ocr_text with
  | Some extraction => [(ExtractionAgent.source_name extractor, extraction)]
  | None => []
  end.

(** The candidates that the backends of a run produce, in the order in
    which the backends are configured. *)
Definition produced_by (extractors : list ExtractionAgent.t) (ocr_text : str)
    : list InvoiceExtraction :=
  flat_map (fun extractor =>
              match ExtractionAgent.extract extractor ocr_text with
              | Some extraction => [extraction]
              | None => []
              end) extractors.

Definition produced (settings : Settings) (factory : agent_factory) (ocr_text : str)
    : list InvoiceExtraction :=
  match value_of (create_parallel_extractors (Ev := judge_prompt) settings factory) with
  | Returned extractors => produced_by extractors ocr_text
  | Raised _ => []
  end.

(** The invariant of the data model, read on one run: a returned Decision
    carries one of the candidates produced in that run. *)
Definition decision_is_a_candidate (judge : judge_prompt -> option AgentDecision)
    (settings : Settings) (factory : agent_factory) (completed : completion_order)
    (ocr_text : str) : Prop :=
  forall d,
    value_of (decide judge settings factory completed ocr_text) = Returned d ->
    In (result d) (produced settings factory ocr_text).

End WithUnicode.

End ArbiterVocabulary.

Module ArbiterSamples.
Import Py Eff Text Models Config Extraction Decision Samples.

Definition receipt : str := of_string "FATURA 2024 TOPLAM 118,00 TL".

(** Three candidates: scores 0.71, 0.77 and 0.51. *)
Definition candidate_plain : InvoiceExtraction := invoice_with_vat.

Definition candidate_dated : InvoiceExtraction :=
  {| general_fields :=
       {| invoice_number := None; date := Some "2024-01-31"; supplier_name := None;
          total_amount := Some 118; currency := None |};
     items := [line None None (Some 100)] |}.

Definition candidate_off : InvoiceExtraction := invoice_mismatch.

(** Neither of the two: the header of one on the lines of another. *)
Definition hybrid : InvoiceExtraction :=
  {| general_fields := general_fields candidate_dated;
     items := [line (Some 1) (Some 100) (Some 100)] |}.

(** Backends answering [openai] and [ollama] respectively; [None] is a
    backend whose call raises. *)
Definition answering (openai ollama : option InvoiceExtraction) : agent_factory :=
  fun provider _ =>
    Some (fun _ => if (provider =? "openai")%string then openai else ollama).

(** Only the first backend can be constructed. *)
Definition without_ollama (openai : option InvoiceExtraction) : agent_factory :=
  fun provider _ =>
    if (provider =? "openai")%string then Some (fun _ => openai) else None.

Definition judge_down : judge_prompt -> option AgentDecision := fun _ => None.

Definition judge_prefers_b : judge_prompt -> option AgentDecision :=
  fun p => Some {| selected_source := source_b p; confidence := 85 # 100;
                   reasoning := "B is more complete"; result := result_b p |}.

Definition judge_blends : judge_prompt -> option AgentDecision :=
  fun p => Some {| selected_source := source_a p; confidence := 9 # 10;
                   reasoning := "merged the better parts"; result := hybrid |}.

(** Two runs of two backends: scores 0.71 and 0.77 (a close call), and
    scores 0.71 and 0.51 (a clear one). *)
Definition close_call : agent_factory :=
  answering (Some candidate_plain) (Some candidate_dated).

Definition clear_call : agent_factory :=
  answering (Some candidate_plain) (Some candidate_off).



Definition clear_results : list candidate :=
  [("openai:gpt-4o-mini", candidate_plain); ("ollama:llama3.2", candidate_off)].

Definition close_prompt : judge_prompt :=
  {| source_a := "openai:gpt-4o-mini"; result_a := candidate_plain;
     source_b := "ollama:llama3.2"; result_b := candidate_dated;
     ocr_text := prefix 1500 receipt |}.

(** The score-based selection in the close call. *)
Definition dated_on_score : AgentDecision :=
  {| selected_source := "ollama:llama3.2";
     confidence := _calculate_score candidate_dated;
     reasoning := "Selected based on quality score: 0.77 (vs openai:gpt-4o-mini: 0.71)";
     result := candidate_dated |}.

End ArbiterSamples.

(** More vocabulary for the arbiter. *)

Module ArbiterMoreVocabulary.
Import Py Eff Text Models Config Extraction Decision.

(** The decision built for a single candidate, in the two places where
    [decide] builds one. *)
Definition sole (why : string) (c : candidate) : AgentDecision :=
  {| selected_source := fst c;
     confidence := _calculate_score (snd c);
     reasoning := why;
     result := snd c |}.

(** [InvoiceExtraction(general_fields=InvoiceGeneral(), items=[])] *)
Definition nothing_extracted : InvoiceExtraction :=
  {| general_fields := InvoiceGeneral_default; items := [] |}.

(** The two backends of the close call. *)
Definition close_call_openai : ExtractionAgent.t :=
  {| ExtractionAgent.provider := "openai"; ExtractionAgent.model := "gpt-4o-mini";
     ExtractionAgent._agent := fun _ => Some ArbiterSamples.candidate_plain |}.

Definition close_call_ollama : ExtractionAgent.t :=
  {| ExtractionAgent.provider := "ollama"; ExtractionAgent.model := "llama3.2";
     ExtractionAgent._agent := fun _ => Some ArbiterSamples.candidate_dated |}.

(** What [decide] does with the results of two or more backends. *)
Definition arbitrate {U : Unicode} (judge : judge_prompt -> option AgentDecision)
    (results : list candidate) (ocr_text : str) : M judge_prompt AgentDecision :=
  match results with
  | [] => raise (RuntimeError "All extraction attempts failed")
  | [c] => ret (sole "Only one extraction succeeded" c)
  | _ :: _ :: _ =>
      match scored_results results with
      | (_, best_score) :: (_, second_score) :: _ =>
          if Qltb (Qabs (best_score - second_score)) (15 # 100)
          then _select_best_llm judge results ocr_text
          else _select_best_heuristic results
      | _ => raise IndexError
      end
  end.

End ArbiterMoreVocabulary.

(* ===================================================================== *)
(** * Part II (continued): retry, OCR service and metrics, as models      *)
(* ===================================================================== *)

(** ** Effects with the exceptions of the service layer *)

Module Sys.
Import Eff.

Inductive error : Type :=
| Inner (e : exn)                  (* raised by the code of Part I *)
| FileNotFoundError (msg : string)
| ValueErrorOf (msg : string)
| TypeError (msg : string)
| ValidationError.                 (* a model's field constraint is violated *)

Inductive result (A : Type) : Type :=
| Ok (a : A)
| Err (e : error).
Arguments Ok {A} a.
Arguments Err {A} e.

(** What a computation produced, and the events it caused, oldest first. *)
Definition R (Ev A : Type) : Type := (result A * list Ev)%type.

Definition ret {Ev A : Type} (a : A) : R Ev A := (Ok a, []).

Definition raise {Ev A : Type} (e : error) : R Ev A := (Err e, []).

Definition emit {Ev : Type} (ev : Ev) : R Ev unit := (Ok tt, [ev]).

Definition bind {Ev A B : Type} (c : R Ev A) (k : A -> R Ev B) : R Ev B :=
  match c with
  | (Ok a, t) => let (o, t') := k a in (o, (t ++ t')%list)
  | (Err e, t) => (Err e, t)
  end.

(** [try: c  except Exception: pass], telling whether [c] returned. *)
Definition attempt {Ev A : Type} (c : R Ev A) : R Ev (option A) :=
  match c with
  | (Ok a, t) => (Ok (Some a), t)
  | (Err _, t) => (Ok None, t)
  end.

(** [try: body  finally: cleanup] *)
Definition finally {Ev A : Type} (body : R Ev A) (cleanup : R Ev unit) : R Ev A :=
  match body, cleanup with
  | (o, t), (Ok _, t') => (o, (t ++ t')%list)
  | (_, t), (Err e, t') => (Err e, (t ++ t')%list)
  end.

(** A computation of Part I, its calls logged as events. *)
Definition of_M {Ev Ev' A : Type} (as_event : Ev -> Ev') (c : M Ev A) : R Ev' A :=
  (match fst c with
   | Returned a => Ok a
   | Raised e => Err (Inner e)
   end, map as_event (snd c)).

(** The events of a computation seen through [as_event]. *)
Definition relog {Ev Ev' A : Type} (as_event : Ev -> Ev') (c : R Ev A) : R Ev' A :=
  (fst c, map as_event (snd c)).

Definition value_of {Ev A : Type} (c : R Ev A) : result A := fst c.
Definition trace_of {Ev A : Type} (c : R Ev A) : list Ev := snd c.

Declare Scope sys_scope.
Delimit Scope sys_scope with sys.
Notation "x <- c ;; k" := (bind c (fun x => k))
  (at level 61, c at next level, right associativity) : sys_scope.

End Sys.

(** ** [app/core/retry.py] *)

Module Retry.
Import Py Sys.
Local Open Scope sys_scope.

(** What a retried call leaves behind: the events of the wrapped function,
    and the pauses between its attempts. *)
Inductive log (Ev : Type) : Type :=
| Did (ev : Ev)
| Slept (seconds : Q).
Arguments Did {Ev} ev.
Arguments Slept {Ev} seconds.

(** [time.sleep(seconds)] *)
Definition sleep {Ev : Type} (seconds : Q) : R (log Ev) unit :=
  if Qltb seconds 0
  then raise (ValueErrorOf "sleep length must be non-negative")
  else emit (Slept seconds).

Section WithFunction.
Context {Ev A : Type}.

(** [exceptions]: which errors the [except] clause matches. *)
Variable exceptions : error -> bool.

(** The call of the wrapped function at the attempt of a given number:
    the world may answer differently each time. *)
Variable func : nat -> R Ev A.

(** The [for attempt in range(1, max_attempts + 1)] loop of [sync_wrapper],
    with [todo] iterations left, followed by [raise last_exception]. *)
Fixpoint attempts (max_attempts : Z) (backoff : Q) (todo : nat) (attempt : nat)
    (current_delay : Q) (last_exception : option error) : R (log Ev) A :=
  match todo with
  | O =>
      raise (match last_exception with
             | Some e => e
             | None => TypeError "exceptions must derive from BaseException"
             end)
  | S todo' =>
      match relog Did (func attempt) with
      | (Ok a, t) => (Ok a, t)
      | (Err e, t) =>
          if exceptions e then
            if (Z.of_nat attempt <? max_attempts)%Z then
              let (o, t') :=
                _ <- sleep current_delay ;;
                attempts max_attempts backoff todo' (S attempt)
                         (current_delay * backoff) (Some e) in
              (o, (t ++ t')%list)
            else
              let (o, t') :=
                attempts max_attempts backoff todo' (S attempt) current_delay (Some e) in
              (o, (t ++ t')%list)
          else (Err e, t)
      end
  end.

(** [with_retry(max_attempts, delay, backoff, exceptions)(func)], called. *)
Definition with_retry (max_attempts : Z) (delay backoff : Q) : R (log Ev) A :=
  attempts max_attempts backoff (Z.to_nat max_attempts) 1 delay None.

End WithFunction.

(** [with_fallback(fallback_fn, exceptions)(func)], called. *)
Definition with_fallback {Ev A : Type} (fallback_fn : R Ev A)
    (exceptions : error -> bool) (func : R Ev A) : R Ev A :=
  match func with
  | (Ok a, t) => (Ok a, t)
  | (Err e, t) =>
      if exceptions e
      then let (o, t') := fallback_fn in (o, (t ++ t')%list)
      else (Err e, t)
  end.

(** [except Exception]: everything is matched. *)
Definition any_exception : error -> bool := fun _ => true.

(** The pauses before attempts 2, 3, ...: each is the previous one times
    [backoff]. *)
Fixpoint pauses (delay backoff : Q) (n : nat) : list Q :=
  match n with
  | O => []
  | S n' => delay :: pauses (delay * backoff) backoff n'
  end.

(** The pauses recorded in a log, and the events of the function. *)
Fixpoint slept {Ev : Type} (l : list (log Ev)) : list Q :=
  match l with
  | [] => []
  | Slept s :: l' => s :: slept l'
  | Did _ :: l' => slept l'
  end.

Fixpoint did {Ev : Type} (l : list (log Ev)) : list Ev :=
  match l with
  | [] => []
  | Did ev :: l' => ev :: did l'
  | Slept _ :: l' => did l'
  end.

(** The function fails, with an error that is retried, at each of the
    attempts [from], ..., [from + n - 1]. *)
Definition keeps_failing {Ev A : Type} (exceptions : error -> bool)
    (func : nat -> R Ev A) (from n : nat) : Prop :=
  forall j, (from <= j < from + n)%nat ->
            exists e, value_of (func j) = Err e /\ exceptions e = true.

(** The events of the attempts [from], ..., [from + n - 1], in order. *)
Fixpoint events_of_attempts {Ev A : Type} (func : nat -> R Ev A) (from n : nat) : list Ev :=
  match n with
  | O => []
  | S n' => (trace_of (func from) ++ events_of_attempts func (S from) n')%list
  end.

(** The log of [n] failed attempts from attempt [from] on, each followed
    by its pause. *)
Fixpoint retried {Ev A : Type} (func : nat -> R Ev A) (from n : nat)
    (delay backoff : Q) : list (log Ev) :=
  match n with
  | O => []
  | S n' =>
      (map Did (trace_of (func from)) ++ Slept delay
         :: retried func (S from) n' (delay * backoff) backoff)%list
  end.

(** The pause that follows [n] pauses. *)
Fixpoint delay_after (delay backoff : Q) (n : nat) : Q :=
  match n with
  | O => delay
  | S n' => delay_after (delay * backoff) backoff n'
  end.

End Retry.

Module RetrySamples.
Import Py Eff Sys Retry.

(** A function that fails twice and then answers, and one that never
    answers; each attempt leaves one event. *)
Definition flaky : nat -> R string Z :=
  fun attempt =>
    if (attempt <? 3)%nat then (Err (Inner EngineError), ["attempt"])
    else (Ok 42%Z, ["attempt"]).

Definition hopeless : nat -> R string Z :=
  fun _ => (Err (Inner EngineError), ["attempt"]).

End RetrySamples.

(** ** [app/services/ocr/providers.py], [extract_with_provider] *)

Module ProviderByName.
Import Py Eff Sys Text Providers ChainVocabulary.
Import OCRProviderChain.

(** [next((p for p in self.providers if p.name == provider_name), None)] *)
Definition lookup (self : t) (provider_name : string) : option OCRProvider :=
  find (fun p => (name p =? provider_name)%string) (providers self).

Definition extract_with_provider (self : t) (image_path provider_name lang : string)
    : R invocation OCRResult :=
  match lookup self provider_name with
  | None => raise (ValueErrorOf ("Unknown OCR provider: " ++ provider_name))
  | Some provider =>
      of_M (fun call => call)
           (call (invocation_of image_path lang provider)
                 (Providers.extract provider image_path lang))
  end.

End ProviderByName.

(** ** [app/services/ocr/service.py] *)

Module Service.
Import Py Eff Sys Text Providers Retry.
Import OCRProviderChain.
Local Open Scope sys_scope.

(** The settings read by the OCR service ([app/core/config.py]). *)
Record Settings : Type := {
  ocr_lang : string;
  min_confidence_threshold : Q
}.

Definition default_settings : Settings :=
  {| ocr_lang := "en"; min_confidence_threshold := 7 # 10 |}.

(** What the service finds outside of itself during one pass: which files
    exist; the temporary page images that [_convert_pdf_to_images] writes
    for a PDF ([None] when the conversion raises); and the OCR engines. *)
Record world : Type := {
  file_exists : string -> bool;
  pdf_to_images : string -> option (list string);
  ocr : engines
}.

(** What the service does to the outside: calls to OCR providers, and
    [os.unlink] of temporary images. *)
Inductive event : Type :=
| Ocr (call : invocation)
| Unlink (path : string).

(** [OCRResult(...)]: the model's constraint on [confidence] is checked. *)
Definition OCRResult_new {Ev : Type} (text : str) (confidence : Q)
    (language : string) (retry_count : Z) (provider : string) : R Ev OCRResult :=
  if Qle_bool 0 confidence && Qle_bool confidence 1
  then ret {| text := text; confidence := confidence; language := language;
              retry_count := retry_count; provider := provider |}
  else raise ValidationError.

(** [sep.join(parts)] *)
Fixpoint join (sep : str) (parts : list str) : str :=
  match parts with
  | [] => []
  | [part] => part
  | part :: rest => (part ++ sep ++ join sep rest)%list
  end.

(** The page separator: two line feeds, the marker, two line feeds. *)
Definition page_break : str :=
  ([10; 10] ++ of_string "--- Page Break ---" ++ [10; 10])%list%N.

Section WithPaths.

(** [Path(p).suffix.lower() == ".pdf"] and [str(Path(p))]: functions of the
    path alone, which belong to the interpreter's library. *)
Variable is_pdf_suffix : string -> bool.
Variable path_str : string -> string.

Variable settings : Settings.

(** [self.chain], over the engines of a world. *)
Definition chain (w : world) : OCRProviderChain.t :=
  OCRProviderChain.init (ocr w) (min_confidence_threshold settings).

(** [self.chain.extract(path, lang=lang)] *)
Definition chain_extract (w : world) (path lang : string) : R event OCRResult :=
  of_M Ocr (OCRProviderChain.extract (chain w) path lang).

Definition _is_pdf (file_path : string) : bool := is_pdf_suffix file_path.

(** The [for img_path in image_paths] loop around [self.chain.extract]:
    texts collected, confidences added up, last provider remembered. *)
Fixpoint ocr_pages (w : world) (lang : string) (image_paths : list string)
    (all_texts : list str) (total_confidence : Q) (provider_used : string)
    : R event (list str * Q * string) :=
  match image_paths with
  | [] => ret (all_texts, total_confidence, provider_used)
  | img_path :: rest =>
      result <- chain_extract w img_path lang ;;
      ocr_pages w lang rest (all_texts ++ [text result])%list
                (total_confidence + confidence result) (provider result)
  end.

(** The [finally] clause: every image is unlinked, an [OSError] being
    passed over. *)
Definition unlink_all (image_paths : list string) : R event unit :=
  (Ok tt, map Unlink image_paths).

Definition _extract_from_pdf (w : world) (pdf_path : string) : R event OCRResult :=
  match pdf_to_images w pdf_path with
  | None => raise (Inner EngineError)
  | Some image_paths =>
      match image_paths with
      | [] => OCRResult_new [] 0 "unknown" 0 "pdf"
      | _ :: _ =>
          scanned <- finally (ocr_pages w (ocr_lang settings) image_paths [] 0 "unknown")
                             (unlink_all image_paths) ;;
          let '(all_texts, total_confidence, provider_used) := scanned in
          let avg_confidence := total_confidence / of_nat (List.length image_paths) in
          OCRResult_new (join page_break all_texts) avg_confidence
                        (ocr_lang settings) 0 (provider_used ++ "+pdf")
      end
  end.

(** The body of [extract], before the retry decorator. *)
Definition extract_once (w : world) (image_path : string) : R event OCRResult :=
  if negb (file_exists w image_path)
  then raise (FileNotFoundError ("File not found: " ++ image_path))
  else if _is_pdf image_path then _extract_from_pdf w image_path
  else chain_extract w (path_str image_path) (ocr_lang settings).

(** [extract], decorated with [with_retry(max_attempts=3, delay=1.0,
    backoff=2.0)]; [worlds] is what each attempt finds. *)
Definition extract (worlds : nat -> world) (image_path : string)
    : R (log event) OCRResult :=
  with_retry any_exception (fun attempt => extract_once (worlds attempt) image_path)
             3 1 2.

(** The [try] block of [extract_with_fallback]: [Some r] when it returns
    [r], [None] when control reaches the final [return result]. *)
Definition second_pass (w : world) (result : OCRResult) (file_path : string)
    : R event (option OCRResult) :=
  if _is_pdf file_path then
    match pdf_to_images w file_path with
    | None => raise (Inner EngineError)
    | Some image_paths =>
        scanned <- finally (ocr_pages w "tr" image_paths [] 0 "unknown")
                           (unlink_all image_paths) ;;
        let '(all_texts, total_conf, _) := scanned in
        match image_paths with
        | [] => ret None
        | _ :: _ =>
            let avg_conf := total_conf / of_nat (List.length image_paths) in
            if Qgtb avg_conf (confidence result) then
              replaced <- OCRResult_new (join page_break all_texts) avg_conf "tr" 1
                                        (provider result) ;;
              ret (Some replaced)
            else ret None
        end
    end
  else
    tr_result <- chain_extract w file_path "tr" ;;
    if Qgtb (confidence tr_result) (confidence result) then
      ret (Some {| text := text tr_result; confidence := confidence tr_result;
                   language := language tr_result; retry_count := 1;
                   provider := provider tr_result |})
    else ret None.

(** [extract_with_fallback]; [later] is what the second pass finds. *)
Definition extract_with_fallback (worlds : nat -> world) (later : world)
    (file_path : string) : R (log event) OCRResult :=
  result <- extract worlds file_path ;;
  if Qgeb (confidence result) (min_confidence_threshold settings) then ret result
  else
    replaced <- attempt (relog Did (second_pass later result file_path)) ;;
    match replaced with
    | Some (Some better) => ret better
    | _ => ret result
    end.

(** [self.chain.extract_with_provider(path, provider_name, lang=lang)] *)
Definition chain_extract_with_provider (w : world) (path provider_name lang : string)
    : R event OCRResult :=
  relog Ocr (ProviderByName.extract_with_provider (chain w) path provider_name lang).

(** The loop of [extract_with_specific_provider] over the page images. *)
Fixpoint ocr_pages_with_provider (w : world) (provider_name lang : string)
    (image_paths : list string) (all_texts : list str) (total_conf : Q)
    : R event (list str * Q) :=
  match image_paths with
  | [] => ret (all_texts, total_conf)
  | img_path :: rest =>
      result <- chain_extract_with_provider w img_path provider_name lang ;;
      ocr_pages_with_provider w provider_name lang rest
                              (all_texts ++ [text result])%list
                              (total_conf + confidence result)
  end.

Definition extract_with_specific_provider (w : world)
    (file_path provider_name lang : string) : R event OCRResult :=
  if negb (file_exists w file_path)
  then raise (FileNotFoundError ("File not found: " ++ file_path))
  else if _is_pdf file_path then
    match pdf_to_images w file_path with
    | None => raise (Inner EngineError)
    | Some image_paths =>
        scanned <- finally (ocr_pages_with_provider w provider_name lang image_paths [] 0)
                           (unlink_all image_paths) ;;
        let '(all_texts, total_conf) := scanned in
        let avg_conf :=
          match image_paths with
          | [] => 0
          | _ :: _ => total_conf / of_nat (List.length image_paths)
          end in
        OCRResult_new (join page_break all_texts) avg_conf lang 0
                      (provider_name ++ "+pdf")
    end
  else chain_extract_with_provider w (path_str file_path) provider_name lang.

End WithPaths.

(** The OCR calls and the unlinked paths of a trace. *)
Fixpoint unlinked (l : list event) : list string :=
  match l with
  | [] => []
  | Unlink path :: l' => path :: unlinked l'
  | Ocr _ :: l' => unlinked l'
  end.

Definition is_ocr (ev : event) : bool :=
  match ev with
  | Ocr _ => true
  | Unlink _ => false
  end.

End Service.

Module ServiceSamples.
Import Py Eff Sys Text Providers Retry Service.

Definition page (words : string) (conf : Q) : OCRResult :=
  {| text := of_string words; confidence := conf; language := "en";
     retry_count := 0; provider := "paddleocr" |}.

(** Engines that read every image as [words], with confidence [conf]. *)
Definition reading (words : string) (conf : Q) : engines :=
  {| paddleocr := fun _ _ => Some (page words conf);
     easyocr := fun _ _ => None |}.

Definition is_pdf_name (path : string) : bool := (path =? "invoice.pdf")%string.

Definition as_given (path : string) : string := path.

(** A two-page PDF, read with confidence 0.9. *)
Definition two_pages : world :=
  {| file_exists := fun _ => true;
     pdf_to_images := fun _ => Some ["/tmp/a_page_0.png"; "/tmp/b_page_1.png"];
     ocr := reading "FATURA" (9 # 10) |}.

(** An image read with confidence 0.4 at first, and 0.6 at the second
    pass. *)
Definition dim : world :=
  {| file_exists := fun _ => true;
     pdf_to_images := fun _ => None;
     ocr := reading "FATURA" (4 # 10) |}.

Definition brighter : world :=
  {| file_exists := fun _ => true;
     pdf_to_images := fun _ => None;
     ocr := reading "FATURA" (6 # 10) |}.

(** A PDF without pages. *)
Definition no_pages : world :=
  {| file_exists := fun _ => true;
     pdf_to_images := fun _ => Some [];
     ocr := reading "FATURA" (9 # 10) |}.

(** Nothing there. *)
Definition nowhere : world :=
  {| file_exists := fun _ => false;
     pdf_to_images := fun _ => None;
     ocr := reading "" 0 |}.

End ServiceSamples.

(** ** [app/core/metrics.py] *)

Module Metrics.
Import Py Sys.

(** Times are seconds on the clock; [duration_ms] is in milliseconds. *)
Record StepMetrics : Type := {
  name : string;
  started_at : Q;
  duration_ms : option Q;
  status : string;
  confidence : option Q;
  provider : option string;
  error : option string
}.

(** [StepMetrics(name=..., started_at=...)], the other fields at their
    defaults. *)
Definition StepMetrics_new (name : string) (started_at : Q) : StepMetrics :=
  {| name := name; started_at := started_at; duration_ms := None;
     status := "running"; confidence := None; provider := None; error := None |}.

(** [(datetime.now() - self.started_at).total_seconds() * 1000], [now]
    being what the clock shows. *)
Definition elapsed_ms (self : StepMetrics) (now : Q) : Q :=
  (now - started_at self) * 1000.

Definition complete (self : StepMetrics) (confidence : option Q) (now : Q) : StepMetrics :=
  {| name := name self; started_at := started_at self;
     duration_ms := Some (elapsed_ms self now); status := "completed";
     confidence := confidence; provider := provider self; error := error self |}.

Definition fail (self : StepMetrics) (error : string) (now : Q) : StepMetrics :=
  {| name := name self; started_at := started_at self;
     duration_ms := Some (elapsed_ms self now); status := "failed";
     confidence := confidence self; provider := provider self; error := Some error |}.

(** [round(x, 3)] *)
Definition round3 (x : Q) : Q :=
  Qred (inject_Z (round_half_even (x * 1000)) / 1000).

(** [bool(s)] for an [Optional[str]]. *)
Definition truthy_opt_str (o : option string) : bool :=
  match o with
  | None => false
  | Some s => negb (s =? EmptyString)%string
  end.

Definition to_dict (self : StepMetrics) : dict value :=
  let result := [("name", VStr (name self)); ("status", VStr (status self))] in
  let result :=
    match duration_ms self with
    | Some d => if truthyQ d then set "duration_ms" (VFloat (round2 d)) result else result
    | None => result
    end in
  let result :=
    match confidence self with
    | Some c => if truthyQ c then set "confidence" (VFloat (round3 c)) result else result
    | None => result
    end in
  let result :=
    match provider self with
    | Some p => if truthy_opt_str (Some p) then set "provider" (VStr p) result else result
    | None => result
    end in
  let result :=
    match error self with
    | Some e => if truthy_opt_str (Some e) then set "error" (VStr e) result else result
    | None => result
    end in
  result.

Record PipelineContext : Type := {
  pipeline_id : string;
  pipeline_started_at : Q;
  steps : list StepMetrics
}.

(** What [get_summary] returns: a dictionary with these three keys. *)
Record summary : Type := {
  summary_pipeline_id : string;
  total_duration_ms : Q;
  summary_steps : list (dict value)
}.

(** [s.duration_ms or 0] *)
Definition duration_or_0 (s : StepMetrics) : Q :=
  match duration_ms s with
  | Some d => if truthyQ d then d else 0
  | None => 0
  end.

Definition get_summary (self : PipelineContext) : summary :=
  let total := Py.sum (map duration_or_0 (steps self)) in
  {| summary_pipeline_id := pipeline_id self;
     total_duration_ms := round2 total;
     summary_steps := map to_dict (steps self) |}.

(** What formatting [None] with [:.0f] raises. *)
Definition format_of_None : Sys.error :=
  TypeError "unsupported format string passed to NoneType.__format__".

Section WithClock.

(** [str(e)], of the interpreter. *)
Variable str_of : Sys.error -> string.

(** What the clock shows when [track] reads it: on entry, then on exit. *)
Variable now : nat -> Q.

(** [with self.track(step_name) as step: body]. The body receives the
    step, which is also the last element of [self.steps], and leaves it as
    it is when the body returns or raises; the log line at the end formats
    [step.duration_ms]. *)
Definition track {A : Type} (self : PipelineContext) (step_name : string)
    (body : StepMetrics -> result A * StepMetrics) : result A * PipelineContext :=
  let step := StepMetrics_new step_name (now 0) in
  let '(outcome, step) := body step in
  let '(outcome, step) :=
    match outcome with
    | Ok a =>
        let step :=
          if (status step =? "running")%string then complete step None (now 1) else step in
        match duration_ms step with
        | Some _ => (Ok a, step)
        | None => (Err format_of_None, fail step (str_of format_of_None) (now 1))
        end
    | Err e => (Err e, fail step (str_of e) (now 1))
    end in
  (outcome,
   {| pipeline_id := pipeline_id self;
      pipeline_started_at := pipeline_started_at self;
      steps := (steps self ++ [step])%list |}).

End WithClock.

End Metrics.

Module MetricsSamples.
Import Py Sys Metrics.

(** The body of the OCR step of the worker: it stores the provider and the
    confidence of the OCR result in the step. *)
Definition stores (used : string) (conf : Q) : StepMetrics -> result unit * StepMetrics :=
  fun step =>
    (Ok tt,
     {| name := name step; started_at := started_at step;
        duration_ms := duration_ms step; status := status step;
        confidence := Some conf; provider := Some used; error := error step |}).

(** A body that raises at once. *)
Definition breaks : StepMetrics -> result unit * StepMetrics :=
  fun step => (Err (ValueErrorOf "No extractors available"), step).

Definition message (e : Sys.error) : string :=
  match e with
  | ValueErrorOf msg | TypeError msg | FileNotFoundError msg => msg
  | _ => "error"
  end.

(** A clock that is read at second 10, then at second 12. *)
Definition clock (n : nat) : Q := 10 + 2 * of_nat n.

Definition fresh : PipelineContext :=
  {| pipeline_id := "1f0c2d3a"; pipeline_started_at := 10; steps := [] |}.

End MetricsSamples.

(** ** [app/main.py]: the files of the data directory *)

Module Main.
Import Py Sys.

(** The file system, as far as the handlers see it: which paths exist. *)
Definition files : Type := string -> bool.

(** [path.write_bytes(content)] and [path.unlink()] *)
Definition write_bytes (path : string) (fs : files) : files :=
  fun p => if (p =? path)%string then true else fs p.

Definition unlink (path : string) (fs : files) : files :=
  fun p => if (p =? path)%string then false else fs p.

Inductive response : Type :=
| JSONResponse (content : dict value)
| HTTPException (status_code : Z) (detail : string)
| Unhandled.                       (* an exception that no handler catches *)

Record UploadFile : Type := {
  filename : option string;
  content_type : option string
}.

Definition allowed_types : list string :=
  ["image/jpeg"; "image/png"; "image/webp"; "image/tiff"; "application/pdf"].

(** The extensions that [delete_invoice] tries, in this order. *)
Definition deletable : list string :=
  [".jpg"; ".jpeg"; ".png"; ".webp"; ".tiff"; ".bin"].

(** [x in xs] for strings. *)
Definition mem (x : string) (xs : list string) : bool :=
  existsb (fun y => (x =? y)%string) xs.

(** [s or default] for an [Optional[str]] and for a [str]. *)
Definition or_else (o : option string) (default : string) : string :=
  match o with
  | Some (String c s) => String c s
  | _ => default
  end.

Section WithDataDir.

Variable data_dir : string.

(** [Path(name).suffix], of the interpreter's library. *)
Variable suffix : string -> string.

(** [', '.join(allowed_types)]: the order in which a set is listed is the
    interpreter's. *)
Variable allowed_listing : string.

(** [extract_invoice_task.delay(path)]: the id of the queued task, [None]
    when the broker cannot be reached. *)
Variable delay : string -> option string.

(** [DATA_DIR / name] *)
Definition in_data_dir (file_name : string) : string :=
  data_dir ++ "/" ++ file_name.

Definition stored_extension (file : UploadFile) : string :=
  or_else (Some (suffix (or_else (filename file) EmptyString))) ".bin".

(** [create_invoice]; [job_id] is [str(uuid4())]. *)
Definition create_invoice (file : UploadFile) (job_id : string) (fs : files)
    : response * files :=
  let rejected :=
    match content_type file with
    | Some (String c t) => negb (mem (String c t) allowed_types)
    | _ => false
    end in
  if rejected then
    (HTTPException 400 ("Invalid file type. Allowed: " ++ allowed_listing), fs)
  else
    let extension := stored_extension file in
    let file_path := in_data_dir (job_id ++ extension) in
    let fs := write_bytes file_path fs in
    match delay file_path with
    | None => (Unhandled, fs)
    | Some task_id =>
        (JSONResponse [("job_id", VStr job_id); ("task_id", VStr task_id);
                       ("message", VStr "Invoice queued for processing")], fs)
    end.

(** The [for ext in [...]] loop of [delete_invoice], and what follows it. *)
Fixpoint delete_from (job_id : string) (exts : list string) (fs : files)
    : response * files :=
  match exts with
  | [] => (HTTPException 404 "Invoice not found", fs)
  | ext :: rest =>
      let file_path := in_data_dir (job_id ++ ext) in
      if fs file_path then
        (JSONResponse [("status", VStr "deleted"); ("job_id", VStr job_id)],
         unlink file_path fs)
      else delete_from job_id rest fs
  end.

Definition delete_invoice (job_id : string) (fs : files) : response * files :=
  delete_from job_id deletable fs.

End WithDataDir.

(** No file of the job with an extension that [delete_invoice] tries. *)
Definition fresh (data_dir job_id : string) (fs : files) : Prop :=
  forall ext, In ext deletable -> fs (in_data_dir data_dir (job_id ++ ext)) = false.

(** The upload passes the check of the content type. *)
Definition accepted (file : UploadFile) : Prop :=
  match content_type file with
  | Some (String c t) => In (String c t) allowed_types
  | _ => True
  end.

End Main.

Module MainSamples.
Import Py Sys Main.

(** The last dot of a name and what follows it; enough for the samples. *)
Fixpoint after_last_dot (s : string) : string :=
  match s with
  | EmptyString => EmptyString
  | String c s' =>
      match after_last_dot s' with
      | EmptyString => if Ascii.eqb c (Ascii.ascii_of_nat 46) then s else EmptyString
      | found => found
      end
  end.

Definition scan : UploadFile :=
  {| filename := Some "scan.png"; content_type := Some "image/png" |}.

Definition document : UploadFile :=
  {| filename := Some "invoice.pdf"; content_type := Some "application/pdf" |}.

Definition listing : string :=
  "image/jpeg, image/png, image/webp, image/tiff, application/pdf".

Definition queue (path : string) : option string := Some ("task-for-" ++ path).

Definition empty_disk : files := fun _ => false.

End MainSamples.

(* ===================================================================== *)
(** * Part III: properties                                                *)
(* ===================================================================== *)

(** ** Python built-ins *)

Module PyFacts.
Import Py.

Lemma Qltb_true (x y : Q) : Qltb x y = true <-> x < y.
Proof.
  unfold Qltb. rewrite negb_true_iff, <- not_true_iff_false, Qle_bool_iff.
  split; [apply Qnot_le_lt | apply Qlt_not_le].
Qed.

Lemma Qltb_false (x y : Q) : Qltb x y = false <-> y <= x.
Proof.
  unfold Qltb. rewrite negb_false_iff. apply Qle_bool_iff.
Qed.

Lemma Qgtb_true (x y : Q) : Qgtb x y = true <-> y < x.
Proof. apply Qltb_true. Qed.

Lemma Qgeb_true (x y : Q) : Qgeb x y = true <-> y <= x.
Proof. apply Qle_bool_iff. Qed.

Lemma truthyQ_false (x : Q) : truthyQ x = false <-> x == 0.
Proof.
  unfold truthyQ. rewrite negb_false_iff. apply Qeq_bool_iff.
Qed.

Lemma truthyQ_true (x : Q) : truthyQ x = true <-> ~ x == 0.
Proof.
  rewrite <- truthyQ_false. destruct (truthyQ x); intuition congruence.
Qed.

Lemma min_le_r (a b : Q) : min a b <= b.
Proof.
  unfold min. destruct (Qltb b a) eqn:E.
  - apply Qle_refl.
  - now apply Qltb_false.
Qed.

Lemma min_ge (a b c : Q) : c <= a -> c <= b -> c <= min a b.
Proof. unfold min. now destruct (Qltb b a). Qed.


End PyFacts.

(** ** The validation engine *)

Module ValidatorFacts.
Import Py Models Validators Vocabulary Samples PyFacts.

Lemma truthy_opt_false (o : option Q) : truthy_opt o = false <-> missing_or_zero o.
Proof.
  destruct o as [x|]; simpl; [apply truthyQ_false | tauto].
Qed.

Lemma truthy_opt_true (o : option Q) :
  truthy_opt o = true <-> exists x, o = Some x /\ ~ x == 0.
Proof.
  destruct o as [x|]; simpl.
  - rewrite truthyQ_true. split; [eauto | intros (y & [= <-] & H); exact H].
  - split; [discriminate | intros (y & [=] & _)].
Qed.

(** The guard of [validate_item_calculation] fires exactly when one of
    the three numbers is absent or zero. *)
Lemma item_guard (item : InvoiceItem) :
  all [truthy_opt (quantity item); truthy_opt (unit_price item);
       truthy_opt (total_price item)] = false
  <-> missing_or_zero (quantity item) \/ missing_or_zero (unit_price item)
      \/ missing_or_zero (total_price item).
Proof.
  rewrite <- !truthy_opt_false. unfold all. simpl.
  destruct (truthy_opt (quantity item)), (truthy_opt (unit_price item)),
    (truthy_opt (total_price item)); simpl; intuition congruence.
Qed.

(** Every line is of one of two kinds. *)
Lemma item_cases (item : InvoiceItem) :
  (missing_or_zero (quantity item) \/ missing_or_zero (unit_price item)
     \/ missing_or_zero (total_price item))
  \/
  (exists q u t,
      quantity item = Some q /\ unit_price item = Some u /\ total_price item = Some t
      /\ ~ q == 0 /\ ~ u == 0 /\ ~ t == 0).
Proof.
  destruct (truthy_opt (quantity item)) eqn:Eq;
    [| left; left; now apply truthy_opt_false].
  destruct (truthy_opt (unit_price item)) eqn:Eu;
    [| left; right; left; now apply truthy_opt_false].
  destruct (truthy_opt (total_price item)) eqn:Et;
    [| left; right; right; now apply truthy_opt_false].
  apply truthy_opt_true in Eq, Eu, Et.
  destruct Eq as (q & Hq & Nq), Eu as (u & Hu & Nu), Et as (t & Ht & Nt).
  right. exists q, u, t. tauto.
Qed.

Lemma item_skipped (item : InvoiceItem) (index : Z) :
  missing_or_zero (quantity item) \/ missing_or_zero (unit_price item)
    \/ missing_or_zero (total_price item) ->
  validate_item_calculation item index =
    [ ("item_index", VInt index);
      ("product", of_opt_str (product_name item));
      ("valid", VBool true);
      ("skipped", VBool true);
      ("reason", VStr "Missing required fields for calculation") ].
Proof.
  intros H. apply item_guard in H. unfold validate_item_calculation.
  now rewrite H.
Qed.

Lemma item_checked (item : InvoiceItem) (index : Z) (q u t : Q) :
  quantity item = Some q -> unit_price item = Some u -> total_price item = Some t ->
  ~ q == 0 -> ~ u == 0 -> ~ t == 0 ->
  validate_item_calculation item index =
    [ ("item_index", VInt index);
      ("product", of_opt_str (product_name item));
      ("expected", VFloat (round2 (q * u)));
      ("actual", VFloat (round2 t));
      ("valid", VBool (Qltb (Qabs (round2 (q * u) - round2 t)) (1 # 100))) ].
Proof.
  intros Hq Hu Ht Nq Nu Nt. unfold validate_item_calculation.
  rewrite Hq, Hu, Ht. simpl.
  apply truthyQ_true in Nq, Nu, Nt. now rewrite Nq, Nu, Nt.
Qed.

(** The guard of [validate_tax]. *)
Lemma tax_skipped (data : InvoiceExtraction) (rate : Q) :
  subtotal data <= 0 \/ missing_or_zero (total_amount (general_fields data)) ->
  validate_tax data rate =
    [ ("valid", VBool true);
      ("skipped", VBool true);
      ("reason", VStr "Insufficient data for tax validation") ].
Proof.
  intros H. unfold validate_tax. fold (subtotal data).
  assert (G : Qle_bool (subtotal data) 0
              || negb (truthy_opt (total_amount (general_fields data))) = true).
  { apply orb_true_iff. destruct H as [H|H].
    - left. now apply Qle_bool_iff.
    - right. apply negb_true_iff. now apply truthy_opt_false. }
  now rewrite G.
Qed.

Lemma tax_checked (data : InvoiceExtraction) (rate total : Q) :
  0 < subtotal data -> total_amount (general_fields data) = Some total ->
  ~ total == 0 ->
  validate_tax data rate =
    let expected_with_tax := round2 (subtotal data * (1 + rate)) in
    if Qltb (Qabs (expected_with_tax - total)) 1 then
      [ ("items_subtotal", VFloat (subtotal data));
        ("expected_with_tax", VFloat expected_with_tax);
        ("actual_total", VFloat total);
        ("tax_rate", VFloat rate);
        ("vat_applied", VBool true);
        ("valid", VBool true) ]
    else if Qltb (Qabs (subtotal data - total)) 1 then
      [ ("items_subtotal", VFloat (subtotal data));
        ("actual_total", VFloat total);
        ("vat_applied", VBool false);
        ("valid", VBool true) ]
    else
      [ ("items_subtotal", VFloat (subtotal data));
        ("expected_with_tax", VFloat expected_with_tax);
        ("actual_total", VFloat total);
        ("tax_rate", VFloat rate);
        ("valid", VBool false);
        ("error", VStr "Total does not match items subtotal with or without tax") ].
Proof.
  intros Hs Ht Nt. unfold validate_tax. fold (subtotal data). rewrite Ht.
  assert (G : Qle_bool (subtotal data) 0 || negb (truthy_opt (Some total)) = false).
  { apply orb_false_iff. split.
    - apply not_true_iff_false. rewrite Qle_bool_iff. now apply Qlt_not_le.
    - apply negb_false_iff. simpl. now apply truthyQ_true. }
  now rewrite G.
Qed.




(** The two item examples of the specification. *)
Example item_2_10_20 :
  get "valid" (validate_item_calculation line_consistent 0) = Some (VBool true).
Proof. reflexivity. Qed.

Example item_2_10_25 :
  validate_item_calculation line_inconsistent 0 =
    [ ("item_index", VInt 0); ("product", VStr "Test Product");
      ("expected", VFloat 20); ("actual", VFloat 25); ("valid", VBool false) ].
Proof. reflexivity. Qed.




(** The three tax examples of the specification. *)
Example tax_100_118 :
  validate_tax invoice_with_vat (18 # 100) =
    [ ("items_subtotal", VFloat 100); ("expected_with_tax", VFloat 118);
      ("actual_total", VFloat 118); ("tax_rate", VFloat (18 # 100));
      ("vat_applied", VBool true); ("valid", VBool true) ].
Proof. reflexivity. Qed.

Example tax_100_100 :
  validate_tax invoice_without_vat (18 # 100) =
    [ ("items_subtotal", VFloat 100); ("actual_total", VFloat 100);
      ("vat_applied", VBool false); ("valid", VBool true) ].
Proof. reflexivity. Qed.

Example tax_100_150 :
  get "valid" (validate_tax invoice_mismatch (18 # 100)) = Some (VBool false).
Proof. reflexivity. Qed.

(** C10: a zero counts as a missing value.  A line whose quantity, unit
    price or line total is zero gets a valid and skipped verdict,
    whatever the other fields are; a candidate whose header total is zero
    gets a valid and skipped tax verdict. *)
Theorem zero_counts_as_missing :
  (forall (item : InvoiceItem) (index : Z) (x : Q),
      x == 0 ->
      quantity item = Some x \/ unit_price item = Some x \/ total_price item = Some x ->
      valid_and_skipped (validate_item_calculation item index))
  /\
  (forall (data : InvoiceExtraction) (rate x : Q),
      x == 0 ->
      total_amount (general_fields data) = Some x ->
      valid_and_skipped (validate_tax data rate)).
Proof.
  split.
  - intros item index x Hx H.
    rewrite (item_skipped item index); [split; reflexivity|].
    destruct H as [H | [H | H]]; rewrite H; simpl; tauto.
  - intros data rate x Hx H.
    rewrite (tax_skipped data rate); [split; reflexivity|].
    right. rewrite H. exact Hx.
Qed.

(** [zero_counts_as_missing] on a line with quantity 0 (and unit price 10,
    total 5), and on lines adding up to 100 under a header total of 0. *)
Lemma zero_counts_as_missing_witness :
  valid_and_skipped (validate_item_calculation line_zero_quantity 0)
  /\ valid_and_skipped (validate_tax invoice_zero_total (18 # 100)).
Proof.
  destruct zero_counts_as_missing as [Hitem Htax]. split.
  - apply (Hitem line_zero_quantity 0%Z 0); [reflexivity | left; reflexivity].
  - apply (Htax invoice_zero_total (18 # 100) 0); reflexivity.
Defined.

End ValidatorFacts.

(** ** The arbiter's score *)

Module ScoreFacts.
Import Py Models Validators Vocabulary Scoring Samples PyFacts ValidatorFacts.
Import Decision.

Lemma of_nat_nonneg (n : nat) : 0 <= of_nat n.
Proof.
  unfold of_nat. change 0 with (inject_Z 0). rewrite <- Zle_Qle. lia.
Qed.

Lemma Qdiv_nonneg (a b : Q) : 0 <= a -> 0 <= b -> 0 <= a / b.
Proof.
  intros Ha Hb. unfold Qdiv. apply Qmult_le_0_compat; [exact Ha|].
  now apply Qinv_le_0_compat.
Qed.


Lemma count_true_map_filter {A : Type} (f : A -> bool) (l : list A) :
  count_true (map f l) = List.length (filter f l).
Proof.
  unfold count_true. induction l as [|x l IH]; simpl; [reflexivity|].
  destruct (f x); simpl; now rewrite IH.
Qed.

Lemma all_map_ext {A : Type} (f g : A -> bool) (l : list A) :
  (forall x, In x l -> f x = g x) -> all (map f l) = forallb g l.
Proof.
  unfold all. induction l as [|x l IH]; intros H; simpl; [reflexivity|].
  rewrite (H x (or_introl eq_refl)), IH; [reflexivity|].
  intros y Hy. apply H. now right.
Qed.

Lemma header_count (g : InvoiceGeneral) :
  count_true [ present (invoice_number g); present (date g);
               present (supplier_name g); present (total_amount g);
               present (currency g) ]
  = header_fields_present g.
Proof.
  unfold header_fields_present.
  now destruct (invoice_number g), (date g), (supplier_name g),
    (total_amount g), (currency g).
Qed.

Lemma item_count (i : InvoiceItem) :
  count_true [ present (product_name i); present (quantity i);
               present (unit_price i); present (total_price i) ]
  = item_slots_present i.
Proof.
  unfold item_slots_present.
  now destruct (product_name i), (quantity i), (unit_price i), (total_price i).
Qed.

(** Every verdict of the validation engine carries a boolean [valid]. *)
Lemma item_valid_flag (item : InvoiceItem) (index : Z) :
  exists b, get "valid" (validate_item_calculation item index) = Some (VBool b).
Proof.
  destruct (item_cases item) as [H | (q & u & t & Hq & Hu & Ht & Nq & Nu & Nt)].
  - rewrite (item_skipped item index H). now exists true.
  - rewrite (item_checked item index q u t Hq Hu Ht Nq Nu Nt). eexists. reflexivity.
Qed.

Lemma tax_cases (data : InvoiceExtraction) :
  (subtotal data <= 0 \/ missing_or_zero (total_amount (general_fields data)))
  \/ (0 < subtotal data
      /\ exists total, total_amount (general_fields data) = Some total /\ ~ total == 0).
Proof.
  destruct (Qlt_le_dec 0 (subtotal data)) as [L | G]; [|left; now left].
  destruct (truthy_opt (total_amount (general_fields data))) eqn:E.
  - right. split; [exact L | now apply truthy_opt_true].
  - left. right. now apply truthy_opt_false.
Qed.

Lemma tax_valid_flag (data : InvoiceExtraction) (rate : Q) :
  exists b, get "valid" (validate_tax data rate) = Some (VBool b).
Proof.
  destruct (tax_cases data) as [H | (Hs & total & Ht & Nt)].
  - rewrite (tax_skipped data rate H). now exists true.
  - rewrite (tax_checked data rate total Hs Ht Nt). cbv zeta.
    destruct (Qltb _ 1); [now exists true|].
    destruct (Qltb _ 1); [now exists true | now exists false].
Qed.

(** On such verdicts the three ways in which the code reads the flag
    ([v.get("valid", True)], [v.get("valid")], and the specification's
    "is valid") agree. *)
Lemma flag_readings (v : verdict) :
  (exists b, get "valid" v = Some (VBool b)) ->
  truthy (get_default "valid" VNone v) = says_valid v
  /\ truthy (get_default "valid" (VBool true) v) = says_valid v.
Proof.
  intros [b Hb]. unfold get_default, says_valid. rewrite Hb. now destruct b.
Qed.

Lemma item_calculations_flags (e : InvoiceExtraction) (v : verdict) :
  In v (item_calculations (validate_invoice e)) ->
  exists b, get "valid" v = Some (VBool b).
Proof.
  simpl. rewrite in_map_iff. intros ([i item] & <- & _). apply item_valid_flag.
Qed.

Lemma enumerate_from_length {A : Type} (l : list A) (i : nat) :
  List.length (enumerate_from i l) = List.length l.
Proof.
  revert i. induction l as [|x l IH]; intros i; simpl; [reflexivity|].
  now rewrite IH.
Qed.

Lemma item_calculations_length (e : InvoiceExtraction) :
  List.length (item_calculations (validate_invoice e)) = List.length (items e).
Proof.
  simpl. rewrite length_map. apply enumerate_from_length.
Qed.

Lemma valid_items_counted (e : InvoiceExtraction) :
  count_true (map (fun c => truthy (get_default "valid" VNone c))
                  (item_calculations (validate_invoice e)))
  = valid_item_count e.
Proof.
  unfold valid_item_count. rewrite <- count_true_map_filter. f_equal.
  apply map_ext_in. intros v Hv.
  now apply flag_readings, (item_calculations_flags e).
Qed.

(** Overall validity is the conjunction of all the verdicts. *)
Lemma all_valid_spec (e : InvoiceExtraction) :
  all_valid (validate_invoice e)
  = forallb says_valid (item_calculations (validate_invoice e))
    && says_valid (tax_validation (validate_invoice e)).
Proof.
  change (all_valid (validate_invoice e)) with
    (all (map (fun v => truthy (get_default "valid" (VBool true) v))
              (item_calculations (validate_invoice e)))
     && truthy (get_default "valid" (VBool true) (tax_validation (validate_invoice e)))).
  f_equal.
  - apply all_map_ext.
    intros v Hv. now apply flag_readings, (item_calculations_flags e).
  - apply flag_readings, tax_valid_flag.
Qed.

(** A candidate without lines is always overall valid: the branch of
    [_calculate_score] that divides by the number of verdicts is never
    taken on an empty list. *)
Lemma no_items_all_valid (e : InvoiceExtraction) :
  items e = [] -> all_valid (validate_invoice e) = true.
Proof.
  intros H. unfold validate_invoice, validate_tax. rewrite H. reflexivity.
Qed.

(** The score before the cap, as the code accumulates it, is the sum of
    the three parts of the specification. *)
Lemma score_parts (e : InvoiceExtraction) :
  exists raw : Q,
    _calculate_score e = min raw 1
    /\ raw == completeness_part e + items_part e + validation_part e.
Proof.
  eexists. split; [reflexivity|]. cbv zeta.
  rewrite header_count, valid_items_counted, item_calculations_length.
  rewrite (map_ext _ _ item_count), (Nat.mul_comm _ 4).
  rewrite (proj1 (flag_readings (tax_validation (validate_invoice e))
                                (tax_valid_flag e default_tax_rate))).
  unfold completeness_part, items_part, validation_part, valid_item_fraction.
  fold (header_fraction e). fold (item_slot_fraction e).
  pose proof (item_calculations_length e) as Hlen.
  pose proof (no_items_all_valid e) as Hempty.
  set (h := header_fraction e). set (f := item_slot_fraction e).
  set (vf := of_nat (valid_item_count e) / of_nat (List.length (items e))).
  destruct (items e) as [|i its].
  - rewrite (Hempty eq_refl). ring.
  - destruct (item_calculations (validate_invoice e)) as [|c cs];
      [discriminate Hlen|].
    destruct (all_valid (validate_invoice e));
      destruct (says_valid (tax_validation (validate_invoice e))); ring.
Qed.

Lemma parts_nonneg (e : InvoiceExtraction) :
  0 <= completeness_part e /\ 0 <= items_part e /\ 0 <= validation_part e.
Proof.
  assert (F : forall a b, 0 <= of_nat a / of_nat b)
    by (intros; apply Qdiv_nonneg; apply of_nat_nonneg).
  split; [|split].
  - unfold completeness_part, header_fraction.
    apply Qmult_le_0_compat; [discriminate|].
    apply Qdiv_nonneg; [apply of_nat_nonneg | discriminate].
  - unfold items_part, item_slot_fraction. destruct (items e); [apply Qle_refl|].
    pose proof (F (list_sum (map item_slots_present (i :: l)))
                  (4 * List.length (i :: l))%nat) as G.
    set (x := of_nat _ / of_nat _) in *. lra.
  - unfold validation_part, valid_item_fraction.
    destruct (all_valid _); [discriminate|].
    pose proof (F (valid_item_count e) (List.length (items e))) as G.
    set (x := of_nat _ / of_nat _) in *.
    destruct (says_valid _); lra.
Qed.

(** Scores are confidences: they satisfy the range constraint of
    [AgentDecision]. *)
Lemma score_range (e : InvoiceExtraction) : 0 <= _calculate_score e <= 1.
Proof.
  destruct (score_parts e) as (raw & -> & Hraw).
  destruct (parts_nonneg e) as (Hc & Hi & Hv).
  split; [|apply min_le_r].
  apply min_ge; [|discriminate]. rewrite Hraw. lra.
Qed.


(** A complete and consistent invoice scores 1. *)
Example score_complete_invoice :
  _calculate_score
    {| general_fields :=
         {| invoice_number := Some "INV-1"; date := Some "2024-01-31";
            supplier_name := Some "ACME"; total_amount := Some 118;
            currency := Some "TRY" |};
       items := [line (Some 2) (Some 50) (Some 100)] |} == 1.
Proof. reflexivity. Qed.

Example score_with_vat : _calculate_score invoice_with_vat == 71 # 100.
Proof. reflexivity. Qed.

Example score_mismatch : _calculate_score invoice_mismatch == 51 # 100.
Proof. reflexivity. Qed.

End ScoreFacts.

(** ** The OCR provider chain *)

Module ChainFacts.
Import Py Eff Text Providers ChainVocabulary ChainSamples PyFacts.
Import OCRProviderChain.

Section Run.
Variables (min_conf : Q) (image_path lang : string).

Local Abbreviation run := (extract_from min_conf image_path lang).
Local Abbreviation entry := (invocation_of image_path lang).

(** One turn of the loop. *)
Lemma extract_from_cons (p : OCRProvider) (todo : list OCRProvider)
    (results : list OCRResult) :
  run (p :: todo) results =
    match Providers.extract p image_path lang with
    | Some r =>
        if Qgeb (confidence r) min_conf then (Returned r, [entry p])
        else (value_of (run todo (results ++ [r])),
              entry p :: trace_of (run todo (results ++ [r])))
    | None => (value_of (run todo results), entry p :: trace_of (run todo results))
    end.
Proof.
  simpl. destruct (Providers.extract p image_path lang) as [r|]; simpl.
  - destruct (Qgeb (confidence r) min_conf); [reflexivity|].
    now destruct (run todo (results ++ [r])).
  - now destruct (run todo results).
Qed.

(** Providers that pass on are all called, and their results retained. *)
Lemma run_passes_on (pre todo : list OCRProvider) (results : list OCRResult) :
  Forall (passes_on min_conf image_path lang) pre ->
  run (pre ++ todo) results =
    (value_of (run todo (results ++ successes image_path lang pre)),
     map entry pre ++ trace_of (run todo (results ++ successes image_path lang pre)))%list.
Proof.
  intros H. revert results.
  induction H as [|p pre Hp _ IH]; intros results.
  - simpl. rewrite app_nil_r. now destruct (run todo results).
  - rewrite <- app_comm_cons, extract_from_cons. unfold successes. simpl.
    fold (successes image_path lang pre).
    destruct (Providers.extract p image_path lang) as [r|] eqn:E.
    + assert (L : Qgeb (confidence r) min_conf = false).
      { apply not_true_iff_false. rewrite Qgeb_true.
        apply Qlt_not_le. now apply Hp. }
      rewrite L, IH. simpl. now rewrite <- app_assoc.
    + rewrite IH. reflexivity.
Qed.

End Run.

(** [max(results, key=...)] picks a result of highest confidence. *)
Lemma max_by_from_best (r : OCRResult) (rs : list OCRResult) :
  best_of (r :: rs) (max_by_from confidence r rs).
Proof.
  assert (G : forall rs best,
             (In (max_by_from confidence best rs) (best :: rs))
             /\ confidence best <= confidence (max_by_from confidence best rs)
             /\ forall r', In r' rs ->
                  confidence r' <= confidence (max_by_from confidence best rs)).
  { clear. induction rs as [|x rs IH]; intros best; simpl.
    - split; [now left | split; [apply Qle_refl | tauto]].
    - destruct (Qgtb (confidence x) (confidence best)) eqn:E.
      + apply Qgtb_true in E. destruct (IH x) as (Hin & Hle & Hall).
        split; [now right|]. split.
        * apply Qlt_le_weak in E. now apply Qle_trans with (confidence x).
        * intros r' [<- | Hr']; [exact Hle | now apply Hall].
      + apply Qltb_false in E. destruct (IH best) as (Hin & Hle & Hall).
        split; [destruct Hin as [Hin | Hin]; [now left | now right; right]|].
        split; [exact Hle|].
        intros r' [<- | Hr']; [now apply Qle_trans with (confidence best) | now apply Hall]. }
  destruct (G rs r) as (Hin & Hle & Hall). split; [exact Hin|].
  intros r' [<- | Hr']; [exact Hle | now apply Hall].
Qed.

(** The list of providers either contains a first provider that answers
    at or above the threshold, or consists of providers that pass on. *)
Lemma first_confident (min_conf : Q) (image_path lang : string) (ps : list OCRProvider) :
  (exists pre p post r,
      ps = (pre ++ p :: post)%list
      /\ Forall (passes_on min_conf image_path lang) pre
      /\ Providers.extract p image_path lang = Some r
      /\ min_conf <= confidence r)
  \/ Forall (passes_on min_conf image_path lang) ps.
Proof.
  induction ps as [|p ps IH]; [right; constructor|].
  destruct (Providers.extract p image_path lang) as [r|] eqn:E.
  - destruct (Qlt_le_dec (confidence r) min_conf) as [L | G].
    + assert (Hp : passes_on min_conf image_path lang p).
      { intros r' Hr'. rewrite E in Hr'. now injection Hr' as <-. }
      destruct IH as [(pre & q & post & r' & -> & Hpre & Hq & Hr') | Hall].
      * left. exists (p :: pre), q, post, r'. repeat split; try assumption.
        now constructor.
      * right. now constructor.
    + left. exists [], p, ps, r. repeat split; try assumption. constructor.
  - assert (Hp : passes_on min_conf image_path lang p).
    { intros r' Hr'. rewrite E in Hr'. discriminate Hr'. }
    destruct IH as [(pre & q & post & r' & -> & Hpre & Hq & Hr') | Hall].
    + left. exists (p :: pre), q, post, r'. repeat split; try assumption.
      now constructor.
    + right. now constructor.
Qed.

Lemma successes_nil (image_path lang : string) (ps : list OCRProvider) :
  successes image_path lang ps = [] <->
  forall p, In p ps -> Providers.extract p image_path lang = None.
Proof.
  induction ps as [|p ps IH]; simpl.
  - split; [intros _ p [] | reflexivity].
  - destruct (Providers.extract p image_path lang) as [r|] eqn:E; simpl.
    + split; [discriminate|]. intros H. specialize (H p (or_introl eq_refl)).
      congruence.
    + rewrite IH. split.
      * intros H q [<- | Hq]; [exact E | now apply H].
      * intros H q Hq. apply H. now right.
Qed.

(** C6: the chain tries its providers in list order.  (1) Up to the first
    provider that succeeds with confidence >= min_confidence, every
    provider is called (failures and low-confidence successes are passed
    over); that provider's result is returned at once and no later
    provider is called.  (2) When no provider reaches the threshold, all
    providers are called, in order, and the chain returns a retained
    result of highest confidence if there is one.  (3) The chain raises
    exactly when every provider failed, and then it raises "All OCR
    providers failed". *)
Theorem chain_extract (self : t) (image_path lang : string) :
  let run := extract self image_path lang in
  let entry := invocation_of image_path lang in
  (forall pre p post r,
      providers self = (pre ++ p :: post)%list ->
      Forall (passes_on (min_confidence self) image_path lang) pre ->
      Providers.extract p image_path lang = Some r ->
      min_confidence self <= confidence r ->
      value_of run = Returned r
      /\ trace_of run = map entry (pre ++ [p]))
  /\
  (Forall (passes_on (min_confidence self) image_path lang) (providers self) ->
   trace_of run = map entry (providers self)
   /\ (forall r0 rs, successes image_path lang (providers self) = r0 :: rs ->
         exists r, value_of run = Returned r /\ best_of (r0 :: rs) r))
  /\
  ((value_of run = Raised all_providers_failed <->
    forall p, In p (providers self) -> Providers.extract p image_path lang = None)
   /\ forall e, value_of run = Raised e -> e = all_providers_failed).
Proof.
  intros run entry. subst run entry. unfold extract.
  set (m := min_confidence self). set (ps := providers self).
  assert (Short : forall pre p post r,
             ps = (pre ++ p :: post)%list ->
             Forall (passes_on m image_path lang) pre ->
             Providers.extract p image_path lang = Some r ->
             m <= confidence r ->
             extract_from m image_path lang ps []
             = (Returned r, map (invocation_of image_path lang) (pre ++ [p]))).
  { intros pre p post r -> Hpre Hp Hr.
    rewrite (run_passes_on m image_path lang pre (p :: post) [] Hpre).
    rewrite extract_from_cons, Hp.
    apply Qgeb_true in Hr. rewrite Hr. simpl. now rewrite map_app. }
  assert (Long : Forall (passes_on m image_path lang) ps ->
             extract_from m image_path lang ps []
             = (value_of (best_or_fail (successes image_path lang ps)),
                map (invocation_of image_path lang) ps)).
  { intros Hall.
    pose proof (run_passes_on m image_path lang ps [] [] Hall) as H.
    rewrite !app_nil_r in H. rewrite H. simpl.
    destruct (successes image_path lang ps); simpl; now rewrite app_nil_r. }
  split; [|split; [|split]].
  - intros pre p post r Hps Hpre Hp Hr.
    now rewrite (Short pre p post r Hps Hpre Hp Hr).
  - intros Hall. rewrite (Long Hall). split; [reflexivity|].
    intros r0 rs Hs. rewrite Hs. simpl. eexists. split; [reflexivity|].
    apply max_by_from_best.
  - rewrite <- successes_nil.
    destruct (first_confident m image_path lang ps)
      as [(pre & p & post & r & Hps & Hpre & Hp & Hr) | Hall].
    + rewrite (Short pre p post r Hps Hpre Hp Hr). simpl.
      split; [discriminate|]. intros Hnil. exfalso.
      rewrite successes_nil in Hnil. rewrite Hnil in Hp; [discriminate|].
      rewrite Hps. apply in_elt.
    + rewrite (Long Hall). simpl.
      destruct (successes image_path lang ps); simpl;
        split; (reflexivity || discriminate).
  - destruct (first_confident m image_path lang ps)
      as [(pre & p & post & r & Hps & Hpre & Hp & Hr) | Hall].
    + rewrite (Short pre p post r Hps Hpre Hp Hr). simpl. discriminate.
    + rewrite (Long Hall). simpl.
      destruct (successes image_path lang ps); simpl; intros e [=]; now subst.
Qed.

(** [chain_extract] on the two providers of the repository at threshold
    0.5: a confident first engine (0.9), a failing first engine followed by
    an unsure second one (0.4), and two failing engines. *)
Lemma chain_extract_witness :
  (value_of (extract (chain engines_confident) "scan.png" "en")
     = Returned (scan (9 # 10) "paddleocr")
   /\ trace_of (extract (chain engines_confident) "scan.png" "en")
     = map (invocation_of "scan.png" "en") ([] ++ [PaddleOCRProvider engines_confident]))
  /\
  (exists r, value_of (extract (chain engines_degraded) "scan.png" "en") = Returned r
             /\ best_of [scan (4 # 10) "easyocr"] r)
  /\
  value_of (extract (chain engines_down) "scan.png" "en") = Raised all_providers_failed.
Proof.
  split; [|split].
  - destruct (chain_extract (chain engines_confident) "scan.png" "en") as (Hshort & _ & _).
    apply (Hshort [] (PaddleOCRProvider engines_confident)
                  [EasyOCRProvider engines_confident]).
    + reflexivity.
    + constructor.
    + reflexivity.
    + vm_compute. discriminate.
  - destruct (chain_extract (chain engines_degraded) "scan.png" "en") as (_ & Hlong & _).
    apply Hlong; [|reflexivity].
    repeat constructor; intros r [= <-]. reflexivity.
  - destruct (chain_extract (chain engines_down) "scan.png" "en") as (_ & _ & Hfail & _).
    apply Hfail. intros p [<- | [<- | []]]; reflexivity.
Defined.

(** The chain examples of the specification, run. *)
Example chain_short_circuits :
  extract (chain engines_confident) "scan.png" "en" =
    (Returned (scan (9 # 10) "paddleocr"),
     [{| invoked := "paddleocr"; on_image := "scan.png"; on_lang := "en" |}]).
Proof. reflexivity. Qed.

Example chain_degrades :
  extract (chain engines_degraded) "scan.png" "en" =
    (Returned (scan (4 # 10) "easyocr"),
     [{| invoked := "paddleocr"; on_image := "scan.png"; on_lang := "en" |};
      {| invoked := "easyocr"; on_image := "scan.png"; on_lang := "en" |}]).
Proof. reflexivity. Qed.

Example chain_keeps_the_best :
  value_of (extract (chain engines_unsure) "scan.png" "en")
  = Returned (scan (45 # 100) "paddleocr").
Proof. reflexivity. Qed.

Example chain_fails :
  extract (chain engines_down) "scan.png" "en" =
    (Raised (RuntimeError "All OCR providers failed"),
     [{| invoked := "paddleocr"; on_image := "scan.png"; on_lang := "en" |};
      {| invoked := "easyocr"; on_image := "scan.png"; on_lang := "en" |}]).
Proof. reflexivity. Qed.

End ChainFacts.

(** ** The OCR quality gate *)

Module GateFacts.
Import Py Eff Text Providers OCRAgent GateVocabulary GateSamples PyFacts.

Section WithUnicode.
Context {U : Unicode}.
Variable backend : str -> option OCRQualityAssessment.

Lemma nonempty_false (s : str) : nonempty s = false <-> s = [].
Proof. destruct s; simpl; split; congruence. Qed.







(** C8: when the text gets through the pre-filter and the call to the model
    backend fails, the gate has called the backend once, on the first 2000
    characters, and returns the fallback: quality = good exactly when the
    OCR confidence exceeds 0.7, confidence = the OCR confidence, issues =
    [assessment_failed], should_retry exactly when the OCR confidence is
    below 0.5. *)
Theorem gate_fallback (ocr_result : OCRResult) :
  passes_prefilter (text ocr_result) ->
  backend (prefix 2000 (text ocr_result)) = None ->
  exists a,
    assess_quality backend ocr_result = (Returned a, [prefix 2000 (text ocr_result)])
    /\ (quality a = good <-> 7 # 10 < Providers.confidence ocr_result)
    /\ confidence a = Providers.confidence ocr_result
    /\ issues a = ["assessment_failed"]
    /\ (should_retry a = true <-> Providers.confidence ocr_result < 5 # 10).
Proof.
  intros [B L] Hdown. unfold assess_quality.
  destruct (nonempty (strip (text ocr_result))) eqn:E; cbn [negb];
    [|apply nonempty_false in E; contradiction].
  apply Nat.leb_gt in L. cbv zeta. rewrite L, Hdown. simpl.
  eexists. split; [reflexivity|]. simpl.
  split; [|split; [reflexivity | split; [reflexivity | apply Qltb_true]]].
  rewrite <- Qgtb_true.
  destruct (Qgtb (Providers.confidence ocr_result) (7 # 10));
    split; congruence.
Qed.

End WithUnicode.


(** The quality-gate example of the specification: length 10, no digit,
    half of the characters special. *)
Example gate_garbled :
  assess_quality (U := ascii_unicode) backend_says_good garbled =
    (Returned
       {| quality := poor; confidence := 3 # 10;
          issues := ["text_too_short"; "no_numbers"; "excessive_special_chars"];
          should_retry := true;
          suggested_params :=
            Some [("det_db_thresh", 35 # 100); ("det_db_unclip_ratio", 2)] |},
     []).
Proof. reflexivity. Qed.

(** [gate_fallback] on a readable text read with confidence 0.9, the
    backend being down. *)
Lemma gate_fallback_witness :
  exists a,
    assess_quality (U := ascii_unicode) backend_down (readable (9 # 10))
      = (Returned a, [prefix 2000 (text (readable (9 # 10)))])
    /\ (quality a = good <-> 7 # 10 < Providers.confidence (readable (9 # 10)))
    /\ confidence a = Providers.confidence (readable (9 # 10))
    /\ issues a = ["assessment_failed"]
    /\ (should_retry a = true <-> Providers.confidence (readable (9 # 10)) < 5 # 10).
Proof.
  apply (gate_fallback (U := ascii_unicode) backend_down (readable (9 # 10))).
  - split.
    + intros B. vm_compute in B. discriminate B.
    + vm_compute. repeat constructor.
  - reflexivity.
Defined.

Example gate_fallback_good :
  value_of (assess_quality (U := ascii_unicode) backend_down (readable (9 # 10)))
  = Returned {| quality := good; confidence := 9 # 10;
                issues := ["assessment_failed"]; should_retry := false;
                suggested_params := None |}.
Proof. reflexivity. Qed.

Example gate_fallback_retry :
  value_of (assess_quality (U := ascii_unicode) backend_down (readable (4 # 10)))
  = Returned {| quality := poor; confidence := 4 # 10;
                issues := ["assessment_failed"]; should_retry := true;
                suggested_params := None |}.
Proof. reflexivity. Qed.

End GateFacts.

(** ** The arbiter *)

Module ArbiterFacts.
Import Py Eff Text Models Config Extraction Decision PyFacts.
Import ArbiterVocabulary ArbiterSamples.

(** *** Sorting by score *)

Section Sorting.
Context {A : Type} (key : A -> Q).

Lemma insert_desc_perm (x : A) (l : list A) :
  Permutation (insert_desc key x l) (x :: l).
Proof.
  induction l as [|y l IH]; simpl; [reflexivity|].
  destruct (Qle_bool (key y) (key x)); [reflexivity|].
  rewrite IH. apply perm_swap.
Qed.

Lemma sort_desc_perm (l : list A) : Permutation (sort_desc key l) l.
Proof.
  induction l as [|x l IH]; simpl; [reflexivity|].
  rewrite insert_desc_perm. now constructor.
Qed.

Lemma insert_desc_sorted (x : A) (l : list A) :
  StronglySorted (fun a b => key b <= key a) l ->
  StronglySorted (fun a b => key b <= key a) (insert_desc key x l).
Proof.
  induction 1 as [|y l Hl IH Hy]; simpl.
  - repeat constructor.
  - destruct (Qle_bool (key y) (key x)) eqn:E.
    + apply Qle_bool_iff in E. constructor; [now constructor|].
      constructor; [exact E|].
      eapply Forall_impl; [|exact Hy]. intros z Hz. simpl in Hz.
      now apply Qle_trans with (key y).
    + constructor; [exact IH|].
      assert (L : key x <= key y).
      { apply Qlt_le_weak, Qnot_le_lt. rewrite <- Qle_bool_iff. congruence. }
      eapply Permutation_Forall; [symmetry; apply insert_desc_perm|].
      now constructor.
Qed.

Lemma sort_desc_sorted (l : list A) :
  StronglySorted (fun a b => key b <= key a) (sort_desc key l).
Proof.
  induction l as [|x l IH]; simpl; [constructor | now apply insert_desc_sorted].
Qed.

End Sorting.

Lemma scored_results_perm (results : list candidate) :
  Permutation (scored_results results) (map with_score results).
Proof. apply sort_desc_perm. Qed.

Lemma scored_results_descending (results : list candidate) :
  descending (scored_results results).
Proof. apply sort_desc_sorted. Qed.

Lemma scored_results_length (results : list candidate) :
  List.length (scored_results results) = List.length results.
Proof.
  rewrite (Permutation_length (scored_results_perm results)). apply length_map.
Qed.


(** The score attached to a sorted entry is the score of its candidate. *)
Lemma scored_results_scores (results : list candidate) (x : scored) :
  In x (scored_results results) ->
  In (unscored x) results /\ score_of x = _calculate_score (snd (unscored x)).
Proof.
  intros H. apply (Permutation_in _ (scored_results_perm results)) in H.
  apply in_map_iff in H. destruct H as ([s e] & <- & Hin). now split.
Qed.

(** *** The backends of a run *)

(** The arbiter is configured with one or two backends, and configuring
    them calls no judge. *)
Lemma create_parallel_extractors_cases {Ev : Type} (settings : Settings)
    (factory : agent_factory) :
  create_parallel_extractors (Ev := Ev) settings factory = (Raised EngineError, [])
  \/ (exists a, create_parallel_extractors (Ev := Ev) settings factory = (Returned [a], []))
  \/ (exists a b,
        create_parallel_extractors (Ev := Ev) settings factory = (Returned [a; b], [])).
Proof.
  unfold create_parallel_extractors.
  destruct (ExtractionAgent.init factory "openai" (openai_model settings)) as [a|];
    [|now left].
  right. destruct (parallel_llm_enabled settings); [|left; now exists a].
  destruct (ExtractionAgent.init factory "ollama" (ollama_model settings)) as [b|].
  - right. now exists a, b.
  - left. now exists a.
Qed.

Section WithBackends.
Context {U : Unicode}.
Variable judge : judge_prompt -> option AgentDecision.

Lemma run_parallel_results (completed : completion_order) (ocr_text : str)
    (extractors : list ExtractionAgent.t) (results : list candidate) :
  value_of (_run_parallel_extractions completed ocr_text extractors)
    = Returned results ->
  _run_parallel_extractions completed ocr_text extractors = (Returned results, [])
  /\ results = flat_map (contribution ocr_text) (order completed _ extractors).
Proof.
  unfold _run_parallel_extractions.
  destruct extractors as [|e es]; simpl; [discriminate|].
  intros [= <-]. split; reflexivity.
Qed.

Lemma contributions_length (ocr_text : str) (l : list ExtractionAgent.t) :
  (List.length (flat_map (contribution ocr_text) l) <= List.length l)%nat.
Proof.
  induction l as [|e l IH]; simpl; [lia|].
  rewrite length_app. unfold contribution at 1.
  destruct (ExtractionAgent.extract e ocr_text); simpl; lia.
Qed.

Lemma contributions_produced (ocr_text : str) (l : list ExtractionAgent.t) :
  map snd (flat_map (contribution ocr_text) l) = produced_by l ocr_text.
Proof.
  unfold produced_by. induction l as [|e l IH]; [reflexivity|].
  cbn [flat_map]. rewrite map_app. f_equal; [|exact IH].
  unfold contribution. now destruct (ExtractionAgent.extract e ocr_text).
Qed.

Lemma produced_by_perm (ocr_text : str) (l l' : list ExtractionAgent.t) :
  Permutation l l' -> Permutation (produced_by l ocr_text) (produced_by l' ocr_text).
Proof.
  intros H. unfold produced_by. induction H; simpl.
  - reflexivity.
  - now apply Permutation_app_head.
  - rewrite !app_assoc. apply Permutation_app_tail, Permutation_app_comm.
  - now transitivity (produced_by l' ocr_text).
Qed.

(** The results of a run are candidates produced in that run, whatever
    the order of completion. *)
Lemma results_are_produced (completed : completion_order) (ocr_text : str)
    (extractors : list ExtractionAgent.t) (results : list candidate)
    (c : candidate) :
  value_of (_run_parallel_extractions completed ocr_text extractors)
    = Returned results ->
  In c results -> In (snd c) (produced_by extractors ocr_text).
Proof.
  intros H Hc. apply run_parallel_results in H. destruct H as [_ ->].
  apply (Permutation_in _ (produced_by_perm ocr_text _ _ (order_perm completed _ extractors))).
  rewrite <- contributions_produced. now apply in_map.
Qed.

Lemma results_length (completed : completion_order) (ocr_text : str)
    (extractors : list ExtractionAgent.t) (results : list candidate) :
  value_of (_run_parallel_extractions completed ocr_text extractors)
    = Returned results ->
  (List.length results <= List.length extractors)%nat.
Proof.
  intros H. apply run_parallel_results in H. destruct H as [_ ->].
  rewrite <- (Permutation_length (order_perm completed _ extractors)).
  apply contributions_length.
Qed.

(** *** Selections *)

Lemma heuristic_selects {Ev : Type} (results : list candidate) (best : scored)
    (rest : list scored) :
  scored_results results = best :: rest ->
  exists d, _select_best_heuristic (Ev := Ev) results = (Returned d, [])
            /\ selects d best.
Proof.
  intros H. unfold _select_best_heuristic. rewrite H.
  destruct best as [[s e] sc]. eexists. split; [reflexivity|].
  repeat split.
Qed.

(** The gap test of [decide], between scores in descending order. *)
Lemma gap_test (best second : Q) :
  second <= best ->
  (Qltb (Qabs (best - second)) (15 # 100) = true <-> best - second < 15 # 100)
  /\ (Qltb (Qabs (best - second)) (15 # 100) = false <-> 15 # 100 <= best - second).
Proof.
  intros H. rewrite Qltb_true, Qltb_false.
  assert (E : Qabs (best - second) == best - second) by (apply Qabs_pos; lra).
  rewrite E. tauto.
Qed.

(** [decide] with two or more results. *)
Lemma decide_two_or_more (settings : Settings) (factory : agent_factory)
    (completed : completion_order) (ocr_text : str)
    (extractors : list ExtractionAgent.t) (results : list candidate) :
  value_of (create_parallel_extractors (Ev := judge_prompt) settings factory)
    = Returned extractors ->
  value_of (_run_parallel_extractions completed ocr_text extractors)
    = Returned results ->
  (2 <= List.length results)%nat ->
  decide judge settings factory completed ocr_text =
    match scored_results results with
    | (_, best_score) :: (_, second_score) :: _ =>
        if Qltb (Qabs (best_score - second_score)) (15 # 100)
        then _select_best_llm judge results ocr_text
        else _select_best_heuristic results
    | _ => raise IndexError
    end.
Proof.
  intros Hc Hr L. pose proof (results_length _ _ _ _ Hr) as Le.
  apply run_parallel_results in Hr. destruct Hr as [Hr _].
  unfold decide.
  destruct (create_parallel_extractors_cases (Ev := judge_prompt) settings factory)
    as [E | [(a & E) | (a & b & E)]];
    rewrite E in Hc |- *; simpl in Hc; try discriminate Hc;
    injection Hc as <-; simpl in Le; [lia|].
  unfold bind at 1. rewrite Hr. unfold bind.
  destruct results as [|c1 [|c2 rs]]; simpl in L; try lia.
  destruct c1 as [s1 e1].
  match goal with
  | |- (let (o, t') := (let (o0, t'0) := ?X in _) in _) = _ => destruct X as [o t]
  end.
  reflexivity.
Qed.

(** The three ways in which a run with two or more results ends. *)
Lemma decide_two_or_more_outcome (settings : Settings) (factory : agent_factory)
    (completed : completion_order) (ocr_text : str)
    (extractors : list ExtractionAgent.t) (results : list candidate) :
  value_of (create_parallel_extractors (Ev := judge_prompt) settings factory)
    = Returned extractors ->
  value_of (_run_parallel_extractions completed ocr_text extractors)
    = Returned results ->
  (2 <= List.length results)%nat ->
  exists best second rest c1 c2 rs,
    scored_results results = best :: second :: rest
    /\ results = c1 :: c2 :: rs
    /\ let run := decide judge settings factory completed ocr_text in
       let gap := score_of best - score_of second in
       let prompt := {| source_a := fst c1; result_a := snd c1;
                        source_b := fst c2; result_b := snd c2;
                        ocr_text := prefix 1500 ocr_text |} in
       (15 # 100 <= gap
        /\ exists d, run = (Returned d, []) /\ selects d best)
       \/ (gap < 15 # 100
           /\ exists d, judge prompt = Some d /\ run = (Returned d, [prompt]))
       \/ (gap < 15 # 100 /\ judge prompt = None
           /\ exists d, run = (Returned d, [prompt]) /\ selects d best).
Proof.
  intros Hc Hr L.
  rewrite (decide_two_or_more settings factory completed ocr_text extractors results Hc Hr L).
  pose proof (scored_results_length results) as Hlen.
  pose proof (scored_results_descending results) as Hdesc.
  destruct (scored_results results) as [|best [|second rest]] eqn:Hs;
    simpl in Hlen; try lia.
  destruct results as [|c1 [|c2 rs]]; simpl in L; try lia.
  exists best, second, rest, c1, c2, rs. split; [reflexivity|].
  split; [reflexivity|]. cbv zeta.
  assert (Hle : score_of second <= score_of best).
  { apply StronglySorted_inv in Hdesc. destruct Hdesc as [_ Hall].
    apply Forall_inv in Hall. exact Hall. }
  destruct (heuristic_selects (Ev := judge_prompt) (c1 :: c2 :: rs) best (second :: rest) Hs)
    as (dh & Hh & Hsel).
  destruct best as [cb sb], second as [cs ss]. unfold score_of in *. simpl snd in *.
  destruct (Qltb (Qabs (sb - ss)) (15 # 100)) eqn:E.
  - right. apply (proj1 (proj1 (gap_test sb ss Hle))) in E.
    unfold _select_best_llm. destruct c1 as [s1 e1], c2 as [s2 e2]. simpl fst. simpl snd.
    destruct (judge _) as [d|] eqn:J.
    + left. split; [exact E|]. exists d. split; [reflexivity | reflexivity].
    + right. split; [exact E|]. split; [reflexivity|].
      exists dh. split; [|exact Hsel]. simpl. now rewrite Hh.
  - left. apply (proj1 (proj2 (gap_test sb ss Hle))) in E.
    split; [exact E|]. exists dh. now split.
Qed.


(** The runs that never reach the comparison of scores. *)
Lemma decide_not_configured (settings : Settings) (factory : agent_factory)
    (completed : completion_order) (ocr_text : str) (e : exn) :
  create_parallel_extractors (Ev := judge_prompt) settings factory = (Raised e, []) ->
  decide judge settings factory completed ocr_text = (Raised e, []).
Proof. intros E. unfold decide. now rewrite E. Qed.

Lemma decide_single_extractor (settings : Settings) (factory : agent_factory)
    (completed : completion_order) (ocr_text : str) (a : ExtractionAgent.t) :
  create_parallel_extractors (Ev := judge_prompt) settings factory = (Returned [a], []) ->
  decide judge settings factory completed ocr_text =
    match ExtractionAgent.extract a ocr_text with
    | None => (Raised EngineError, [])
    | Some extraction =>
        (Returned {| selected_source := ExtractionAgent.source_name a;
                     confidence := _calculate_score extraction;
                     reasoning := "Single extractor mode";
                     result := extraction |}, [])
    end.
Proof.
  intros E. unfold decide. rewrite E. simpl.
  now destruct (ExtractionAgent.extract a ocr_text).
Qed.

Lemma decide_at_most_one (settings : Settings) (factory : agent_factory)
    (completed : completion_order) (ocr_text : str) (a b : ExtractionAgent.t)
    (results : list candidate) :
  create_parallel_extractors (Ev := judge_prompt) settings factory
    = (Returned [a; b], []) ->
  value_of (_run_parallel_extractions completed ocr_text [a; b]) = Returned results ->
  (results = [] ->
   decide judge settings factory completed ocr_text
   = (Raised (RuntimeError "All extraction attempts failed"), []))
  /\
  (forall c, results = [c] ->
   decide judge settings factory completed ocr_text
   = (Returned {| selected_source := fst c;
                  confidence := _calculate_score (snd c);
                  reasoning := "Only one extraction succeeded";
                  result := snd c |}, [])).
Proof.
  intros E Hr. apply run_parallel_results in Hr. destruct Hr as [Hr _].
  split.
  - intros ->. unfold decide. rewrite E. unfold bind at 1. now rewrite Hr.
  - intros [s e] ->. unfold decide. rewrite E. unfold bind at 1. now rewrite Hr.
Qed.


(** A Decision that the arbiter builds itself has the score of its result
    for confidence, hence a confidence in [0, 1]. *)
Lemma built_confidence (settings : Settings) (factory : agent_factory)
    (completed : completion_order) (ocr_text : str) (d : AgentDecision) :
  value_of (decide judge settings factory completed ocr_text) = Returned d ->
  (forall prompt,
      In prompt (trace_of (decide judge settings factory completed ocr_text)) ->
      judge prompt = None) ->
  confidence d = _calculate_score (result d) /\ 0 <= confidence d <= 1.
Proof.
  intros Hd Hnever.
  enough (E : confidence d = _calculate_score (result d))
    by (split; [exact E | rewrite E; apply ScoreFacts.score_range]).
  destruct (create_parallel_extractors_cases (Ev := judge_prompt) settings factory)
    as [E | [(a & E) | (a & b & E)]].
  - rewrite (decide_not_configured _ _ _ _ _ E) in Hd. discriminate Hd.
  - rewrite (decide_single_extractor _ _ _ _ _ E) in Hd.
    destruct (ExtractionAgent.extract a ocr_text) as [e|]; [|discriminate Hd].
    now injection Hd as <-.
  - destruct (_run_parallel_extractions completed ocr_text [a; b])
      as [[results | e] t] eqn:Hrun; [|discriminate Hrun].
    assert (Hr : value_of (_run_parallel_extractions completed ocr_text [a; b])
                 = Returned results) by now rewrite Hrun.
    assert (Hc : value_of (create_parallel_extractors (Ev := judge_prompt) settings factory)
                 = Returned [a; b]) by now rewrite E.
    destruct (decide_at_most_one settings factory completed ocr_text a b results E Hr)
      as [Hnone Hone].
    destruct results as [|c1 [|c2 rs]].
    + rewrite (Hnone eq_refl) in Hd. discriminate Hd.
    + rewrite (Hone c1 eq_refl) in Hd. now injection Hd as <-.
    + destruct (decide_two_or_more_outcome settings factory completed ocr_text
                  [a; b] (c1 :: c2 :: rs) Hc Hr)
        as (best & second & rest & c1' & c2' & rs' & Hs & Hres & H); [simpl; lia|].
      injection Hres as <- <- <-. cbv zeta in H.
      assert (Hbest : forall d0, selects d0 best ->
                 confidence d0 = _calculate_score (result d0)).
      { intros d0 (_ & Hres & ->). rewrite Hres.
        apply scored_results_scores with (results := c1 :: c2 :: rs).
        rewrite Hs. now left. }
      destruct H as [(G & d0 & H0 & Hsel) | [(G & d0 & J & H0) | (G & J & d0 & H0 & Hsel)]];
        rewrite H0 in Hd, Hnever; injection Hd as <-.
      * now apply Hbest.
      * rewrite (Hnever _ (or_introl eq_refl)) in J. discriminate J.
      * now apply Hbest.
Qed.

(** C9 (as amended): a Decision returned by a run in which no call to the
    judge succeeded -- single backend, single success, score-based
    selection, fallback after a failed judge call -- carries one of the
    candidates produced by the backends in that run; a Decision returned
    after a successful call to the judge is the output of the judge, as it
    is. *)
Theorem decision_origin (settings : Settings) (factory : agent_factory)
    (completed : completion_order) (ocr_text : str) (d : AgentDecision) :
  let run := decide judge settings factory completed ocr_text in
  value_of run = Returned d ->
  ((forall prompt, In prompt (trace_of run) -> judge prompt = None) ->
   In (result d) (produced settings factory ocr_text))
  /\
  (forall prompt d', In prompt (trace_of run) -> judge prompt = Some d' -> d = d').
Proof.
  intros run Hd. subst run. unfold produced.
  destruct (create_parallel_extractors_cases (Ev := judge_prompt) settings factory)
    as [E | [(a & E) | (a & b & E)]].
  - rewrite (decide_not_configured _ _ _ _ _ E) in Hd. discriminate Hd.
  - rewrite (decide_single_extractor _ _ _ _ _ E) in Hd |- *. rewrite E.
    unfold produced_by. simpl.
    destruct (ExtractionAgent.extract a ocr_text) as [e|]; [|discriminate Hd].
    injection Hd as <-. simpl. split; [intros _; now left | intros p d' []].
  - destruct (_run_parallel_extractions completed ocr_text [a; b])
      as [[results | e] t] eqn:Hrun; [|discriminate Hrun].
    assert (Hr : value_of (_run_parallel_extractions completed ocr_text [a; b])
                 = Returned results) by now rewrite Hrun.
    assert (Hc : value_of (create_parallel_extractors (Ev := judge_prompt) settings factory)
                 = Returned [a; b]) by now rewrite E.
    pose proof (results_are_produced completed ocr_text [a; b] results) as Hprod.
    rewrite Hc.
    destruct (decide_at_most_one settings factory completed ocr_text a b results E Hr)
      as [Hnone Hone].
    destruct results as [|c1 [|c2 rs]].
    + rewrite (Hnone eq_refl) in Hd. discriminate Hd.
    + rewrite (Hone c1 eq_refl) in Hd |- *. injection Hd as <-. simpl.
      split; [intros _; apply (Hprod c1 Hr); now left | intros p d' []].
    + destruct (decide_two_or_more_outcome settings factory completed ocr_text
                  [a; b] (c1 :: c2 :: rs) Hc Hr)
        as (best & second & rest & c1' & c2' & rs' & Hs & Hres & H); [simpl; lia|].
      injection Hres as <- <- <-. cbv zeta in H.
      assert (Hbest : forall d0, selects d0 best ->
                 In (result d0) (produced_by [a; b] ocr_text)).
      { intros d0 (_ & Hres & _). rewrite Hres.
        apply (Hprod (unscored best) Hr).
        apply scored_results_scores. rewrite Hs. now left. }
      destruct H as [(G & d0 & H0 & Hsel) | [(G & d0 & J & H0) | (G & J & d0 & H0 & Hsel)]];
        rewrite H0 in Hd |- *; injection Hd as <-; simpl.
      * split; [intros _; now apply Hbest | intros p d' []].
      * split.
        -- intros Hnever. rewrite (Hnever _ (or_introl eq_refl)) in J. discriminate J.
        -- intros p d' [<- | []] J'. rewrite J in J'. now injection J'.
      * split.
        -- intros _. now apply Hbest.
        -- intros p d' [<- | []] J'. rewrite J in J'. discriminate J'.
Qed.

End WithBackends.


(** The arbitration examples of the specification: a clear difference of
    scores is settled on the scores, without the judge; a close call goes
    to the judge, and to the higher score when the judge fails. *)
Example clear_call_on_scores :
  decide (U := ascii_unicode) judge_prefers_b default_settings clear_call
    in_submission_order receipt
  = (Returned
       {| selected_source := "openai:gpt-4o-mini";
          confidence := _calculate_score candidate_plain;
          reasoning := "Selected based on quality score: 0.71 (vs ollama:llama3.2: 0.51)";
          result := candidate_plain |}, []).
Proof. vm_compute. reflexivity. Qed.

Example close_call_to_the_judge :
  decide (U := ascii_unicode) judge_prefers_b default_settings close_call
    in_submission_order receipt
  = (Returned
       {| selected_source := "ollama:llama3.2"; confidence := 85 # 100;
          reasoning := "B is more complete"; result := candidate_dated |},
     [close_prompt]).
Proof. vm_compute. reflexivity. Qed.

Example close_call_judge_down :
  decide (U := ascii_unicode) judge_down default_settings close_call
    in_submission_order receipt
  = (Returned dated_on_score, [close_prompt]).
Proof. vm_compute. reflexivity. Qed.

Example single_backend :
  decide (U := ascii_unicode) judge_prefers_b default_settings
    (without_ollama (Some candidate_plain)) in_submission_order receipt
  = (Returned
       {| selected_source := "openai:gpt-4o-mini";
          confidence := _calculate_score candidate_plain;
          reasoning := "Single extractor mode";
          result := candidate_plain |}, []).
Proof. vm_compute. reflexivity. Qed.

Example single_success :
  decide (U := ascii_unicode) judge_prefers_b default_settings
    (answering None (Some candidate_off)) in_reverse_order receipt
  = (Returned
       {| selected_source := "ollama:llama3.2";
          confidence := _calculate_score candidate_off;
          reasoning := "Only one extraction succeeded";
          result := candidate_off |}, []).
Proof. vm_compute. reflexivity. Qed.

Example no_success :
  decide (U := ascii_unicode) judge_prefers_b default_settings
    (answering None None) in_submission_order receipt
  = (Raised (RuntimeError "All extraction attempts failed"), []).
Proof. reflexivity. Qed.


(** [decision_origin] on the close call with a judge that is down: the
    Decision carries the candidate with the higher score. *)
Lemma decision_origin_witness :
  In candidate_dated (produced (U := ascii_unicode) default_settings close_call receipt).
Proof.
  apply (decision_origin (U := ascii_unicode) judge_down default_settings close_call
           in_submission_order receipt dated_on_score).
  - vm_compute. reflexivity.
  - intros prompt _. reflexivity.
Defined.

(** C9 fails as stated: in the close call, a judge that answers with a
    blend of the two candidates is believed, and the Decision carries a
    result that no backend produced. *)
Lemma decision_is_a_candidate_fails :
  ~ decision_is_a_candidate (U := ascii_unicode) judge_blends default_settings
      close_call in_submission_order receipt.
Proof.
  intros H.
  assert (E : value_of (decide (U := ascii_unicode) judge_blends default_settings
                          close_call in_submission_order receipt)
              = Returned {| selected_source := "openai:gpt-4o-mini";
                            confidence := 9 # 10;
                            reasoning := "merged the better parts";
                            result := hybrid |})
    by (vm_compute; reflexivity).
  apply H in E. vm_compute in E.
  destruct E as [E | [E | []]]; discriminate E.
Qed.

(** [_select_best_llm] itself places the first two results it is given in
    the prompt, in the order of completion: the leaders are judged because
    a run has at most two results. *)
Example select_best_llm_takes_the_first_two :
  trace_of (_select_best_llm judge_down
              [("c", candidate_off); ("a", candidate_plain); ("b", candidate_dated)]
              receipt)
  = [{| source_a := "c"; result_a := candidate_off;
        source_b := "a"; result_b := candidate_plain;
        ocr_text := prefix 1500 receipt |}].
Proof. reflexivity. Qed.

End ArbiterFacts.

(* ===================================================================== *)
(** * Part IV: further properties of the code                             *)
(* ===================================================================== *)

(** ** The validation report *)

Module ReportFacts.
Import Py Models Validators Vocabulary Scoring Samples PyFacts ValidatorFacts ScoreFacts.

Lemma enumerate_from_nth {A : Type} (l : list A) (k i : nat) (x : A) :
  nth_error l i = Some x ->
  nth_error (enumerate_from k l) i = Some ((k + i)%nat, x).
Proof.
  revert k i. induction l as [|y l IH]; intros k [|i] H; simpl in *; try discriminate.
  - injection H as ->. now rewrite Nat.add_0_r.
  - rewrite (IH (S k) i H). f_equal. f_equal. lia.
Qed.

(** X1: The report of [validate_invoice] has one verdict per line, in the
    order of the lines: the verdict at position [i] is the verdict of the
    line at position [i], and carries [i] as its index and the name of
    that line's product. *)
Theorem verdicts_follow_items (e : InvoiceExtraction) (i : nat) (item : InvoiceItem) :
  nth_error (items e) i = Some item ->
  List.length (item_calculations (validate_invoice e)) = List.length (items e)
  /\ exists v,
       nth_error (item_calculations (validate_invoice e)) i = Some v
       /\ v = validate_item_calculation item (Z.of_nat i)
       /\ get "item_index" v = Some (VInt (Z.of_nat i))
       /\ get "product" v = Some (of_opt_str (product_name item)).
Proof.
  intros H. split; [apply item_calculations_length|].
  exists (validate_item_calculation item (Z.of_nat i)).
  split; [|split; [reflexivity|]].
  - simpl. unfold enumerate.
    rewrite nth_error_map, (enumerate_from_nth _ 0 i item H). reflexivity.
  - destruct (item_cases item) as [S | (q & u & t & Hq & Hu & Ht & Nq & Nu & Nt)].
    + rewrite (item_skipped item _ S). split; reflexivity.
    + rewrite (item_checked item _ q u t Hq Hu Ht Nq Nu Nt). split; reflexivity.
Qed.

Lemma verdicts_follow_items_witness :
  List.length (item_calculations
                 (validate_invoice (invoice None [line_consistent; line_inconsistent])))
  = List.length (items (invoice None [line_consistent; line_inconsistent]))
  /\ exists v,
       nth_error (item_calculations
                    (validate_invoice (invoice None [line_consistent; line_inconsistent]))) 1
       = Some v
       /\ v = validate_item_calculation line_inconsistent (Z.of_nat 1)
       /\ get "item_index" v = Some (VInt (Z.of_nat 1))
       /\ get "product" v = Some (of_opt_str (product_name line_inconsistent)).
Proof.
  apply (verdicts_follow_items (invoice None [line_consistent; line_inconsistent]) 1
           line_inconsistent).
  reflexivity.
Defined.

Lemma says_valid_true (v : verdict) :
  says_valid v = true <-> get "valid" v = Some (VBool true).
Proof.
  unfold says_valid. destruct (get "valid" v) as [[| [|] | | |]|];
    split; congruence.
Qed.

(** X2: The report is overall valid exactly when every line verdict and the
    tax verdict say valid; in particular a candidate without lines is
    always overall valid. *)
Theorem all_valid_iff (e : InvoiceExtraction) :
  (all_valid (validate_invoice e) = true <->
   (forall v, In v (item_calculations (validate_invoice e)) ->
              get "valid" v = Some (VBool true))
   /\ get "valid" (tax_validation (validate_invoice e)) = Some (VBool true))
  /\ (items e = [] -> all_valid (validate_invoice e) = true).
Proof.
  split; [|apply no_items_all_valid].
  rewrite all_valid_spec, andb_true_iff, forallb_forall, says_valid_true.
  split; intros [Hitems Htax]; (split; [|exact Htax]);
    intros v Hv; apply says_valid_true; now apply Hitems.
Qed.

End ReportFacts.

(** ** The score *)

Module ScoreBounds.
Import Py Models Validators Vocabulary Scoring Samples PyFacts ValidatorFacts ScoreFacts.
Import Decision.








End ScoreBounds.

(** ** Arbitration: ties, failures and the order of completion *)

Module ArbiterMore.
Import Py Eff Text Models Config Extraction Decision PyFacts.
Import ArbiterVocabulary ArbiterMoreVocabulary ArbiterSamples ArbiterFacts.

Section Sorting.
Context {A : Type} (key : A -> Q).


End Sorting.



Section WithBackends.
Context {U : Unicode}.
Variable judge : judge_prompt -> option AgentDecision.

(** Every run of [decide] is of one of these kinds. *)
Lemma decide_cases (settings : Settings) (factory : agent_factory)
    (completed : completion_order) (ocr_text : str) :
  let run := decide judge settings factory completed ocr_text in
  let create := create_parallel_extractors (Ev := judge_prompt) settings factory in
  (create = (Raised EngineError, []) /\ run = (Raised EngineError, []))
  \/ (exists a,
        create = (Returned [a], [])
        /\ run = match ExtractionAgent.extract a ocr_text with
                 | None => (Raised EngineError, [])
                 | Some e =>
                     (Returned (sole "Single extractor mode"
                                     (ExtractionAgent.source_name a, e)), [])
                 end)
  \/ (exists a b,
        create = (Returned [a; b], [])
        /\ let results := flat_map (contribution ocr_text) (order completed _ [a; b]) in
           (results = []
            /\ run = (Raised (RuntimeError "All extraction attempts failed"), []))
           \/ (exists c, results = [c]
                         /\ run = (Returned (sole "Only one extraction succeeded" c), []))
           \/ (exists c1 c2 best second,
                 results = [c1; c2]
                 /\ scored_results results = [best; second]
                 /\ let gap := score_of best - score_of second in
                    let prompt := {| source_a := fst c1; result_a := snd c1;
                                     source_b := fst c2; result_b := snd c2;
                                     ocr_text := prefix 1500 ocr_text |} in
                    (15 # 100 <= gap
                     /\ exists d, run = (Returned d, []) /\ selects d best)
                    \/ (gap < 15 # 100
                        /\ exists d, judge prompt = Some d /\ run = (Returned d, [prompt]))
                    \/ (gap < 15 # 100 /\ judge prompt = None
                        /\ exists d, run = (Returned d, [prompt]) /\ selects d best))).
Proof.
  intros run create. subst run create.
  destruct (create_parallel_extractors_cases (Ev := judge_prompt) settings factory)
    as [E | [(a & E) | (a & b & E)]].
  - left. split; [exact E|]. now apply decide_not_configured.
  - right. left. exists a. split; [exact E|].
    rewrite (decide_single_extractor judge _ _ _ _ _ E).
    now destruct (ExtractionAgent.extract a ocr_text).
  - right. right. exists a, b. split; [exact E|]. cbv zeta.
    set (results := flat_map (contribution ocr_text) (order completed _ [a; b])).
    assert (Hr : value_of (_run_parallel_extractions completed ocr_text [a; b])
                 = Returned results) by reflexivity.
    assert (Hc : value_of (create_parallel_extractors (Ev := judge_prompt) settings factory)
                 = Returned [a; b]) by now rewrite E.
    pose proof (results_length _ _ _ _ Hr) as Le. simpl in Le.
    destruct (decide_at_most_one judge settings factory completed ocr_text a b results E Hr)
      as [Hnone Hone].
    destruct results as [|c1 [|c2 [|c3 rs]]] eqn:Eres; simpl in Le; try lia.
    + left. split; [reflexivity | now apply Hnone].
    + right. left. exists c1. split; [reflexivity | now apply Hone].
    + right. right.
      destruct (decide_two_or_more_outcome judge settings factory completed ocr_text
                  [a; b] [c1; c2] Hc Hr)
        as (best & second & rest & c1' & c2' & rs' & Hs & Hres & H); [simpl; lia|].
      injection Hres as <- <- <-.
      pose proof (scored_results_length [c1; c2]) as Hlen. rewrite Hs in Hlen.
      destruct rest; [|simpl in Hlen; lia].
      exists c1, c2, best, second. split; [reflexivity|]. split; [exact Hs|]. exact H.
Qed.

(** X5: A run calls the judge at most once, and shows it no more than the
    first 1500 characters of the text. *)
Theorem judge_called_at_most_once (settings : Settings) (factory : agent_factory)
    (completed : completion_order) (ocr_text : str) :
  let run := decide judge settings factory completed ocr_text in
  (List.length (trace_of run) <= 1)%nat
  /\ forall prompt,
       In prompt (trace_of run) ->
       Decision.ocr_text prompt = prefix 1500 ocr_text
       /\ (List.length (Decision.ocr_text prompt) <= 1500)%nat.
Proof.
  intros run.
  assert (P : forall p : judge_prompt,
             Decision.ocr_text p = prefix 1500 ocr_text ->
             Decision.ocr_text p = prefix 1500 ocr_text
             /\ (List.length (Decision.ocr_text p) <= 1500)%nat).
  { intros p E. split; [exact E|]. rewrite E. apply firstn_le_length. }
  destruct (decide_cases settings factory completed ocr_text)
    as [[_ H] | [(a & _ & H) | (a & b & _ & H)]]; fold run in H.
  - rewrite H. simpl. split; [lia | tauto].
  - rewrite H. destruct (ExtractionAgent.extract a ocr_text); simpl; split; lia || tauto.
  - cbv zeta in H.
    destruct H as [[_ H] | [(c & _ & H) | (c1 & c2 & best & second & _ & _ & H)]].
    + rewrite H. simpl. split; [lia | tauto].
    + rewrite H. simpl. split; [lia | tauto].
    + destruct H as [(_ & d & H & _) | [(_ & d & _ & H) | (_ & _ & d & H & _)]];
        rewrite H; simpl; (split; [lia|]); try tauto;
        intros p [<- | []]; now apply P.
Qed.

(** X6: A run fails only with the failure of the first backend's
    construction or call, or with "All extraction attempts failed"; and
    once the backends are configured it returns a Decision exactly when
    at least one of them yields a candidate: one failing backend out
    of two, or a failing judge, never fails the run. *)
Theorem decide_fails_only_without_candidates (settings : Settings)
    (factory : agent_factory) (completed : completion_order) (ocr_text : str) :
  let run := decide judge settings factory completed ocr_text in
  (forall e, value_of run = Raised e ->
             e = EngineError \/ e = RuntimeError "All extraction attempts failed")
  /\ (forall extractors,
        value_of (create_parallel_extractors (Ev := judge_prompt) settings factory)
          = Returned extractors ->
        ((exists d, value_of run = Returned d) <->
         exists extractor, In extractor extractors
                           /\ ExtractionAgent.extract extractor ocr_text <> None)).
Proof.
  intros run.
  destruct (decide_cases settings factory completed ocr_text)
    as [[C H] | [(a & C & H) | (a & b & C & H)]]; fold run in H.
  - rewrite H, C. simpl. split; [intros e [= <-]; now left | discriminate].
  - rewrite C. split.
    + intros e. rewrite H. destruct (ExtractionAgent.extract a ocr_text);
        simpl; intros [= <-]. now left.
    + intros extractors [= <-]. rewrite H.
      destruct (ExtractionAgent.extract a ocr_text) as [e|] eqn:E; simpl.
      * split; [intros _; exists a; split; [now left | congruence] | intros _; eauto].
      * split; [intros [d [=]] | intros (x & [<- | []] & Hx); congruence].
  - cbv zeta in H. rewrite C.
    assert (Hprod : flat_map (contribution ocr_text) (order completed _ [a; b]) <> [] <->
                    exists extractor, In extractor [a; b]
                                      /\ ExtractionAgent.extract extractor ocr_text <> None).
    { split.
      - intros Hne. destruct (flat_map _ _) as [|c rs] eqn:Ef; [contradiction|].
        assert (Hin : In c (flat_map (contribution ocr_text) (order completed _ [a; b])))
          by (rewrite Ef; now left).
        apply in_flat_map in Hin. destruct Hin as (x & Hx & Hc).
        exists x. split.
        + now apply (Permutation_in _ (order_perm completed _ [a; b])).
        + unfold contribution in Hc.
          destruct (ExtractionAgent.extract x ocr_text); [discriminate | destruct Hc].
      - intros (x & Hx & Hsome) Hnil.
        apply (Permutation_in _ (Permutation_sym (order_perm completed _ [a; b]))) in Hx.
        assert (Hin : In (ExtractionAgent.source_name x,
                          match ExtractionAgent.extract x ocr_text with
                          | Some e => e
                          | None => nothing_extracted
                          end)
                         (flat_map (contribution ocr_text) (order completed _ [a; b]))).
        { apply in_flat_map. exists x. split; [exact Hx|]. unfold contribution.
          destruct (ExtractionAgent.extract x ocr_text); [now left | contradiction]. }
        rewrite Hnil in Hin. destruct Hin. }
    destruct H as [[R H] | [(c & R & H) | (c1 & c2 & best & second & R & _ & H)]].
    + rewrite H. simpl. split; [intros e [= <-]; now right|].
      intros extractors [= <-]. rewrite <- Hprod, R.
      split; [intros [d [=]] | intros N; now contradiction N].
    + rewrite H. simpl. split; [discriminate|].
      intros extractors [= <-]. rewrite <- Hprod, R.
      split; [discriminate | eauto].
    + assert (Hret : exists d, value_of run = Returned d).
      { destruct H as [(_ & d & H & _) | [(_ & d & _ & H) | (_ & _ & d & H & _)]];
          rewrite H; now exists d. }
      split.
      * intros e He. destruct Hret as [d Hd]. rewrite Hd in He. discriminate He.
      * intros extractors [= <-]. rewrite <- Hprod, R.
        split; [discriminate | intros _; exact Hret].
Qed.

Lemma after_no_calls {Ev A : Type} (c : M Ev A) :
  (let (o, t) := c in (o, ([] ++ t)%list)) = c.
Proof. now destruct c. Qed.

Lemma decide_arbitrates (settings : Settings) (factory : agent_factory)
    (completed : completion_order) (ocr_text : str) (a b : ExtractionAgent.t) :
  create_parallel_extractors (Ev := judge_prompt) settings factory
    = (Returned [a; b], []) ->
  decide judge settings factory completed ocr_text
  = arbitrate judge (flat_map (contribution ocr_text) (order completed _ [a; b])) ocr_text.
Proof.
  intros E. unfold decide. rewrite E. unfold bind.
  change (_run_parallel_extractions completed ocr_text [a; b])
    with (Returned (flat_map (contribution ocr_text) (order completed _ [a; b])),
          @nil judge_prompt).
  cbv beta iota. unfold arbitrate.
  destruct (flat_map (contribution ocr_text) (order completed _ [a; b]))
    as [|[s1 e1] [|c2 rs]]; try reflexivity.
  now rewrite !after_no_calls.
Qed.

Lemma two_in_some_order (completed : completion_order) (a b : ExtractionAgent.t) :
  order completed _ [a; b] = [a; b] \/ order completed _ [a; b] = [b; a].
Proof.
  apply Permutation_length_2_inv, Permutation_sym, order_perm.
Qed.

(** Two results, sorted. *)
Lemma scored_pair (c1 c2 : candidate) :
  scored_results [c1; c2] =
    if Qle_bool (_calculate_score (snd c2)) (_calculate_score (snd c1))
    then [with_score c1; with_score c2]
    else [with_score c2; with_score c1].
Proof. reflexivity. Qed.

Lemma llm_calls_the_judge (c1 c2 : candidate) (ocr_text : str) :
  exists t,
    trace_of (_select_best_llm judge [c1; c2] ocr_text)
    = {| source_a := fst c1; result_a := snd c1;
         source_b := fst c2; result_b := snd c2;
         ocr_text := prefix 1500 ocr_text |} :: t.
Proof.
  destruct c1 as [s1 e1], c2 as [s2 e2]. unfold _select_best_llm.
  destruct (judge _); simpl; [now exists []|].
  destruct (_select_best_heuristic _) as [o t]. now exists t.
Qed.

Lemma heuristic_by_scores {Ev : Type} (r1 r2 : list candidate) :
  scored_results r1 = scored_results r2 ->
  _select_best_heuristic (Ev := Ev) r1 = _select_best_heuristic r2.
Proof. intros E. unfold _select_best_heuristic. now rewrite E. Qed.

Lemma arbitrate_swap (c1 c2 : candidate) (ocr_text : str) :
  trace_of (arbitrate judge [c1; c2] ocr_text) = [] ->
  arbitrate judge [c2; c1] ocr_text = arbitrate judge [c1; c2] ocr_text.
Proof.
  destruct (llm_calls_the_judge c1 c2 ocr_text) as [t Ht].
  unfold arbitrate.
  assert (Hs : scored_results [c2; c1] = scored_results [c1; c2]
               \/ (_calculate_score (snd c1) == _calculate_score (snd c2)
                   /\ scored_results [c1; c2] = [with_score c1; with_score c2])).
  { rewrite !scored_pair.
    destruct (Qle_bool (_calculate_score (snd c2)) (_calculate_score (snd c1))) eqn:E1;
      destruct (Qle_bool (_calculate_score (snd c1)) (_calculate_score (snd c2))) eqn:E2;
      try (left; reflexivity).
    - right. apply Qle_bool_iff in E1, E2. split; [now apply Qle_antisym | reflexivity].
    - exfalso. apply not_true_iff_false in E1, E2. rewrite Qle_bool_iff in E1, E2.
      apply Qnot_le_lt in E1, E2. apply (Qlt_irrefl _ (Qlt_trans _ _ _ E1 E2)). }
  destruct Hs as [Hs | [Heq Hs]].
  - rewrite Hs. destruct (scored_results [c1; c2]) as [|[cb sb] [|[cs ss] rest]] eqn:E12;
      try reflexivity.
    destruct (Qltb (Qabs (sb - ss)) (15 # 100)).
    + intros H. rewrite Ht in H. discriminate H.
    + intros _. apply heuristic_by_scores. now rewrite Hs, E12.
  - rewrite Hs. unfold with_score, score_of. simpl snd.
    assert (G : Qltb (Qabs (_calculate_score (snd c1) - _calculate_score (snd c2)))
                     (15 # 100) = true).
    { apply Qltb_true. rewrite Heq.
      assert (Z : _calculate_score (snd c2) - _calculate_score (snd c2) == 0) by ring.
      rewrite Z. reflexivity. }
    rewrite G. intros H. rewrite Ht in H. discriminate H.
Qed.

(** X7: When a run ends without a call to the judge, its outcome does not
    depend on the order in which the backends completed. *)
Theorem order_irrelevant_without_judge (settings : Settings) (factory : agent_factory)
    (completed completed' : completion_order) (ocr_text : str) :
  trace_of (decide judge settings factory completed ocr_text) = [] ->
  decide judge settings factory completed' ocr_text
  = decide judge settings factory completed ocr_text.
Proof.
  destruct (create_parallel_extractors_cases (Ev := judge_prompt) settings factory)
    as [E | [(a & E) | (a & b & E)]].
  - intros _. now rewrite !(decide_not_configured judge _ _ _ _ _ E).
  - intros _. now rewrite !(decide_single_extractor judge _ _ _ _ _ E).
  - rewrite !(decide_arbitrates _ _ _ _ _ _ E).
    destruct (two_in_some_order completed a b) as [-> | ->];
      destruct (two_in_some_order completed' a b) as [-> | ->];
      try (intros _; reflexivity);
      cbn [flat_map]; unfold contribution;
      destruct (ExtractionAgent.extract a ocr_text) as [ea|];
      destruct (ExtractionAgent.extract b ocr_text) as [eb|];
      try (intros _; reflexivity);
      cbn [app]; apply arbitrate_swap.
Qed.

Lemma score_of_nothing : _calculate_score nothing_extracted == 4 # 10.
Proof. reflexivity. Qed.

(** X8: On a blank text no backend is consulted: both of two configured
    backends yield the empty candidate, the two scores (0.4) tie, and the
    judge is asked to choose between two empty candidates; if the judge
    fails, the backend that completed first is selected, with confidence
    0.4. *)
Theorem blank_text_goes_to_the_judge (settings : Settings) (factory : agent_factory)
    (completed : completion_order) (ocr_text : str) (a b : ExtractionAgent.t) :
  strip ocr_text = [] ->
  value_of (create_parallel_extractors (Ev := judge_prompt) settings factory)
    = Returned [a; b] ->
  let run := decide judge settings factory completed ocr_text in
  exists x y,
    order completed _ [a; b] = [x; y]
    /\ let prompt := {| source_a := ExtractionAgent.source_name x;
                        result_a := nothing_extracted;
                        source_b := ExtractionAgent.source_name y;
                        result_b := nothing_extracted;
                        ocr_text := prefix 1500 ocr_text |} in
       trace_of run = [prompt]
       /\ (forall d, judge prompt = Some d -> value_of run = Returned d)
       /\ (judge prompt = None ->
           exists d, value_of run = Returned d
                     /\ selected_source d = ExtractionAgent.source_name x
                     /\ result d = nothing_extracted
                     /\ confidence d == 4 # 10).
Proof.
  intros B Hc run. subst run.
  assert (E : create_parallel_extractors (Ev := judge_prompt) settings factory
              = (Returned [a; b], [])).
  { destruct (create_parallel_extractors_cases (Ev := judge_prompt) settings factory)
      as [E | [(a' & E) | (a' & b' & E)]]; rewrite E in Hc; simpl in Hc;
      try discriminate Hc. now injection Hc as <- <-. }
  rewrite (decide_arbitrates _ _ _ _ _ _ E).
  assert (X : forall x, contribution ocr_text x
                        = [(ExtractionAgent.source_name x, nothing_extracted)]).
  { intros x. unfold contribution, ExtractionAgent.extract. now rewrite B. }
  assert (R : forall x y,
             order completed _ [a; b] = [x; y] ->
             flat_map (contribution ocr_text) (order completed _ [a; b])
             = [(ExtractionAgent.source_name x, nothing_extracted);
                (ExtractionAgent.source_name y, nothing_extracted)]).
  { intros x y ->. cbn [flat_map app]. now rewrite !X. }
  assert (G : forall x y,
             arbitrate judge
               [(ExtractionAgent.source_name x, nothing_extracted);
                (ExtractionAgent.source_name y, nothing_extracted)] ocr_text
             = _select_best_llm judge
                 [(ExtractionAgent.source_name x, nothing_extracted);
                  (ExtractionAgent.source_name y, nothing_extracted)] ocr_text).
  { intros x y. reflexivity. }
  assert (Main : forall x y,
             order completed _ [a; b] = [x; y] ->
             let prompt := {| source_a := ExtractionAgent.source_name x;
                              result_a := nothing_extracted;
                              source_b := ExtractionAgent.source_name y;
                              result_b := nothing_extracted;
                              Decision.ocr_text := prefix 1500 ocr_text |} in
             let run := arbitrate judge
                          (flat_map (contribution ocr_text) (order completed _ [a; b]))
                          ocr_text in
             trace_of run = [prompt]
             /\ (forall d, judge prompt = Some d -> value_of run = Returned d)
             /\ (judge prompt = None ->
                 exists d, value_of run = Returned d
                           /\ selected_source d = ExtractionAgent.source_name x
                           /\ result d = nothing_extracted
                           /\ confidence d == 4 # 10)).
  { intros x y Hxy prompt run. subst run. rewrite (R x y Hxy), G.
    unfold _select_best_llm. fold prompt.
    destruct (judge prompt) as [d|] eqn:J.
    - split; [reflexivity|]. split; [intros d' [= <-]; reflexivity | discriminate].
    - split; [reflexivity|]. split; [discriminate|]. intros _.
      eexists. split; [reflexivity|].
      split; [reflexivity|]. split; [reflexivity|]. apply score_of_nothing. }
  destruct (two_in_some_order completed a b) as [Ho | Ho].
  - exists a, b. split; [exact Ho | now apply Main].
  - exists b, a. split; [exact Ho | now apply Main].
Qed.

End WithBackends.

(** The clear call, completed in submission order and in reverse. *)
Lemma order_irrelevant_without_judge_witness :
  decide (U := ascii_unicode) judge_prefers_b default_settings clear_call
    in_reverse_order receipt
  = decide (U := ascii_unicode) judge_prefers_b default_settings clear_call
      in_submission_order receipt.
Proof.
  apply (order_irrelevant_without_judge (U := ascii_unicode) judge_prefers_b
           default_settings clear_call in_submission_order in_reverse_order receipt).
  vm_compute. reflexivity.
Defined.


(** A text of blanks, two backends that would have answered, and a judge
    that is down. *)
Lemma blank_text_goes_to_the_judge_witness :
  let run := decide (U := ascii_unicode) judge_down default_settings close_call
               in_submission_order (of_string "   ") in
  exists x y,
    order in_submission_order _ [close_call_openai; close_call_ollama] = [x; y]
    /\ let prompt := {| source_a := ExtractionAgent.source_name x;
                        result_a := nothing_extracted;
                        source_b := ExtractionAgent.source_name y;
                        result_b := nothing_extracted;
                        ocr_text := prefix 1500 (of_string "   ") |} in
       trace_of run = [prompt]
       /\ (forall d, judge_down prompt = Some d -> value_of run = Returned d)
       /\ (judge_down prompt = None ->
           exists d, value_of run = Returned d
                     /\ selected_source d = ExtractionAgent.source_name x
                     /\ result d = nothing_extracted
                     /\ confidence d == 4 # 10).
Proof.
  apply (blank_text_goes_to_the_judge (U := ascii_unicode) judge_down default_settings
           close_call in_submission_order (of_string "   ")
           close_call_openai close_call_ollama);
    reflexivity.
Defined.

End ArbiterMore.

(** ** The provider chain: what was tried, and what is returned *)

Module ChainMore.
Import Py Eff Text Providers ChainVocabulary ChainSamples PyFacts ChainFacts.
Import OCRProviderChain.

Lemma successes_app (image_path lang : string) (l1 l2 : list OCRProvider) :
  successes image_path lang (l1 ++ l2)
  = (successes image_path lang l1 ++ successes image_path lang l2)%list.
Proof. apply flat_map_app. Qed.

Lemma successes_pass_on (min_conf : Q) (image_path lang : string)
    (ps : list OCRProvider) (r : OCRResult) :
  Forall (passes_on min_conf image_path lang) ps ->
  In r (successes image_path lang ps) -> confidence r < min_conf.
Proof.
  intros H Hr. apply in_flat_map in Hr. destruct Hr as (p & Hp & Hr).
  rewrite Forall_forall in H. apply (H p Hp).
  destruct (Providers.extract p image_path lang) as [r'|]; [|destruct Hr].
  destruct Hr as [<- | []]. reflexivity.
Qed.

(** The two ways in which a run of the chain ends. *)
Lemma chain_runs (self : t) (image_path lang : string) :
  let run := extract self image_path lang in
  let entry := invocation_of image_path lang in
  (exists pre p post r,
      providers self = (pre ++ p :: post)%list
      /\ Forall (passes_on (min_confidence self) image_path lang) pre
      /\ Providers.extract p image_path lang = Some r
      /\ min_confidence self <= confidence r
      /\ run = (Returned r, map entry (pre ++ [p])))
  \/ (Forall (passes_on (min_confidence self) image_path lang) (providers self)
      /\ run = (value_of (best_or_fail (successes image_path lang (providers self))),
                map entry (providers self))).
Proof.
  intros run entry. subst run entry. unfold extract.
  destruct (first_confident (min_confidence self) image_path lang (providers self))
    as [(pre & p & post & r & Hps & Hpre & Hp & Hr) | Hall].
  - left. exists pre, p, post, r. repeat split; try assumption.
    rewrite Hps.
    rewrite (run_passes_on _ image_path lang pre (p :: post) [] Hpre).
    rewrite extract_from_cons, Hp.
    apply Qgeb_true in Hr. rewrite Hr. simpl. now rewrite map_app.
  - right. split; [exact Hall|].
    pose proof (run_passes_on _ image_path lang (providers self) [] [] Hall) as H.
    rewrite !app_nil_r in H. rewrite H. simpl.
    destruct (successes image_path lang (providers self)); simpl; now rewrite app_nil_r.
Qed.

(** X9: The chain calls its providers in list order, each at most once and
    none after the one whose result it returns: the calls logged are those
    of a prefix of the provider list.  When it returns a result below the
    threshold, or raises, it has called every provider. *)
Theorem chain_calls_a_prefix (self : t) (image_path lang : string) :
  let run := extract self image_path lang in
  let invoked := firstn (List.length (trace_of run)) (providers self) in
  trace_of run = map (invocation_of image_path lang) invoked
  /\ (forall r, value_of run = Returned r -> confidence r < min_confidence self ->
                invoked = providers self)
  /\ (forall e, value_of run = Raised e -> invoked = providers self).
Proof.
  intros run invoked. subst invoked.
  destruct (chain_runs self image_path lang)
    as [(pre & p & post & r & Hps & Hpre & Hp & Hr & Hrun) | [Hall Hrun]];
    fold run in Hrun; rewrite Hrun; unfold trace_of, value_of; cbn [fst snd].
  - rewrite length_map, Hps.
    assert (F : firstn (List.length (pre ++ [p])) (pre ++ p :: post) = (pre ++ [p])%list).
    { change (p :: post) with ([p] ++ post)%list. rewrite app_assoc.
      rewrite firstn_app, firstn_all, Nat.sub_diag. simpl. apply app_nil_r. }
    rewrite F. split; [reflexivity|]. split.
    + intros r' [= <-] L. exfalso. apply (Qlt_not_le _ _ L Hr).
    + discriminate.
  - rewrite length_map, firstn_all. split; [reflexivity|]. split; reflexivity.
Qed.

(** X10: Whatever the chain returns is a result of one of the providers it
    called, and no provider it called gave a result of higher
    confidence. *)
Theorem chain_returns_best_of_invoked (self : t) (image_path lang : string)
    (r : OCRResult) :
  let run := extract self image_path lang in
  let invoked := firstn (List.length (trace_of run)) (providers self) in
  value_of run = Returned r ->
  best_of (successes image_path lang invoked) r.
Proof.
  intros run invoked. subst invoked.
  destruct (chain_runs self image_path lang)
    as [(pre & p & post & r0 & Hps & Hpre & Hp & Hr & Hrun) | [Hall Hrun]];
    fold run in Hrun; rewrite Hrun; unfold trace_of, value_of; cbn [fst snd].
  - intros [= <-]. rewrite length_map, Hps.
    assert (F : firstn (List.length (pre ++ [p])) (pre ++ p :: post) = (pre ++ [p])%list).
    { change (p :: post) with ([p] ++ post)%list. rewrite app_assoc.
      rewrite firstn_app, firstn_all, Nat.sub_diag. simpl. apply app_nil_r. }
    rewrite F, successes_app. unfold successes at 2. simpl. rewrite Hp. simpl.
    split.
    + apply in_or_app. right. now left.
    + intros r' Hr'. apply in_app_or in Hr'. destruct Hr' as [Hr' | [<- | []]].
      * apply Qlt_le_weak. apply Qlt_le_trans with (min_confidence self); [|exact Hr].
        now apply (successes_pass_on _ image_path lang pre).
      * apply Qle_refl.
  - rewrite length_map, firstn_all.
    destruct (successes image_path lang (providers self)) as [|r0 rs]; simpl;
      [discriminate|].
    intros [= <-]. apply max_by_from_best.
Qed.

(** Two unsure engines: the better of the two results comes back. *)
Lemma chain_returns_best_of_invoked_witness :
  best_of
    (successes "scan.png" "en"
       (firstn (List.length (trace_of (extract (chain engines_unsure) "scan.png" "en")))
               (providers (chain engines_unsure))))
    (scan (45 # 100) "paddleocr").
Proof.
  apply (chain_returns_best_of_invoked (chain engines_unsure) "scan.png" "en").
  reflexivity.
Defined.

End ChainMore.

(** ** The quality gate: retry parameters and the model-assisted path *)

Module GateMore.
Import Py Eff Text Providers OCRAgent GateVocabulary GateSamples PyFacts GateFacts.

(** *** Dictionaries *)

Lemma get_set_same {V : Type} (k : string) (v : V) (d : dict V) :
  get k (set k v d) = Some v.
Proof.
  induction d as [|[k' v'] d IH]; simpl.
  - now rewrite String.eqb_refl.
  - destruct (k =? k')%string eqn:E; simpl.
    + now rewrite String.eqb_refl.
    + now rewrite E.
Qed.

Lemma get_set_other {V : Type} (k k' : string) (v : V) (d : dict V) :
  k <> k' -> get k (set k' v d) = get k d.
Proof.
  intros N. apply String.eqb_neq in N.
  induction d as [|[k'' v''] d IH]; simpl.
  - now rewrite N.
  - destruct (k' =? k'')%string eqn:E; simpl.
    + apply String.eqb_eq in E. subst k''. now rewrite N.
    + destruct (k =? k'')%string; [reflexivity | exact IH].
Qed.

(** Keys that [other] does not mention keep their value under
    [d.update(other)]. *)
Lemma get_update_other {V : Type} (d other : dict V) (k : string) :
  ~ In k (map fst other) -> get k (update d other) = get k d.
Proof.
  unfold update. revert d.
  induction other as [|[k' v'] other IH]; intros d H; simpl in *; [reflexivity|].
  rewrite IH by tauto. apply get_set_other. intros ->. tauto.
Qed.

(** [d.update(other)] gives every key of [other] its value in [other]
    (the keys of [other] being distinct). *)
Lemma get_update {V : Type} (d other : dict V) (k : string) (v : V) :
  NoDup (map fst other) -> get k other = Some v -> get k (update d other) = Some v.
Proof.
  revert d.
  induction other as [|[k' v'] other IH]; intros d Hnd H; simpl in *; [discriminate|].
  apply NoDup_cons_iff in Hnd. destruct Hnd as [Hk' Hnd].
  change (update d ((k', v') :: other)) with (update (set k' v' d) other).
  destruct (k =? k')%string eqn:E.
  - injection H as <-. apply String.eqb_eq in E. subst k'.
    rewrite get_update_other by exact Hk'. apply get_set_same.
  - now apply IH.
Qed.

(** *** Retry parameters *)

(** Every entry of the table has distinct keys, and sets the detection
    threshold. *)
Lemma table_entries (issue : string) (adjustments : dict Q) :
  get issue OCR_RETRY_PARAMS = Some adjustments ->
  NoDup (map fst adjustments)
  /\ exists v, get "det_db_thresh" adjustments = Some v.
Proof.
  unfold OCR_RETRY_PARAMS. simpl.
  repeat (destruct (issue =? _)%string;
          [intros [= <-]; split;
           [repeat (constructor; [simpl; intuition discriminate|]); constructor
           | eexists; reflexivity]|]).
  discriminate.
Qed.

(** The parameters collected over the issues, before the default. *)
Lemma collected_unknown (issues : list string) (params : dict Q) :
  (forall i, In i issues -> get i OCR_RETRY_PARAMS = None) ->
  fold_left (fun params issue =>
               match get issue OCR_RETRY_PARAMS with
               | Some adjustments => update params adjustments
               | None => params
               end) issues params = params.
Proof.
  revert params. induction issues as [|i issues IH]; intros params H; cbn [fold_left];
    [reflexivity|].
  rewrite (H i (or_introl eq_refl)). apply IH. intros j Hj. apply H. now right.
Qed.

(** Either the table knows none of the issues, or there is a last one
    that it knows. *)
Lemma last_known (issues : list string) :
  (forall i, In i issues -> get i OCR_RETRY_PARAMS = None)
  \/ exists pre i post adjustments,
       issues = (pre ++ i :: post)%list
       /\ get i OCR_RETRY_PARAMS = Some adjustments
       /\ forall j, In j post -> get j OCR_RETRY_PARAMS = None.
Proof.
  induction issues as [|i issues IH]; [left; intros i []|].
  destruct IH as [Hnone | (pre & j & post & adj & -> & Hj & Hpost)].
  - destruct (get i OCR_RETRY_PARAMS) as [adj|] eqn:E.
    + right. exists [], i, issues, adj. repeat split; assumption.
    + left. intros j [<- | Hj]; [exact E | now apply Hnone].
  - right. exists (i :: pre), j, post, adj. repeat split; assumption.
Qed.

Lemma retry_params_unknown (issues : list string) :
  (forall i, In i issues -> get i OCR_RETRY_PARAMS = None) ->
  _get_retry_params issues = [("det_db_thresh", 3 # 10)].
Proof.
  intros H. unfold _get_retry_params. now rewrite (collected_unknown issues [] H).
Qed.

Lemma retry_params_known (pre post : list string) (i : string)
    (adjustments : dict Q) (k : string) (v : Q) :
  get i OCR_RETRY_PARAMS = Some adjustments ->
  (forall j, In j post -> get j OCR_RETRY_PARAMS = None) ->
  get k adjustments = Some v ->
  get k (_get_retry_params (pre ++ i :: post)) = Some v.
Proof.
  intros Hi Hpost Hk. unfold _get_retry_params.
  rewrite fold_left_app. cbn [fold_left]. rewrite Hi, (collected_unknown post _ Hpost).
  destruct (table_entries i adjustments Hi) as [Hnd _].
  pose proof (get_update
                (fold_left (fun params issue =>
                              match get issue OCR_RETRY_PARAMS with
                              | Some adjustments => update params adjustments
                              | None => params
                              end) pre []) adjustments k v Hnd Hk) as G.
  destruct (update _ adjustments) as [|kv params]; [discriminate G | exact G].
Qed.

Lemma retry_params_threshold (issues : list string) :
  exists v, get "det_db_thresh" (_get_retry_params issues) = Some v.
Proof.
  destruct (last_known issues) as [Hnone | (pre & i & post & adj & -> & Hi & Hpost)].
  - rewrite (retry_params_unknown issues Hnone). now exists (3 # 10).
  - destruct (table_entries i adj Hi) as [_ [v Hv]]. exists v.
    now apply (retry_params_known pre post i adj).
Qed.

(** X11: The parameters derived from a list of issues: issues that the table
    does not list change nothing; the adjustments of the last issue that
    it lists are all in the result (on a conflict the later issue wins);
    without any listed issue the result is the one generic adjustment
    det_db_thresh = 0.3; and in every case the result sets
    det_db_thresh, so it is never empty. *)
Theorem retry_params_last_issue_wins :
  (forall issues,
      (forall i, In i issues -> get i OCR_RETRY_PARAMS = None) ->
      _get_retry_params issues = [("det_db_thresh", 3 # 10)])
  /\ (forall pre i post adjustments k v,
        get i OCR_RETRY_PARAMS = Some adjustments ->
        (forall j, In j post -> get j OCR_RETRY_PARAMS = None) ->
        get k adjustments = Some v ->
        get k (_get_retry_params (pre ++ i :: post)) = Some v)
  /\ (forall issues, exists v, get "det_db_thresh" (_get_retry_params issues) = Some v).
Proof.
  split; [exact retry_params_unknown|]. split; [|exact retry_params_threshold].
  intros pre i post adjustments k v. apply retry_params_known.
Qed.

Example retry_params_of_three_issues :
  _get_retry_params ["text_too_short"; "no_numbers"; "excessive_special_chars"]
  = [("det_db_thresh", 35 # 100); ("det_db_unclip_ratio", 2)].
Proof. reflexivity. Qed.

Example retry_params_later_wins :
  _get_retry_params ["excessive_special_chars"; "smudged"; "no_numbers"; "torn"]
  = [("det_db_thresh", 25 # 100); ("det_db_unclip_ratio", 2)].
Proof. reflexivity. Qed.

(** *** The gate as a whole *)

Section WithUnicode.
Context {U : Unicode}.
Variable backend : str -> option OCRQualityAssessment.

(** The ways in which [assess_quality] ends. *)
Lemma gate_cases (ocr_result : OCRResult) :
  let run := assess_quality backend ocr_result in
  let text := text ocr_result in
  (~ passes_prefilter text
   /\ exists a, run = (Returned a, [])
                /\ should_retry a = true
                /\ truthy_params (suggested_params a) = true)
  \/ (passes_prefilter text
      /\ exists a, backend (prefix 2000 text) = Some a
                   /\ exists a', run = (Returned a', [prefix 2000 text])
                                 /\ should_retry a' = should_retry a
                                 /\ (should_retry a = true ->
                                     truthy_params (suggested_params a') = true))
  \/ (passes_prefilter text
      /\ backend (prefix 2000 text) = None
      /\ exists a, run = (Returned a, [prefix 2000 text])
                   /\ suggested_params a = None).
Proof.
  intros run text. subst run text. unfold assess_quality, passes_prefilter, blank.
  assert (T : forall issues, truthy_params (Some (_get_retry_params issues)) = true).
  { intros issues. destruct (retry_params_threshold issues) as [v Hv]. simpl.
    destruct (_get_retry_params issues); [discriminate Hv | reflexivity]. }
  destruct (strip (text ocr_result)) as [|c s] eqn:E; cbn [nonempty negb].
  - left. split; [tauto|]. eexists. split; [reflexivity|]. split; reflexivity.
  - cbv zeta.
    destruct (2 <=? List.length (quick_issues (text ocr_result)))%nat eqn:L.
    + left. apply Nat.leb_le in L. split; [lia|].
      eexists. split; [reflexivity|]. split; [reflexivity | apply T].
    + right. apply Nat.leb_gt in L.
      assert (P : c :: s <> [] /\ (List.length (quick_issues (text ocr_result)) < 2)%nat)
        by (split; [discriminate | exact L]).
      destruct (backend (prefix 2000 (text ocr_result))) as [a|] eqn:B.
      * left. split; [exact P|]. exists a. split; [reflexivity|]. simpl.
        destruct (should_retry a) eqn:R; simpl.
        -- destruct (truthy_params (suggested_params a)) eqn:Q; simpl.
           ++ eexists. split; [reflexivity|].
              split; [first [reflexivity | exact R] | intros _; exact Q].
           ++ eexists. split; [reflexivity|].
              split; [first [reflexivity | exact R] | intros _; apply T].
        -- eexists. split; [reflexivity|].
           split; [first [reflexivity | exact R] | discriminate].
      * right. split; [exact P|]. split; [reflexivity|].
        eexists. split; reflexivity.
Qed.

(** X12: [assess_quality] never raises.  It calls the model backend once when
    the text gets through the pre-filter and not at all otherwise, and
    shows it no more than the first 2000 characters of the text. *)
Theorem gate_always_answers (ocr_result : OCRResult) :
  let run := assess_quality backend ocr_result in
  (exists a, value_of run = Returned a)
  /\ (passes_prefilter (text ocr_result) -> trace_of run = [prefix 2000 (text ocr_result)])
  /\ (~ passes_prefilter (text ocr_result) -> trace_of run = [])
  /\ (forall shown, In shown (trace_of run) -> (List.length shown <= 2000)%nat).
Proof.
  intros run.
  assert (Len : forall shown,
             In shown [prefix 2000 (text ocr_result)] -> (List.length shown <= 2000)%nat).
  { intros shown [<- | []]. apply firstn_le_length. }
  destruct (gate_cases ocr_result)
    as [(N & a & H & _) | [(P & a & _ & a' & H & _) | (P & _ & a & H & _)]];
    fold run in H; rewrite H; unfold value_of, trace_of; cbn [fst snd];
    (split; [eauto|]); (split; [tauto || (intros _; reflexivity)|]);
    (split; [tauto || (intros _; reflexivity) | try exact Len]).
  intros shown [].
Qed.

(** X13: An assessment that recommends a retry comes with retry parameters,
    except the fallback built after a failed call to the backend, which
    has none. *)
Theorem gate_retry_has_params (ocr_result : OCRResult) (a : OCRQualityAssessment) :
  value_of (assess_quality backend ocr_result) = Returned a ->
  should_retry a = true ->
  truthy_params (suggested_params a) = true
  \/ (backend (prefix 2000 (text ocr_result)) = None
      /\ passes_prefilter (text ocr_result)
      /\ suggested_params a = None).
Proof.
  intros Hv Hr.
  destruct (gate_cases ocr_result)
    as [(N & a0 & H & _ & T) | [(P & a0 & _ & a' & H & R & T) | (P & B & a0 & H & S)]];
    rewrite H in Hv; injection Hv as <-.
  - now left.
  - left. apply T. now rewrite <- R.
  - right. tauto.
Qed.

End WithUnicode.

(** A readable text read with low confidence while the backend is down:
    a retry is recommended, without parameters. *)
Lemma gate_retry_has_params_witness :
  truthy_params
    (suggested_params
       {| quality := poor; confidence := 4 # 10; issues := ["assessment_failed"];
          should_retry := true; suggested_params := None |}) = true
  \/ (backend_down (prefix 2000 (text (readable (4 # 10)))) = None
      /\ passes_prefilter (U := ascii_unicode) (text (readable (4 # 10)))
      /\ suggested_params
           {| quality := poor; confidence := 4 # 10; issues := ["assessment_failed"];
              should_retry := true; suggested_params := None |} = None).
Proof.
  apply (gate_retry_has_params (U := ascii_unicode) backend_down (readable (4 # 10)));
    reflexivity.
Defined.

End GateMore.

(** ** Retrying *)

Module RetryFacts.
Import Py Sys Retry PyFacts.

Section WithFunction.
Context {Ev A : Type}.
Variable exceptions : error -> bool.
Variable func : nat -> R Ev A.
Variables (max_attempts : Z) (backoff : Q).
Hypothesis backoff_nonneg : 0 <= backoff.

Lemma sleep_nonneg (seconds : Q) :
  0 <= seconds -> sleep (Ev := Ev) seconds = (Ok tt, [Slept seconds]).
Proof.
  intros H. unfold sleep. apply Qltb_false in H. now rewrite H.
Qed.

Lemma slept_app (l1 l2 : list (log Ev)) : slept (l1 ++ l2) = (slept l1 ++ slept l2)%list.
Proof.
  induction l1 as [|[ev|s] l1 IH]; simpl; [reflexivity | exact IH | now rewrite IH].
Qed.

Lemma did_app (l1 l2 : list (log Ev)) : did (l1 ++ l2) = (did l1 ++ did l2)%list.
Proof.
  induction l1 as [|[ev|s] l1 IH]; simpl; [reflexivity | now rewrite IH | exact IH].
Qed.

Lemma slept_Did (l : list Ev) : slept (map Did l) = [].
Proof. induction l; simpl; auto. Qed.

Lemma did_Did (l : list Ev) : did (map Did l) = l.
Proof. induction l; simpl; congruence. Qed.

Lemma slept_retried (from n : nat) (delay : Q) :
  slept (retried func from n delay backoff) = pauses delay backoff n.
Proof.
  revert from delay. induction n as [|n IH]; intros from delay; simpl; [reflexivity|].
  rewrite slept_app, slept_Did. simpl. now rewrite IH.
Qed.

Lemma did_retried (from n : nat) (delay : Q) :
  did (retried func from n delay backoff) = events_of_attempts func from n.
Proof.
  revert from delay. induction n as [|n IH]; intros from delay; simpl; [reflexivity|].
  rewrite did_app, did_Did. simpl. now rewrite IH.
Qed.

Lemma delay_after_nonneg (delay : Q) (n : nat) :
  0 <= delay -> 0 <= delay_after delay backoff n.
Proof.
  revert delay. induction n as [|n IH]; intros delay H; simpl; [exact H|].
  apply IH. now apply Qmult_le_0_compat.
Qed.

(** After [n] failed attempts that are retried, the loop is where it
    would be had it started at attempt [from + n] with the pause grown [n]
    times; the failures and pauses are in the log. *)
Lemma attempts_after_failures (n todo from : nat) (delay : Q) (last : option error) :
  keeps_failing exceptions func from n ->
  (Z.of_nat (from + n) <= max_attempts)%Z ->
  0 <= delay ->
  exists last',
    (n = 0%nat -> last' = last)
    /\ ((0 < n)%nat ->
        exists e, last' = Some e /\ value_of (func (from + n - 1)%nat) = Err e)
    /\ attempts exceptions func max_attempts backoff (n + todo) from delay last
       = (value_of (attempts exceptions func max_attempts backoff todo (from + n)%nat
                      (delay_after delay backoff n) last'),
          (retried func from n delay backoff
           ++ trace_of (attempts exceptions func max_attempts backoff todo (from + n)%nat
                          (delay_after delay backoff n) last'))%list).
Proof.
  revert from delay last. induction n as [|n IH]; intros from delay last Hfail Hmax Hd.
  - exists last. split; [reflexivity|]. split; [lia|].
    rewrite Nat.add_0_r. simpl. now destruct (attempts _ _ _ _ _ _ _ _).
  - destruct (Hfail from) as (e & He & Hexc); [lia|].
    destruct (IH (S from) (delay * backoff) (Some e)) as (last' & H0 & Hpos & Hrun).
    + intros j Hj. apply Hfail. lia.
    + lia.
    + now apply Qmult_le_0_compat.
    + exists last'. split; [lia|]. split.
      * intros _. destruct n as [|n'].
        -- exists e. split; [now apply H0|].
           replace (from + 1 - 1)%nat with from by lia. exact He.
        -- destruct Hpos as (e' & -> & He'); [lia|]. exists e'. split; [reflexivity|].
           replace (from + S (S n') - 1)%nat with (S from + S n' - 1)%nat by lia.
           exact He'.
      * cbn [Nat.add attempts].
        unfold value_of in He. unfold relog.
        destruct (func from) as [o t] eqn:Ef. simpl in He. subst o. cbn [fst snd].
        rewrite Hexc.
        assert (L : (Z.of_nat from <? max_attempts)%Z = true) by (apply Z.ltb_lt; lia).
        rewrite L, (sleep_nonneg delay Hd). cbn [bind].
        rewrite Hrun. replace (S from + n)%nat with (from + S n)%nat by lia.
        cbn [retried delay_after]. rewrite Ef. unfold trace_of at 2. cbn [snd app].
        unfold value_of, trace_of. cbn [fst snd]. rewrite <- !app_assoc. reflexivity.
Qed.

Lemma events_of_attempts_snoc (from n : nat) :
  events_of_attempts func from (S n)
  = (events_of_attempts func from n ++ trace_of (func (from + n)%nat))%list.
Proof.
  revert from. induction n as [|n IH]; intros from.
  - simpl. now rewrite Nat.add_0_r, app_nil_r.
  - change (events_of_attempts func from (S (S n)))
      with (trace_of (func from) ++ events_of_attempts func (S from) (S n))%list.
    rewrite IH. replace (S from + n)%nat with (from + S n)%nat by lia.
    cbn [events_of_attempts]. now rewrite app_assoc.
Qed.

Lemma events_up_to (k : nat) :
  (1 <= k)%nat ->
  events_of_attempts func 1 k
  = (events_of_attempts func 1 (k - 1) ++ trace_of (func k))%list.
Proof.
  intros H. destruct k as [|k]; [lia|].
  rewrite events_of_attempts_snoc. now replace (S k - 1)%nat with k by lia.
Qed.

(** The [i]-th pause is [delay * backoff ^ i]. *)
Lemma pauses_nth (n i : nat) (delay x : Q) :
  nth_error (pauses delay backoff n) i = Some x -> x == delay * backoff ^ Z.of_nat i.
Proof.
  revert i delay. induction n as [|n IH]; intros [|i] delay H; simpl in H;
    try discriminate.
  - injection H as <-. change (backoff ^ Z.of_nat 0) with 1. ring.
  - apply IH in H. rewrite H.
    rewrite Nat2Z.inj_succ, <- Z.add_1_r, Qpower_plus' by lia.
    rewrite Qpower_1_r. ring.
Qed.

(** X14: [with_retry] stops at the first attempt that returns, or that raises
    an error the [except] clause does not match: when the attempts before
    attempt [k] all fail with matched errors, and attempt [k] (not beyond
    [max_attempts]) returns or raises an unmatched error, the outcome is
    that of attempt [k], the function has run exactly [k] times, and
    [k - 1] pauses were taken, the [i]-th of [delay * backoff ^ i]
    seconds. *)
Theorem retry_stops_at (k : nat) (delay : Q) :
  (1 <= k)%nat -> (Z.of_nat k <= max_attempts)%Z ->
  0 <= delay ->
  keeps_failing exceptions func 1 (k - 1) ->
  ((exists a, value_of (func k) = Ok a)
   \/ (exists e, value_of (func k) = Err e /\ exceptions e = false)) ->
  let run := with_retry exceptions func max_attempts delay backoff in
  value_of run = value_of (func k)
  /\ did (trace_of run) = events_of_attempts func 1 k
  /\ slept (trace_of run) = pauses delay backoff (k - 1)
  /\ (forall i x, nth_error (slept (trace_of run)) i = Some x ->
                  x == delay * backoff ^ Z.of_nat i).
Proof.
  intros Hk Hmax Hd Hfail Hlast run.
  assert (Hrun : run = (value_of (func k),
                        (retried func 1 (k - 1) delay backoff
                         ++ map Did (trace_of (func k)))%list)).
  { subst run. unfold with_retry.
    replace (Z.to_nat max_attempts) with ((k - 1) + S (Z.to_nat max_attempts - k))%nat by lia.
    destruct (attempts_after_failures (k - 1) (S (Z.to_nat max_attempts - k)) 1 delay None)
      as (last' & _ & _ & ->); [exact Hfail | lia | exact Hd |].
    replace (1 + (k - 1))%nat with k by lia.
    cbn [attempts]. unfold relog, value_of, trace_of in *.
    destruct (func k) as [o t]. cbn [fst snd] in *.
    destruct Hlast as [[a ->] | (e & -> & He)]; [reflexivity|].
    now rewrite He. }
  rewrite Hrun.
  change (trace_of (value_of (func k),
                    (retried func 1 (k - 1) delay backoff
                     ++ map Did (trace_of (func k)))%list))
    with (retried func 1 (k - 1) delay backoff ++ map Did (trace_of (func k)))%list.
  rewrite did_app, did_retried, did_Did, slept_app, slept_retried, slept_Did, app_nil_r.
  split; [reflexivity|]. split.
  - symmetry. now apply events_up_to.
  - split; [reflexivity|]. intros i x. apply pauses_nth.
Qed.

(** X15: When all [max_attempts] attempts fail with matched errors,
    [with_retry] raises the error of the last attempt, after running the
    function [max_attempts] times and pausing [max_attempts - 1] times:
    there is no pause after the last attempt.  With [max_attempts <= 0]
    the function is never called and [TypeError] is raised, there being no
    exception to raise again. *)
Theorem retry_exhausted (delay : Q) :
  (forall m : nat,
      max_attempts = Z.of_nat m -> (1 <= m)%nat -> 0 <= delay ->
      keeps_failing exceptions func 1 m ->
      let run := with_retry exceptions func max_attempts delay backoff in
      exists e,
        value_of (func m) = Err e
        /\ value_of run = Err e
        /\ did (trace_of run) = events_of_attempts func 1 m
        /\ slept (trace_of run) = pauses delay backoff (m - 1))
  /\ ((max_attempts <= 0)%Z ->
      with_retry exceptions func max_attempts delay backoff
      = (Err (TypeError "exceptions must derive from BaseException"), [])).
Proof.
  split.
  - intros m Hmax Hm Hd Hfail run.
    destruct (Hfail m) as (e & He & Hexc); [lia|]. exists e. split; [exact He|].
    assert (Hrun : run = (Err e, (retried func 1 (m - 1) delay backoff
                                  ++ map Did (trace_of (func m)))%list)).
    { subst run. unfold with_retry.
      replace (Z.to_nat max_attempts) with ((m - 1) + 1)%nat by lia.
      destruct (attempts_after_failures (m - 1) 1 1 delay None)
        as (last' & _ & _ & ->); [intros j Hj; apply Hfail; lia | lia | exact Hd |].
      replace (1 + (m - 1))%nat with m by lia.
      cbn [attempts]. unfold relog, value_of, trace_of in *.
      destruct (func m) as [o t]. cbn [fst snd] in *. subst o. rewrite Hexc.
      assert (L : (Z.of_nat m <? max_attempts)%Z = false) by (apply Z.ltb_ge; lia).
      rewrite L. cbn [raise fst snd]. now rewrite app_nil_r. }
    rewrite Hrun.
    change (trace_of (@Err A e,
                      (retried func 1 (m - 1) delay backoff
                       ++ map Did (trace_of (func m)))%list))
      with (retried func 1 (m - 1) delay backoff ++ map Did (trace_of (func m)))%list.
    rewrite did_app, did_retried, did_Did, slept_app, slept_retried, slept_Did, app_nil_r.
    split; [reflexivity|]. split; [|reflexivity].
    symmetry. now apply events_up_to.
  - intros H. unfold with_retry. replace (Z.to_nat max_attempts) with 0%nat by lia.
    reflexivity.
Qed.

End WithFunction.

End RetryFacts.

(** Witnesses of the two theorems on retrying: a function that answers at
    its third attempt, and one that never answers, under
    [with_retry(max_attempts=3, delay=1.0, backoff=2.0)]. *)

Module RetryWitnesses.
Import Py Eff Sys Retry RetrySamples RetryFacts.

Lemma retry_stops_at_witness :
  let run := with_retry any_exception flaky 3 1 2 in
  value_of run = value_of (flaky 3)
  /\ did (trace_of run) = events_of_attempts flaky 1 3
  /\ slept (trace_of run) = pauses 1 2 (3 - 1)
  /\ (forall i x, nth_error (slept (trace_of run)) i = Some x ->
                  x == 1 * 2 ^ Z.of_nat i).
Proof.
  apply (retry_stops_at any_exception flaky 3 2).
  - discriminate.
  - lia.
  - lia.
  - discriminate.
  - intros j Hj. exists (Inner EngineError).
    assert (j = 1 \/ j = 2)%nat as [-> | ->] by lia; split; reflexivity.
  - left. exists 42%Z. reflexivity.
Defined.

Lemma retry_exhausted_witness :
  (forall m : nat,
      3%Z = Z.of_nat m -> (1 <= m)%nat -> 0 <= 1 ->
      keeps_failing any_exception hopeless 1 m ->
      let run := with_retry any_exception hopeless 3 1 2 in
      exists e,
        value_of (hopeless m) = Err e
        /\ value_of run = Err e
        /\ did (trace_of run) = events_of_attempts hopeless 1 m
        /\ slept (trace_of run) = pauses 1 2 (m - 1))
  /\ ((3 <= 0)%Z ->
      with_retry any_exception hopeless 3 1 2
      = (Err (TypeError "exceptions must derive from BaseException"), [])).
Proof.
  apply (retry_exhausted any_exception hopeless 3 2). discriminate.
Defined.

Example retry_flaky :
  with_retry any_exception flaky 3 1 2
  = (Ok 42%Z, [Did "attempt"; Slept 1; Did "attempt"; Slept 2; Did "attempt"]).
Proof. reflexivity. Qed.

Example retry_hopeless :
  with_retry any_exception hopeless 3 1 2
  = (Err (Inner EngineError),
     [Did "attempt"; Slept 1; Did "attempt"; Slept 2; Did "attempt"]).
Proof. reflexivity. Qed.

End RetryWitnesses.

(** ** A provider by its name *)

Module ProviderByNameFacts.
Import Py Eff Sys Text Providers ChainVocabulary ChainSamples ProviderByName.
Import OCRProviderChain.

(** X16: [extract_with_provider] runs the first provider of the list that has
    the given name, and that provider only; its result or failure is the
    outcome.  A name that no provider has raises [ValueError] before any
    provider is called.  In the chain of the repository the names are
    "paddleocr" and "easyocr". *)
Theorem provider_by_name (self : t) (image_path provider_name lang : string) :
  let run := extract_with_provider self image_path provider_name lang in
  ((forall p, In p (providers self) -> name p <> provider_name) ->
   run = (Err (ValueErrorOf ("Unknown OCR provider: " ++ provider_name)), []))
  /\ (forall pre p post,
        providers self = (pre ++ p :: post)%list ->
        name p = provider_name ->
        (forall q, In q pre -> name q <> provider_name) ->
        trace_of run = [invocation_of image_path lang p]
        /\ value_of run = match Providers.extract p image_path lang with
                          | Some r => Ok r
                          | None => Err (Inner EngineError)
                          end)
  /\ (forall e : engines,
        lookup (init e default_min_confidence) provider_name
        = if (provider_name =? "paddleocr")%string then Some (PaddleOCRProvider e)
          else if (provider_name =? "easyocr")%string then Some (EasyOCRProvider e)
          else None).
Proof.
  intros run. subst run. unfold extract_with_provider, lookup.
  split; [|split].
  - intros H.
    assert (F : find (fun p => (name p =? provider_name)%string) (providers self) = None).
    { induction (providers self) as [|p ps IH]; [reflexivity|]. simpl.
      destruct (name p =? provider_name)%string eqn:E.
      - apply String.eqb_eq in E. exfalso. apply (H p); [now left | exact E].
      - apply IH. intros q Hq. apply H. now right. }
    now rewrite F.
  - intros pre p post Hps Hp Hpre.
    assert (F : find (fun p => (name p =? provider_name)%string) (providers self) = Some p).
    { rewrite Hps. clear Hps. induction pre as [|q pre IH]; simpl.
      - apply String.eqb_eq in Hp. now rewrite Hp.
      - assert (N : (name q =? provider_name)%string = false)
          by (apply String.eqb_neq, Hpre; now left).
        rewrite N. apply IH. intros q' Hq'. apply Hpre. now right. }
    rewrite F. unfold of_M, call.
    destruct (Providers.extract p image_path lang); split; reflexivity.
  - intros e. unfold init. cbn [providers find].
    change (name (PaddleOCRProvider e)) with "paddleocr".
    change (name (EasyOCRProvider e)) with "easyocr".
    now rewrite (String.eqb_sym "paddleocr"), (String.eqb_sym "easyocr").
Qed.

Example unknown_provider :
  extract_with_provider (chain engines_confident) "scan.png" "tesseract" "en"
  = (Err (ValueErrorOf "Unknown OCR provider: tesseract"), []).
Proof. reflexivity. Qed.

Example second_provider_by_name :
  extract_with_provider (chain engines_confident) "scan.png" "easyocr" "en"
  = (Ok (scan (95 # 100) "easyocr"),
     [{| invoked := "easyocr"; on_image := "scan.png"; on_lang := "en" |}]).
Proof. reflexivity. Qed.

End ProviderByNameFacts.

(** ** The OCR service *)

Module ServiceFacts.
Import Py Eff Sys Text Providers Retry Service ServiceSamples PyFacts RetryFacts.

Lemma bind_ok {Ev A B : Type} (c : R Ev A) (k : A -> R Ev B) (a : A) :
  Sys.value_of c = Ok a ->
  Sys.bind c k = (Sys.value_of (k a), (Sys.trace_of c ++ Sys.trace_of (k a))%list).
Proof.
  destruct c as [o t]. simpl. intros ->. simpl. now destruct (k a).
Qed.

Lemma bind_err {Ev A B : Type} (c : R Ev A) (k : A -> R Ev B) (e : error) :
  Sys.value_of c = Err e -> Sys.bind c k = (Err e, Sys.trace_of c).
Proof. destruct c as [o t]. simpl. now intros ->. Qed.

Section WithPaths.
Variable is_pdf_suffix : string -> bool.
Variable path_str : string -> string.
Variable settings : Settings.

Local Abbreviation chain_extract := (Service.chain_extract settings).
Local Abbreviation ocr_pages := (Service.ocr_pages settings).
Local Abbreviation _extract_from_pdf := (Service._extract_from_pdf settings).
Local Abbreviation second_pass := (Service.second_pass is_pdf_suffix settings).
Local Abbreviation extract := (Service.extract is_pdf_suffix path_str settings).
Local Abbreviation extract_with_fallback :=
  (Service.extract_with_fallback is_pdf_suffix path_str settings).

(** Reading pages only calls OCR providers. *)
Lemma ocr_pages_calls (w : world) (lang : string) (image_paths : list string)
    (all_texts : list str) (total : Q) (provider_used : string) :
  exists calls,
    Sys.trace_of (ocr_pages w lang image_paths all_texts total provider_used)
    = map Ocr calls.
Proof.
  revert all_texts total provider_used.
  induction image_paths as [|img rest IH]; intros all_texts total provider_used.
  - now exists [].
  - cbn [Service.ocr_pages].
    destruct (chain_extract w img lang) as [[r|e] t] eqn:E.
    + assert (T : t = map Ocr (Eff.trace_of
                                 (OCRProviderChain.extract (chain settings w) img lang))).
      { unfold Service.chain_extract, of_M in E. now injection E as _ <-. }
      destruct (IH (all_texts ++ [text r])%list (total + confidence r) (provider r))
        as [calls Hc].
      exists (Eff.trace_of (OCRProviderChain.extract (chain settings w) img lang)
              ++ calls)%list.
      rewrite (bind_ok (Ok r, t) _ r eq_refl). unfold Sys.trace_of at 1. cbn [snd].
      unfold Sys.trace_of at 1. cbn [snd]. rewrite Hc, T. now rewrite map_app.
    + exists (Eff.trace_of (OCRProviderChain.extract (chain settings w) img lang)).
      rewrite (bind_err (Err e, t) _ e eq_refl). unfold Sys.trace_of. cbn [snd].
      unfold Service.chain_extract, of_M in E. now injection E as _ <-.
Qed.

(** X17: The temporary page images of a PDF are all unlinked, once each and in
    order, after the last OCR call and whether the pages could be read or
    not: in [_extract_from_pdf] and in the second pass of
    [extract_with_fallback] alike. *)
Theorem pdf_images_always_unlinked (w : world) (pdf_path : string)
    (image_paths : list string) :
  pdf_to_images w pdf_path = Some image_paths ->
  (exists calls,
      Sys.trace_of (_extract_from_pdf w pdf_path)
      = (map Ocr calls ++ map Unlink image_paths)%list)
  /\ (forall result, _is_pdf is_pdf_suffix pdf_path = true ->
        exists calls,
          Sys.trace_of (second_pass w result pdf_path)
          = (map Ocr calls ++ map Unlink image_paths)%list).
Proof.
  intros Hp.
  assert (F : forall lang,
             exists calls o,
               finally (ocr_pages w lang image_paths [] 0 "unknown")
                       (unlink_all image_paths)
               = (o, (map Ocr calls ++ map Unlink image_paths)%list)).
  { intros lang. destruct (ocr_pages_calls w lang image_paths [] 0 "unknown") as [calls Hc].
    unfold finally, unlink_all.
    destruct (ocr_pages w lang image_paths [] 0 "unknown") as [o t].
    unfold Sys.trace_of in Hc. cbn [snd] in Hc. subst t. now exists calls, o. }
  split.
  - unfold Service._extract_from_pdf. rewrite Hp.
    destruct image_paths as [|img rest] eqn:Ei; [now exists []|]. rewrite <- Ei in *.
    destruct (F (ocr_lang settings)) as (calls & o & ->). exists calls.
    destruct o as [[[texts total] used]|e]; cbn [Sys.bind].
    + unfold OCRResult_new. destruct (_ && _); cbn [Sys.trace_of snd Sys.ret Sys.raise];
        now rewrite app_nil_r.
    + reflexivity.
  - intros result Hpdf. unfold Service.second_pass. rewrite Hpdf, Hp.
    destruct (F "tr") as (calls & o & ->). exists calls.
    destruct o as [[[texts total] used]|e]; cbn [Sys.bind]; [|reflexivity].
    destruct image_paths as [|img rest]; [cbn; now rewrite app_nil_r|].
    destruct (Qgtb _ _); [|cbn; now rewrite app_nil_r].
    unfold OCRResult_new. destruct (_ && _); cbn; now rewrite app_nil_r.
Qed.

Lemma last_cons {A : Type} (a d : A) (l : list A) : last (a :: l) d = last l a.
Proof.
  revert a d. induction l as [|b l IH]; intros a d; [reflexivity|].
  change (last (a :: b :: l) d) with (last (b :: l) d). now rewrite !IH.
Qed.

(** When every page is read, the loop returns the texts in page order, the
    confidences added up and the provider of the last page. *)
Lemma ocr_pages_ok (w : world) (lang : string) (image_paths : list string)
    (pages : list OCRResult) (all_texts : list str) (total : Q) (provider_used : string) :
  Forall2 (fun img r => Sys.value_of (chain_extract w img lang) = Ok r) image_paths pages ->
  Sys.value_of (ocr_pages w lang image_paths all_texts total provider_used)
  = Ok ((all_texts ++ map text pages)%list,
        fold_left Qplus (map confidence pages) total,
        last (map provider pages) provider_used).
Proof.
  intros H. revert all_texts total provider_used.
  induction H as [|img r rest pages' Hr _ IH]; intros all_texts total provider_used.
  - cbn. now rewrite app_nil_r.
  - cbn [Service.ocr_pages]. rewrite (bind_ok _ _ r Hr). cbn [Sys.value_of fst].
    change (fst ?p) with (Sys.value_of p). rewrite IH.
    cbn [map fold_left]. rewrite last_cons, <- app_assoc. reflexivity.
Qed.

Lemma sum_bounds (l : list Q) (total : Q) :
  Forall (fun c => 0 <= c <= 1) l ->
  total <= fold_left Qplus l total <= total + of_nat (List.length l).
Proof.
  intros H. revert total. induction H as [|c l [H0 H1] _ IH]; intros total.
  - change (of_nat (List.length (@nil Q))) with 0. cbn [fold_left]. lra.
  - cbn [fold_left List.length]. specialize (IH (total + c)).
    unfold of_nat in *. rewrite Nat2Z.inj_succ, <- Z.add_1_r, inject_Z_plus.
    change (inject_Z 1) with 1. lra.
Qed.

Lemma mean_in_range (l : list Q) :
  l <> [] -> Forall (fun c => 0 <= c <= 1) l ->
  0 <= fold_left Qplus l 0 / of_nat (List.length l) <= 1.
Proof.
  intros Hne H. destruct (sum_bounds l 0 H) as [Hl Hu].
  assert (Hn : 0 < of_nat (List.length l)).
  { unfold of_nat. change 0 with (inject_Z 0). rewrite <- Zlt_Qlt.
    destruct l; [congruence|cbn [List.length]; lia]. }
  split.
  - apply Qle_shift_div_l; [exact Hn|lra].
  - apply Qle_shift_div_r; [exact Hn|lra].
Qed.

(** X18: When every page of a PDF is read, and the readings are valid results
    (confidence within [0, 1]), [_extract_from_pdf] returns: the page texts
    joined by the page break, the mean of the page confidences (which
    passes the validation of the result), the configured language, and
    the provider of the LAST page with [+pdf] appended. *)
Theorem pdf_result (w : world) (pdf_path : string) (image_paths : list string)
    (pages : list OCRResult) :
  pdf_to_images w pdf_path = Some image_paths ->
  image_paths <> [] ->
  Forall2 (fun img r => Sys.value_of (chain_extract w img (ocr_lang settings)) = Ok r)
          image_paths pages ->
  Forall (fun r => 0 <= confidence r <= 1) pages ->
  Sys.value_of (_extract_from_pdf w pdf_path)
  = Ok {| text := join page_break (map text pages);
          confidence := Py.sum (map confidence pages) / of_nat (List.length pages);
          language := ocr_lang settings;
          retry_count := 0;
          provider := last (map provider pages) "unknown" ++ "+pdf" |}.
Proof.
  intros Hp Hne Hread Hvalid.
  unfold Service._extract_from_pdf. rewrite Hp.
  destruct image_paths as [|img rest] eqn:Ei; [congruence|]. rewrite <- Ei in *.
  pose proof (ocr_pages_ok w (ocr_lang settings) image_paths pages [] 0 "unknown" Hread)
    as Hok.
  assert (Hlen : List.length image_paths = List.length pages)
    by (clear - Hread; induction Hread; cbn; congruence).
  assert (Hpages : map confidence pages <> []).
  { destruct pages; [subst image_paths; inversion Hread|discriminate]. }
  assert (Hmean := mean_in_range (map confidence pages) Hpages).
  rewrite length_map in Hmean.
  assert (Hv : Forall (fun c => 0 <= c <= 1) (map confidence pages)).
  { clear - Hvalid. induction Hvalid; cbn; constructor; auto. }
  specialize (Hmean Hv). destruct Hmean as [H0 H1].
  unfold finally, unlink_all.
  destruct (ocr_pages w (ocr_lang settings) image_paths [] 0 "unknown") as [o t].
  cbn [Sys.value_of fst] in Hok. subst o. cbn [Sys.bind app].
  rewrite Hlen. unfold OCRResult_new, Py.sum.
  apply Qle_bool_iff in H0, H1. rewrite H0, H1. reflexivity.
Qed.

(** What the second pass returns, when it returns a result, is strictly
    more confident than the result it was given, and marked as a retry. *)
Lemma second_pass_better (w : world) (result better : OCRResult) (file_path : string) :
  Sys.value_of (second_pass w result file_path) = Ok (Some better) ->
  confidence result < confidence better /\ retry_count better = 1%Z.
Proof.
  unfold Service.second_pass. destruct (_is_pdf is_pdf_suffix file_path).
  - destruct (pdf_to_images w file_path) as [image_paths|]; [|discriminate].
    destruct (finally _ _) as [[[[texts total] used]|e] t]; [|discriminate].
    cbn [Sys.bind]. destruct image_paths as [|img rest]; [discriminate|].
    destruct (Qgtb _ _) eqn:G; [|discriminate].
    unfold OCRResult_new. destruct (_ && _); [|discriminate].
    cbn. intros H. injection H as <-. cbn. split; [now apply Qgtb_true|reflexivity].
  - destruct (chain_extract w file_path "tr") as [[tr|e] t]; [|discriminate].
    cbn [Sys.bind]. destruct (Qgtb _ _) eqn:G; [|discriminate].
    cbn. intros H. injection H as <-. cbn. split; [now apply Qgtb_true|reflexivity].
Qed.

(** X19: [extract_with_fallback] never lowers the confidence: when the first
    pass returns a result, so does [extract_with_fallback], whatever
    happens in the second pass (its exceptions are swallowed); and what it
    returns is either the first result itself, or - only if that one was
    below the threshold - a result of strictly higher confidence with
    [retry_count = 1]. *)
Theorem fallback_never_lowers (worlds : nat -> world) (later : world)
    (file_path : string) (first : OCRResult) :
  Sys.value_of (extract worlds file_path) = Ok first ->
  exists r,
    Sys.value_of (extract_with_fallback worlds later file_path) = Ok r
    /\ (r = first
        \/ (confidence first < min_confidence_threshold settings
            /\ confidence first < confidence r
            /\ retry_count r = 1%Z)).
Proof.
  intros H. unfold Service.extract_with_fallback.
  rewrite (bind_ok _ _ first H). cbn [Sys.value_of fst].
  destruct (Qgeb _ _) eqn:G; [exists first; split; [reflexivity|now left]|].
  assert (Hlow : confidence first < min_confidence_threshold settings).
  { apply Qnot_le_lt. intros Hle. apply Qgeb_true in Hle. congruence. }
  pose proof (fun better => second_pass_better later first better file_path) as Hb.
  destruct (second_pass later first file_path) as [[[better|]|e] t];
    cbn; try (exists first; split; [reflexivity|now left]).
  exists better. split; [reflexivity|]. right.
  destruct (Hb better eq_refl) as [Hc Hr]. auto.
Qed.

(** X20: No second pass without need: when the first pass fails,
    [extract_with_fallback] fails in the same way; when it returns a
    result that meets the threshold, this is the result; in both cases
    nothing more happens than in [extract]. *)
Theorem second_pass_only_below_threshold (worlds : nat -> world) (later : world)
    (file_path : string) :
  (exists e, Sys.value_of (extract worlds file_path) = Err e)
  \/ (exists first, Sys.value_of (extract worlds file_path) = Ok first
                    /\ min_confidence_threshold settings <= confidence first) ->
  extract_with_fallback worlds later file_path = extract worlds file_path.
Proof.
  unfold Service.extract_with_fallback.
  destruct (extract worlds file_path) as [[r|e] t]; cbn [Sys.value_of fst Sys.bind].
  - intros [[e He]|(first & Hf & Hge)]; [discriminate|].
    injection Hf as ->. apply Qgeb_true in Hge. rewrite Hge. cbn. now rewrite app_nil_r.
  - reflexivity.
Qed.

(** X21: A file that is not there is looked for three times: [extract] is
    retried like any other failure, pauses of 1 and 2 seconds are taken, no
    OCR provider is called, and [FileNotFoundError] is raised. *)
Theorem missing_file_is_retried (worlds : nat -> world) (image_path : string) :
  (forall attempt, file_exists (worlds attempt) image_path = false) ->
  extract worlds image_path
  = (Err (FileNotFoundError ("File not found: " ++ image_path)), [Slept 1; Slept 2]).
Proof.
  intros H. unfold Service.extract, with_retry.
  change (Z.to_nat 3) with 3%nat. cbn [attempts].
  unfold Service.extract_once. rewrite !H. reflexivity.
Qed.

(** X22: [extract_with_specific_provider] with a name that no provider of the
    chain has. For an image, [ValueError] is raised and nothing is called.
    For a PDF with pages, [ValueError] is raised at the first page, no
    provider is called, and every page image is unlinked. For a PDF
    without pages nothing is raised: an empty result of confidence 0 is
    returned, labelled with the unknown name. Unlike [extract], the
    function is not retried: a missing file raises at once. *)
Theorem unknown_provider_in_service (w : world) (file_path provider_name lang : string) :
  ProviderByName.lookup (chain settings w) provider_name = None ->
  let run :=
    Service.extract_with_specific_provider is_pdf_suffix path_str settings
      w file_path provider_name lang in
  let unknown := ValueErrorOf ("Unknown OCR provider: " ++ provider_name) in
  (file_exists w file_path = false ->
   run = (Err (FileNotFoundError ("File not found: " ++ file_path)), []))
  /\ (file_exists w file_path = true -> _is_pdf is_pdf_suffix file_path = false ->
      run = (Err unknown, []))
  /\ (forall image_paths,
        file_exists w file_path = true -> _is_pdf is_pdf_suffix file_path = true ->
        pdf_to_images w file_path = Some image_paths -> image_paths <> [] ->
        run = (Err unknown, map Unlink image_paths))
  /\ (file_exists w file_path = true -> _is_pdf is_pdf_suffix file_path = true ->
      pdf_to_images w file_path = Some [] ->
      run = (Ok {| text := []; confidence := 0; language := lang; retry_count := 0;
                   provider := provider_name ++ "+pdf" |}, [])).
Proof.
  intros Hl run unknown. subst run unknown.
  unfold Service.extract_with_specific_provider.
  assert (Hx : forall path,
             Service.chain_extract_with_provider settings w path provider_name lang
             = (Err (ValueErrorOf ("Unknown OCR provider: " ++ provider_name)), [])).
  { intros path. unfold Service.chain_extract_with_provider,
      ProviderByName.extract_with_provider. now rewrite Hl. }
  split; [|split; [|split]].
  - now intros ->.
  - intros -> ->. cbn [negb]. apply Hx.
  - intros image_paths -> -> -> Hne. cbn [negb].
    destruct image_paths as [|img rest]; [congruence|].
    cbn [Service.ocr_pages_with_provider]. rewrite Hx. reflexivity.
  - intros -> -> ->. reflexivity.
Qed.

End WithPaths.

Lemma unknown_provider_in_service_witness :
  Service.extract_with_specific_provider is_pdf_name as_given default_settings
    no_pages "invoice.pdf" "tesseract" "en"
  = (Ok {| text := []; confidence := 0; language := "en"; retry_count := 0;
           provider := "tesseract+pdf" |}, []).
Proof.
  apply (unknown_provider_in_service is_pdf_name as_given default_settings
           no_pages "invoice.pdf" "tesseract" "en"); reflexivity.
Defined.

(** The two-page sample PDF is read with confidence 0.9 by the first
    provider. *)
Lemma pdf_result_witness :
  Sys.value_of (Service._extract_from_pdf default_settings two_pages "invoice.pdf")
  = Ok {| text := join page_break [of_string "FATURA"; of_string "FATURA"];
          confidence := Py.sum [9 # 10; 9 # 10] / of_nat 2;
          language := "en";
          retry_count := 0;
          provider := "paddleocr+pdf" |}.
Proof.
  apply (pdf_result default_settings two_pages "invoice.pdf"
                    ["/tmp/a_page_0.png"; "/tmp/b_page_1.png"]
                    [page "FATURA" (9 # 10); page "FATURA" (9 # 10)]).
  - reflexivity.
  - discriminate.
  - repeat constructor.
  - repeat constructor; cbn; lra.
Defined.

Lemma pdf_images_always_unlinked_witness :
  exists calls,
    Sys.trace_of (Service._extract_from_pdf default_settings two_pages "invoice.pdf")
    = (map Ocr calls ++ map Unlink ["/tmp/a_page_0.png"; "/tmp/b_page_1.png"])%list.
Proof.
  exact (proj1 (pdf_images_always_unlinked is_pdf_name default_settings two_pages
                  "invoice.pdf" ["/tmp/a_page_0.png"; "/tmp/b_page_1.png"] eq_refl)).
Defined.

Lemma fallback_never_lowers_witness :
  exists r,
    Sys.value_of (Service.extract_with_fallback is_pdf_name as_given default_settings
                    (fun _ => dim) brighter "invoice.png") = Ok r
    /\ (r = page "FATURA" (4 # 10)
        \/ (confidence (page "FATURA" (4 # 10)) < min_confidence_threshold default_settings
            /\ confidence (page "FATURA" (4 # 10)) < confidence r
            /\ retry_count r = 1%Z)).
Proof.
  apply (fallback_never_lowers is_pdf_name as_given default_settings
           (fun _ => dim) brighter "invoice.png" (page "FATURA" (4 # 10))).
  reflexivity.
Defined.

Lemma second_pass_only_below_threshold_witness :
  Service.extract_with_fallback is_pdf_name as_given default_settings
    (fun _ => two_pages) brighter "invoice.pdf"
  = Service.extract is_pdf_name as_given default_settings (fun _ => two_pages) "invoice.pdf".
Proof.
  apply (second_pass_only_below_threshold is_pdf_name as_given default_settings).
  right. eexists. split; [reflexivity|]. cbn. unfold Qle. cbn. lia.
Defined.

Lemma missing_file_is_retried_witness :
  Service.extract is_pdf_name as_given default_settings (fun _ => nowhere) "invoice.png"
  = (Err (FileNotFoundError "File not found: invoice.png"), [Slept 1; Slept 2]).
Proof.
  apply (missing_file_is_retried is_pdf_name as_given default_settings (fun _ => nowhere)).
  reflexivity.
Defined.

(** On the sample image the second pass does replace the first result. *)
Example second_pass_replaces :
  Sys.value_of (Service.extract_with_fallback is_pdf_name as_given default_settings
                  (fun _ => dim) brighter "invoice.png")
  = Ok {| text := of_string "FATURA"; confidence := 6 # 10; language := "en";
          retry_count := 1; provider := "paddleocr" |}.
Proof. reflexivity. Qed.

End ServiceFacts.

(** ** Pipeline metrics *)

Module MetricsFacts.
Import Py Sys Metrics MetricsSamples.

(** The [confidence] entry of a step's dictionary: there only for a
    confidence that is neither [None] nor zero. *)
Lemma to_dict_confidence (s : StepMetrics) :
  get "confidence" (to_dict s)
  = match confidence s with
    | Some c => if truthyQ c then Some (VFloat (round3 c)) else None
    | None => None
    end.
Proof.
  unfold to_dict.
  destruct (duration_ms s) as [d|]; [destruct (truthyQ d)|];
    (destruct (confidence s) as [c|]; [destruct (truthyQ c)|]);
    (destruct (provider s) as [p|]; [destruct (truthy_opt_str (Some p))|]);
    (destruct (error s) as [e|]; [destruct (truthy_opt_str (Some e))|]);
    reflexivity.
Qed.

Section WithClock.
Variable str_of : Sys.error -> string.
Variable now : nat -> Q.

Local Abbreviation track := (Metrics.track str_of now).

(** X23: Whatever the body does, [track] adds exactly one step at the end of the
    context's steps, and this step is not left running; when the body
    raises, the same exception leaves [track], and the step is failed,
    with the exception's text as its error and the time from its start to
    the clock's next reading as its duration. *)
Theorem tracked_step_is_settled {A : Type} (self : PipelineContext) (step_name : string)
    (body : StepMetrics -> result A * StepMetrics) :
  exists step,
    steps (snd (track self step_name body)) = (steps self ++ [step])%list
    /\ status step <> "running"
    /\ (forall e, fst (body (StepMetrics_new step_name (now 0))) = Err e ->
          fst (track self step_name body) = Err e
          /\ status step = "failed"
          /\ error step = Some (str_of e)
          /\ duration_ms step
             = Some ((now 1 - started_at (snd (body (StepMetrics_new step_name (now 0)))))
                     * 1000)).
Proof.
  unfold Metrics.track.
  destruct (body (StepMetrics_new step_name (now 0))) as [[a|e] step'].
  - destruct (status step' =? "running")%string eqn:Hs.
    + cbn. eexists. split; [reflexivity|]. cbn. split; [discriminate|]. discriminate.
    + destruct (duration_ms step') eqn:Hd.
      * exists step'. cbn. split; [reflexivity|].
        split; [now apply String.eqb_neq|]. discriminate.
      * cbn. eexists. split; [reflexivity|]. cbn. split; [discriminate|]. discriminate.
  - cbn. eexists. split; [reflexivity|]. cbn. split; [discriminate|].
    intros e' H. injection H as <-. repeat split.
Qed.

(** X24: A body that returns without calling [complete] loses the confidence it
    stored in the step: [track] completes the step with no confidence, so
    the step's dictionary has no [confidence] entry. The provider it stored
    is kept, and the duration runs from the step's start to the clock's
    next reading. *)
Theorem confidence_stored_by_the_body_is_lost {A : Type} (self : PipelineContext)
    (step_name : string) (body : StepMetrics -> result A * StepMetrics)
    (a : A) (left : StepMetrics) :
  body (StepMetrics_new step_name (now 0)) = (Ok a, left) ->
  status left = "running" ->
  exists step,
    track self step_name body
    = (Ok a, {| pipeline_id := pipeline_id self;
                pipeline_started_at := pipeline_started_at self;
                steps := (steps self ++ [step])%list |})
    /\ status step = "completed"
    /\ confidence step = None
    /\ get "confidence" (to_dict step) = None
    /\ provider step = provider left
    /\ duration_ms step = Some ((now 1 - started_at left) * 1000).
Proof.
  intros Hb Hs. unfold Metrics.track. rewrite Hb, Hs. cbn.
  eexists. split; [reflexivity|]. rewrite to_dict_confidence. cbn. repeat split.
Qed.

End WithClock.

Lemma confidence_stored_by_the_body_is_lost_witness :
  exists step,
    Metrics.track message clock fresh "ocr" (stores "paddleocr" (9 # 10))
    = (Ok tt, {| pipeline_id := "1f0c2d3a"; pipeline_started_at := 10;
                 steps := [step] |})
    /\ status step = "completed"
    /\ confidence step = None
    /\ get "confidence" (to_dict step) = None
    /\ provider step = Some "paddleocr"
    /\ duration_ms step = Some ((clock 1 - clock 0) * 1000).
Proof.
  apply (confidence_stored_by_the_body_is_lost message clock fresh "ocr"
           (stores "paddleocr" (9 # 10)) tt
           (snd (stores "paddleocr" (9 # 10) (StepMetrics_new "ocr" (clock 0)))));
    reflexivity.
Defined.

(** A body that raises: the step is failed and carries the message. *)
Example track_breaks :
  fst (Metrics.track message clock fresh "extraction" breaks)
  = Err (ValueErrorOf "No extractors available")
  /\ map to_dict (steps (snd (Metrics.track message clock fresh "extraction" breaks)))
     = [[("name", VStr "extraction"); ("status", VStr "failed");
         ("duration_ms", VFloat 2000); ("error", VStr "No extractors available")]].
Proof. split; reflexivity. Qed.

End MetricsFacts.

(** ** Uploads and their deletion *)

Module MainFacts.
Import Py Sys Main MainSamples.

Lemma append_cancel_l (a b c : string) : (a ++ b = a ++ c)%string -> b = c.
Proof.
  induction a as [|ch a IH]; cbn; [auto|]. intros H. injection H as H. auto.
Qed.

Lemma path_eqb (data_dir job_id ext ext' : string) :
  (in_data_dir data_dir (job_id ++ ext) =? in_data_dir data_dir (job_id ++ ext'))%string
  = (ext =? ext')%string.
Proof.
  destruct (ext =? ext')%string eqn:E.
  - apply String.eqb_eq in E. subst. apply String.eqb_refl.
  - apply String.eqb_neq. intros H. apply String.eqb_neq in E. apply E.
    unfold in_data_dir in H.
    apply append_cancel_l, append_cancel_l, append_cancel_l in H. exact H.
Qed.

Section WithDataDir.
Variable data_dir : string.
Variable suffix : string -> string.
Variable allowed_listing : string.
Variable delay : string -> option string.

Local Abbreviation in_data_dir := (Main.in_data_dir data_dir).
Local Abbreviation stored_extension := (Main.stored_extension suffix).
Local Abbreviation create_invoice :=
  (Main.create_invoice data_dir suffix allowed_listing delay).
Local Abbreviation delete_from := (Main.delete_from data_dir).
Local Abbreviation delete_invoice := (Main.delete_invoice data_dir).

(** An accepted upload is written to the data directory under the job's id
    and the stored extension, whether it can be queued or not. *)
Lemma create_invoice_writes (file : UploadFile) (job_id : string) (fs : files) :
  accepted file ->
  snd (create_invoice file job_id fs)
  = write_bytes (in_data_dir (job_id ++ stored_extension file)) fs.
Proof.
  unfold accepted, Main.create_invoice. intros H.
  assert (R : match content_type file with
              | Some (String c t) => negb (mem (String c t) allowed_types)
              | _ => false
              end = false).
  { destruct (content_type file) as [[|c t]|]; try reflexivity.
    apply negb_false_iff. unfold mem. apply existsb_exists.
    exists (String c t). split; [exact H|apply String.eqb_refl]. }
  rewrite R. now destruct (delay _).
Qed.

(** With none of the extensions tried there, the loop ends in 404 and
    touches nothing. *)
Lemma delete_from_miss (job_id : string) (exts : list string) (fs : files) :
  (forall ext, In ext exts -> fs (in_data_dir (job_id ++ ext)) = false) ->
  delete_from job_id exts fs = (HTTPException 404 "Invoice not found", fs).
Proof.
  induction exts as [|ext rest IH]; intros H; [reflexivity|].
  cbn [Main.delete_from]. rewrite (H ext (or_introl eq_refl)).
  apply IH. intros e He. apply H. now right.
Qed.

(** With exactly one of the extensions tried there, the loop unlinks it. *)
Lemma delete_from_hit (job_id stored : string) (exts : list string) (fs : files) :
  In stored exts ->
  (forall ext, In ext exts -> fs (in_data_dir (job_id ++ ext)) = false) ->
  delete_from job_id exts (write_bytes (in_data_dir (job_id ++ stored)) fs)
  = (JSONResponse [("status", VStr "deleted"); ("job_id", VStr job_id)],
     unlink (in_data_dir (job_id ++ stored))
            (write_bytes (in_data_dir (job_id ++ stored)) fs)).
Proof.
  induction exts as [|ext rest IH]; intros Hin H; [destruct Hin|].
  cbn [Main.delete_from]. unfold write_bytes at 1. rewrite path_eqb.
  destruct (ext =? stored)%string eqn:E.
  - apply String.eqb_eq in E. now subst.
  - rewrite (H ext (or_introl eq_refl)). apply IH.
    + destruct Hin as [->|Hin]; [now rewrite String.eqb_refl in E|exact Hin].
    + intros e He. apply H. now right.
Qed.

(** X25: Upload, then delete: when an accepted upload is stored with one of the
    extensions that [delete_invoice] tries, and the job had no such file
    before, deleting the job answers [deleted] and leaves the files as
    they were before the upload. *)
Theorem delete_undoes_upload (file : UploadFile) (job_id : string) (fs : files) :
  accepted file ->
  fresh data_dir job_id fs ->
  In (stored_extension file) deletable ->
  exists fs',
    delete_invoice job_id (snd (create_invoice file job_id fs))
    = (JSONResponse [("status", VStr "deleted"); ("job_id", VStr job_id)], fs')
    /\ forall path, fs' path = fs path.
Proof.
  intros Ha Hf Hin. rewrite (create_invoice_writes file job_id fs Ha).
  unfold Main.delete_invoice. rewrite (delete_from_hit _ _ _ _ Hin Hf).
  eexists. split; [reflexivity|]. intros path. unfold unlink, write_bytes.
  destruct (path =? _)%string eqn:E; [|reflexivity].
  apply String.eqb_eq in E. subst path. symmetry. apply Hf, Hin.
Qed.

(** X26: An accepted upload stored with any other extension - a PDF, say -
    cannot be deleted: [delete_invoice] answers 404 and the file stays. *)
Theorem upload_with_other_extension_stays (file : UploadFile) (job_id : string)
    (fs : files) :
  accepted file ->
  fresh data_dir job_id fs ->
  ~ In (stored_extension file) deletable ->
  let stored := snd (create_invoice file job_id fs) in
  delete_invoice job_id stored = (HTTPException 404 "Invoice not found", stored)
  /\ stored (in_data_dir (job_id ++ stored_extension file)) = true.
Proof.
  intros Ha Hf Hout stored. unfold stored.
  rewrite (create_invoice_writes file job_id fs Ha). split.
  - apply delete_from_miss. intros ext Hin. unfold write_bytes. rewrite path_eqb.
    destruct (ext =? _)%string eqn:E; [|apply Hf, Hin].
    apply String.eqb_eq in E. subst. contradiction.
  - unfold write_bytes. now rewrite String.eqb_refl.
Qed.

End WithDataDir.

Lemma delete_undoes_upload_witness :
  exists fs',
    Main.delete_invoice "data" "7c1e"
      (snd (Main.create_invoice "data" after_last_dot listing queue scan "7c1e" empty_disk))
    = (JSONResponse [("status", VStr "deleted"); ("job_id", VStr "7c1e")], fs')
    /\ forall path, fs' path = empty_disk path.
Proof.
  apply (delete_undoes_upload "data" after_last_dot listing queue scan "7c1e" empty_disk).
  - cbn. auto.
  - intros ext _. reflexivity.
  - cbn. auto.
Defined.

Lemma upload_with_other_extension_stays_witness :
  Main.delete_invoice "data" "7c1e"
    (snd (Main.create_invoice "data" after_last_dot listing queue document "7c1e" empty_disk))
  = (HTTPException 404 "Invoice not found",
     snd (Main.create_invoice "data" after_last_dot listing queue document "7c1e" empty_disk))
  /\ snd (Main.create_invoice "data" after_last_dot listing queue document "7c1e" empty_disk)
       "data/7c1e.pdf" = true.
Proof.
  apply (upload_with_other_extension_stays "data" after_last_dot listing queue document
           "7c1e" empty_disk).
  - cbn. auto 10.
  - intros ext _. reflexivity.
  - cbn. intros H. repeat (destruct H as [H|H]; [discriminate|]). exact H.
Defined.

End MainFacts.
